(** * Algo-Trading-System: indicators, backtester, metrics, feature pipeline

    A shallow embedding of [utils.py], [strategy.py] and [ml_model.py].

    Numbers.  The program computes on IEEE double precision values
    ([numpy.float64], pandas columns).  They are embedded as exact
    rationals extended with the three special values the code can produce
    by dividing by zero: [PInf], [NInf] and [NaN] (pandas' null).
    Arithmetic on finite values is exact here: rounding, signed zeros,
    underflow and (floor division apart) overflow are not modelled.  A
    property that only follows nullness, guards and control flow holds of
    the doubles as it is stated.  A property about the values computed is
    stated for inputs on which double precision cannot depart from it:
    values of moderate size ([moderate]), where nothing overflows or
    underflows, and, where the sums of a window must come out exactly,
    values on a binary grid ([on_grid]); its conclusion is then one that
    rounding a quotient does not change. *)

From Stdlib Require Import QArith Qround Lqa.
From stdpp Require Import gmap strings list fin_maps sorting.

Local Open Scope Q_scope.

(** ** Extended rationals standing for [float64] *)

Inductive F64 : Type :=
| Fin (q : Q)
| PInf
| NInf
| NaN.

(** Sign of a rational, as IEEE needs it to pick an infinity. *)
Inductive sgn := Neg | Zer | Pos.

Definition Qsgn (q : Q) : sgn :=
  match Qcompare q 0 with
  | Lt => Neg
  | Eq => Zer
  | Gt => Pos
  end.

Definition isna (x : F64) : bool :=
  match x with NaN => true | _ => false end.

Definition is_finite (x : F64) : bool :=
  match x with Fin _ => true | _ => false end.

Definition fneg (x : F64) : F64 :=
  match x with
  | Fin a => Fin (- a)
  | PInf => NInf
  | NInf => PInf
  | NaN => NaN
  end.

Definition fadd (x y : F64) : F64 :=
  match x, y with
  | NaN, _ | _, NaN => NaN
  | Fin a, Fin b => Fin (a + b)
  | PInf, NInf | NInf, PInf => NaN
  | PInf, _ | _, PInf => PInf
  | NInf, _ | _, NInf => NInf
  end.

Definition fsub (x y : F64) : F64 := fadd x (fneg y).

(** An infinity of the given sign; a zero sign is the invalid operation. *)
Definition inf_of (s : sgn) : F64 :=
  match s with Pos => PInf | Neg => NInf | Zer => NaN end.

Definition sgn_mul (s t : sgn) : sgn :=
  match s, t with
  | Zer, _ | _, Zer => Zer
  | Pos, Pos | Neg, Neg => Pos
  | _, _ => Neg
  end.

Definition fsgn (x : F64) : option sgn :=
  match x with
  | Fin a => Some (Qsgn a)
  | PInf => Some Pos
  | NInf => Some Neg
  | NaN => None
  end.

Definition fmul (x y : F64) : F64 :=
  match x, y with
  | Fin a, Fin b => Fin (a * b)
  | _, _ =>
      match fsgn x, fsgn y with
      | Some s, Some t => inf_of (sgn_mul s t)
      | _, _ => NaN
      end
  end.

(** True division.  numpy does not raise on a zero divisor: [x / 0] is an
    infinity of the sign of [x], and [0 / 0] is NaN.  A zero divisor is
    taken as positive zero. *)
Definition fdiv (x y : F64) : F64 :=
  match x, y with
  | NaN, _ | _, NaN => NaN
  | Fin a, Fin b => if Qeq_bool b 0 then inf_of (Qsgn a) else Fin (a / b)
  | Fin _, _ => Fin 0
  | _, Fin b => inf_of (sgn_mul (match x with PInf => Pos | _ => Neg end)
                                (match Qsgn b with Neg => Neg | _ => Pos end))
  | _, _ => NaN
  end.

(** The magnitude from which a quotient of doubles rounds to an infinity:
    half-way between the largest double and [2^1024]. *)
Definition f64_overflow : Q := inject_Z (2 ^ 1024 - 2 ^ 970).

(** Floor division [//] on numpy floats.  A zero divisor gives what [/]
    gives, whatever the dividend; otherwise an infinite dividend gives
    NaN, and an infinite divisor gives 0, or -1 when the signs differ.
    Between finite values the result is the floor of the quotient, towards
    minus infinity, and an infinity when the quotient overflows.  (Below
    [2^50] in magnitude the code's floor is the exact one; above, the code
    rounds it and the floor kept here does not.) *)
Definition ffloordiv (x y : F64) : F64 :=
  match x, y with
  | NaN, _ | _, NaN => NaN
  | _, Fin b =>
      if Qeq_bool b 0 then fdiv x y
      else
        match x with
        | Fin a =>
            if Qle_bool f64_overflow (a / b)
               || Qle_bool (a / b) (- f64_overflow)
            then inf_of (Qsgn (a / b))
            else Fin (inject_Z (Qfloor (a / b)))
        | _ => NaN
        end
  | Fin a, PInf => match Qsgn a with Neg => Fin (-1) | _ => Fin 0 end
  | Fin a, NInf => match Qsgn a with Pos => Fin (-1) | _ => Fin 0 end
  | _, _ => NaN
  end.

(** Comparisons are false as soon as one side is NaN. *)
Definition flt (x y : F64) : bool :=
  match x, y with
  | NaN, _ | _, NaN => false
  | Fin a, Fin b => match Qcompare a b with Lt => true | _ => false end
  | Fin _, PInf => true
  | Fin _, NInf => false
  | PInf, _ => false
  | NInf, NInf => false
  | NInf, _ => true
  end.

Definition fgt (x y : F64) : bool := flt y x.

Definition fle (x y : F64) : bool :=
  match x, y with
  | NaN, _ | _, NaN => false
  | Fin a, Fin b => match Qcompare a b with Gt => false | _ => true end
  | Fin _, PInf => true
  | Fin _, NInf => false
  | PInf, PInf => true
  | PInf, _ => false
  | NInf, _ => true
  end.

(** Equality of values: rationals up to [Qeq], special values as themselves. *)
Definition feq (x y : F64) : Prop :=
  match x, y with
  | Fin a, Fin b => a == b
  | PInf, PInf | NInf, NInf | NaN, NaN => True
  | _, _ => False
  end.

(** The test [x == y] on floats. *)
Definition feqb (x y : F64) : bool :=
  match x, y with
  | Fin a, Fin b => Qeq_bool a b
  | PInf, PInf | NInf, NInf => true
  | _, _ => false
  end.

Declare Scope f64_scope.
Delimit Scope f64_scope with F.
Bind Scope f64_scope with F64.
Infix "+" := fadd : f64_scope.
Infix "-" := fsub : f64_scope.
Infix "*" := fmul : f64_scope.
Infix "/" := fdiv : f64_scope.
Infix "//" := ffloordiv (at level 40, left associativity) : f64_scope.
Notation "x ≈ y" := (feq x y) (at level 70, no associativity) : type_scope.

Definition F (z : Z) : F64 := Fin (inject_Z z).

(** ** Signals, positions and trades ([strategy.py])

    The dictionaries built by [generate_signals] and [backtest] have fixed
    keys; they are records here.  Dates are positions on a time axis. *)

Inductive side := BUY | SELL.

Record Signal := {
  sig_date : Z;
  sig_signal : side;
  sig_price : F64;
  sig_rsi : F64;
  sig_ma20 : F64;
  sig_ma50 : F64 }.

Record Position := {
  pos_entry_date : Z;
  pos_entry_price : F64;
  pos_ticker : string;
  pos_quantity : F64 }.

Record Trade := {
  tr_ticker : string;
  tr_entry_date : Z;
  tr_exit_date : Z;
  tr_entry_price : F64;
  tr_exit_price : F64;
  tr_quantity : F64;
  tr_pnl : F64;
  tr_return_pct : F64 }.

(** The variables the loop of [backtest] reads and writes:
    [current_position], [trades] and [self.portfolio_value]. *)
Record bt_state := {
  current_position : option Position;
  trades : list Trade;
  portfolio_value : F64 }.

Definition is_buy (s : Signal) : bool :=
  match sig_signal s with BUY => true | SELL => false end.

Definition is_sell (s : Signal) : bool :=
  match sig_signal s with SELL => true | BUY => false end.

(** One iteration of [for signal in signals] (strategy.py, lines 57-82):
    [if signal == 'BUY' and current_position is None: ...
     elif signal == 'SELL' and current_position is not None: ...]. *)
Definition backtest_step (ticker : string) (st : bt_state) (signal : Signal)
  : bt_state :=
  match is_buy signal, current_position st with
  | true, None =>
      {| current_position := Some
           {| pos_entry_date := sig_date signal;
              pos_entry_price := sig_price signal;
              pos_ticker := ticker;
              pos_quantity := (portfolio_value st // sig_price signal)%F |};
         trades := trades st;
         portfolio_value := portfolio_value st |}
  | _, _ =>
      match is_sell signal, current_position st with
      | true, Some pos =>
          let exit_price := sig_price signal in
          let pnl :=
            ((exit_price - pos_entry_price pos) * pos_quantity pos)%F in
          {| current_position := None;
             trades := trades st ++
               [ {| tr_ticker := ticker;
                    tr_entry_date := pos_entry_date pos;
                    tr_exit_date := sig_date signal;
                    tr_entry_price := pos_entry_price pos;
                    tr_exit_price := exit_price;
                    tr_quantity := pos_quantity pos;
                    tr_pnl := pnl;
                    tr_return_pct :=
                      ((exit_price - pos_entry_price pos)
                       / pos_entry_price pos * F 100)%F |} ];
             portfolio_value := (portfolio_value st + pnl)%F |}
      | _, _ => st
      end
  end.

(** The whole loop, over the signals in order. *)
Definition backtest_loop (ticker : string) (signals : list Signal)
  (st : bt_state) : bt_state :=
  fold_left (backtest_step ticker) signals st.

(** The state at the start of a [backtest] call with running capital [c]. *)
Definition bt_init (c : F64) : bt_state :=
  {| current_position := None; trades := []; portfolio_value := c |}.

(** *** The position automaton, as the specification words it *)

Inductive pos_state := FLAT | LONG.

(** FLAT --BUY--> LONG; LONG --SELL--> FLAT and one trade; otherwise no-op. *)
Definition spec_step (s : pos_state) (k : side) : pos_state * nat :=
  match s, k with
  | FLAT, BUY => (LONG, 0%nat)
  | LONG, SELL => (FLAT, 1%nat)
  | LONG, BUY => (LONG, 0%nat)
  | FLAT, SELL => (FLAT, 0%nat)
  end.

Fixpoint spec_run (s : pos_state) (ks : list side) : pos_state * nat :=
  match ks with
  | [] => (s, 0%nat)
  | k :: ks' =>
      let '(s1, n1) := spec_step s k in
      let '(s2, n2) := spec_run s1 ks' in
      (s2, (n1 + n2)%nat)
  end.

Definition slot_state (p : option Position) : pos_state :=
  match p with None => FLAT | Some _ => LONG end.

(** Truncation toward zero, to compare with the floor that [//] takes. *)
Definition Qtrunc (q : Q) : Z :=
  if Qle_bool 0 q then Qfloor q else Qceiling q.

(** ** Columns (pandas [Series] of floats) *)

Abbreviation column := (list F64).

(** [c.iloc[i]]; the program only indexes inside the frame. *)
Definition iloc (c : column) (i : nat) : F64 := default NaN (c !! i).

(** [c.diff()]: the first entry is null. *)
Definition diff (c : column) : column :=
  imap (λ i x, match i with O => NaN | S j => (x - iloc c j)%F end) c.

(** [c.pct_change()]: relative change to the previous entry.  (Entries are
    taken as they are; older pandas versions fill nulls inside the series
    forward first, which changes nothing on a series without nulls.) *)
Definition pct_change (c : column) : column :=
  imap (λ i x, match i with O => NaN | S j => (x / iloc c j - F 1)%F end) c.

(** [c.shift(-1)]: every entry takes the next one, the last is null. *)
Definition shift_back (c : column) : column :=
  imap (λ i _, iloc c (S i)) c.

(** [c.where(cond, 0)]: keep the entries satisfying [cond], 0 elsewhere. *)
Definition where_ (cond : F64 → bool) (c : column) : column :=
  (λ x, if cond x then x else F 0) <$> c.

(** [c.fillna(v)]. *)
Definition fillna (v : F64) (c : column) : column :=
  (λ x, if isna x then v else x) <$> c.

(** [(c > 0).astype(int)]: a comparison with a null is false, hence 0. *)
Definition gt0_astype_int (c : column) : column :=
  (λ x, if fgt x (F 0) then F 1 else F 0) <$> c.

(** The sum of a window when all its entries are finite.  pandas' rolling
    functions take an infinite entry as a null one. *)
Definition finite_sum (l : list F64) : option Q :=
  foldr (λ x acc, match x, acc with
                  | Fin q, Some s => Some (q + s)
                  | _, _ => None
                  end) (Some 0) l.

(** The [w] entries ending at [i]. *)
Definition window (w i : nat) (c : column) : list F64 :=
  take w (drop (S i - w) c).

Definition Qnat (n : nat) : Q := inject_Z (Z.of_nat n).

(** [c.rolling(window=w).mean()]: [min_periods] is [w], so the value is
    null until [w] entries are there and whenever one of them is null. *)
Definition rolling_mean_at (w : nat) (c : column) (i : nat) : F64 :=
  if decide (0 < w ≤ S i)%nat then
    match finite_sum (window w i c) with
    | Some s => Fin (s / Qnat w)
    | None => NaN
    end
  else NaN.

Definition rolling_mean (w : nat) (c : column) : column :=
  imap (λ i _, rolling_mean_at w c i) c.

Definition zipF (f : F64 → F64 → F64) (a b : column) : column :=
  zip_with f a b.

(** The exponentially weighted mean [c.ewm(span=span).mean()], with pandas'
    defaults [adjust=True], [ignore_na=False], [min_periods=0]: the loop of
    pandas' [ewm] kernel, carrying the running mean, the weight of the
    past, and the number of observations.  (The kernel skips the update
    when the running mean equals the new entry, to save a rounding; the
    update gives the same value there.) *)
Definition ewm_step (old_wt_factor : Q) (st : F64 * Q * nat) (cur : F64)
  : F64 * Q * nat :=
  let '(weighted, old_wt, nobs) := st in
  let nobs := if isna cur then nobs else S nobs in
  if isna weighted then
    ((if isna cur then weighted else cur), old_wt, nobs)
  else
    let old_wt := old_wt * old_wt_factor in
    if isna cur then (weighted, old_wt, nobs)
    else
      (((Fin old_wt * weighted + cur) / Fin (old_wt + 1))%F, old_wt + 1, nobs).

Fixpoint ewm_loop (f : Q) (st : F64 * Q * nat) (c : column) : column :=
  match c with
  | [] => []
  | cur :: c' =>
      let st' := ewm_step f st cur in
      (if decide (1 ≤ st'.2)%nat then st'.1.1 else NaN) :: ewm_loop f st' c'
  end.

(** pandas takes an infinite entry as a null one before the kernel runs,
    as it does for the rolling functions. *)
Definition ewm_mean (span : nat) (c : column) : column :=
  let alpha := 2 / (Qnat span + 1) in
  match (λ x, if is_finite x then x else NaN) <$> c with
  | [] => []
  | x :: c' => x :: ewm_loop (1 - alpha) (x, 1, if isna x then O else 1%nat) c'
  end.

(** ** Frames and the store

    A [DataFrame] is an index and named columns.  Frames are objects: the
    program passes references around and assigns columns in place, so
    frames live in a store and functions receive their address. *)

Record DataFrame := {
  df_index : list Z;
  df_cols : gmap string column }.

Abbreviation loc := positive.
Abbreviation heap := (gmap loc DataFrame).

Inductive exn :=
| KeyError (k : string)
| TypeError
| AttributeError
| ValueError.

Inductive result (A : Type) :=
| Ok (a : A)
| Raise (e : exn).
Arguments Ok {A} a.
Arguments Raise {A} e.

(** Computations that read and write a state and may raise; the state
    reached when the exception is raised is kept, as in Python. *)
Definition M (St A : Type) : Type := St → result A * St.

#[global] Instance M_ret {St} : MRet (M St) := λ A a s, (Ok a, s).

#[global] Instance M_bind {St} : MBind (M St) := λ A B f m s,
  match m s with
  | (Ok a, s') => f a s'
  | (Raise e, s') => (Raise e, s')
  end.

Definition raise {St A} (e : exn) : M St A := λ s, (Raise e, s).

(** [try: m  except Exception: h]. *)
Definition try_except {St A} (m : M St A) (h : exn → M St A) : M St A :=
  λ s, match m s with
       | (Ok a, s') => (Ok a, s')
       | (Raise e, s') => h e s'
       end.

(** [data[k]]. *)
Definition get_col (data : loc) (k : string) : M heap column := λ h,
  match h !! data with
  | None => (Raise TypeError, h)
  | Some df =>
      match df_cols df !! k with
      | Some c => (Ok c, h)
      | None => (Raise (KeyError k), h)
      end
  end.

(** A frame with column [k] set to [c]. *)
Definition set_column (k : string) (c : column) (df : DataFrame) : DataFrame :=
  {| df_index := df_index df; df_cols := <[k := c]> (df_cols df) |}.

(** [data[k] = c]: the frame at [data] is updated in place. *)
Definition set_col (data : loc) (k : string) (c : column) : M heap () := λ h,
  match h !! data with
  | None => (Raise TypeError, h)
  | Some df => (Ok (), <[data := set_column k c df]> h)
  end.

(** [data.index]; [len(data)] is its length. *)
Definition get_index (data : loc) : M heap (list Z) := λ h,
  match h !! data with
  | None => (Raise TypeError, h)
  | Some df => (Ok (df_index df), h)
  end.

(** ** The indicator engine ([utils.py]) *)

Section Indicators.

(** The square root of floats, which the rationals do not have; the
    Bollinger bands are the only users. *)
Variable fsqrt : F64 → F64.

(** [c.rolling(window=w).std()]: the sample standard deviation. *)
Definition rolling_std (w : nat) (c : column) : column :=
  imap (λ i _,
    if decide (0 < w ≤ S i)%nat then
      match finite_sum (window w i c) with
      | Some s =>
          let m := Fin (s / Qnat w) in
          match finite_sum ((λ x, ((x - m) * (x - m))%F) <$> window w i c) with
          | Some v => fsqrt (Fin v / Fin (Qnat w - 1))%F
          | None => NaN
          end
      | None => NaN
      end
    else NaN) c.

(** The body of [calculate_rsi], from the column [data['Close']]: the
    trailing average gain, the trailing average loss, and their ratio. *)
Definition rsi_gain (period : nat) (close : column) : column :=
  let delta := diff close in
  rolling_mean period (where_ (λ d, fgt d (F 0)) delta).

Definition rsi_loss (period : nat) (close : column) : column :=
  let delta := diff close in
  rolling_mean period (fneg <$> where_ (λ d, flt d (F 0)) delta).

Definition rsi_of_rs (rs : F64) : F64 := (F 100 - F 100 / (F 1 + rs))%F.

Definition rsi_series (period : nat) (close : column) : column :=
  let gain := rsi_gain period close in
  let loss := rsi_loss period close in
  let rs := zipF fdiv gain loss in
  let rsi := rsi_of_rs <$> rs in
  rsi.

Definition calculate_rsi (data : loc) (period : nat) : M heap column :=
  close ← get_col data "Close";
  mret (rsi_series period close).

(** The body of [calculate_macd]. *)
Definition macd_series (fast slow signal : nat) (close : column)
  : column * column * column :=
  let exp1 := ewm_mean fast close in
  let exp2 := ewm_mean slow close in
  let macd := zipF fsub exp1 exp2 in
  let signal_line := ewm_mean signal macd in
  let histogram := zipF fsub macd signal_line in
  (macd, signal_line, histogram).

Definition calculate_macd (data : loc) (fast slow signal : nat)
  : M heap (column * column * column) :=
  close ← get_col data "Close";
  mret (macd_series fast slow signal close).

(** The body of [calculate_moving_averages]. *)
Definition moving_averages_series (short long : nat) (close : column)
  : column * column :=
  let ma_short := rolling_mean short close in
  let ma_long := rolling_mean long close in
  (ma_short, ma_long).

Definition calculate_moving_averages (data : loc) (short long : nat)
  : M heap (column * column) :=
  close ← get_col data "Close";
  mret (moving_averages_series short long close).

(** The body of [calculate_bollinger_bands]. *)
Definition bollinger_series (period : nat) (std_dev : F64) (close : column)
  : column * column * column :=
  let ma := rolling_mean period close in
  let std := rolling_std period close in
  let upper_band := zipF fadd ma ((λ s, (s * std_dev)%F) <$> std) in
  let lower_band := zipF fsub ma ((λ s, (s * std_dev)%F) <$> std) in
  (upper_band, ma, lower_band).

Definition calculate_bollinger_bands (data : loc) (period : nat) (std_dev : F64)
  : M heap (column * column * column) :=
  close ← get_col data "Close";
  mret (bollinger_series period std_dev close).

(** Every column is assigned into the frame it was given, and that same
    frame is returned. *)
Definition add_technical_indicators (data : loc) : M heap loc :=
  rsi ← calculate_rsi data 14;
  set_col data "RSI" rsi;;
  '(macd, signal_line, histogram) ← calculate_macd data 12 26 9;
  set_col data "MACD" macd;;
  set_col data "MACD_Signal" signal_line;;
  set_col data "MACD_Histogram" histogram;;
  '(ma_short, ma_long) ← calculate_moving_averages data 20 50;
  set_col data "MA20" ma_short;;
  set_col data "MA50" ma_long;;
  '(upper_band, ma, lower_band) ← calculate_bollinger_bands data 20 (F 2);
  set_col data "BB_Upper" upper_band;;
  set_col data "BB_Middle" ma;;
  set_col data "BB_Lower" lower_band;;
  mret data.

End Indicators.

(** The names of the columns the engine assigns. *)
Definition indicator_columns : list string :=
  ["RSI"; "MACD"; "MACD_Signal"; "MACD_Histogram"; "MA20"; "MA50";
   "BB_Upper"; "BB_Middle"; "BB_Lower"].

(** ** Methods: computations over an object ([self]) and the store *)

Definition lift_heap {Self A} (m : M heap A) : M (Self * heap) A := λ s,
  let '(r, h') := m s.2 in (r, (s.1, h')).

Definition get_self {Self} : M (Self * heap) Self := λ s, (Ok s.1, s).

Definition set_self {Self} (f : Self → Self) : M (Self * heap) () := λ s,
  (Ok (), (f s.1, s.2)).

(** ** The strategy ([strategy.py]) *)

Record TradingStrategy := {
  rsi_oversold : F64;
  ma_short : nat;
  ma_long : nat;
  self_trades : list Trade;
  self_portfolio_value : F64;
  self_position : option Position }.

(** [TradingStrategy()] with its default arguments. *)
Definition TradingStrategy_init : TradingStrategy :=
  {| rsi_oversold := F 30; ma_short := 20; ma_long := 50;
     self_trades := []; self_portfolio_value := F 100000;
     self_position := None |}.

Definition set_portfolio_value (v : F64) (self : TradingStrategy)
  : TradingStrategy :=
  {| rsi_oversold := rsi_oversold self; ma_short := ma_short self;
     ma_long := ma_long self; self_trades := self_trades self;
     self_portfolio_value := v; self_position := self_position self |}.

(** The body of the loop of [generate_signals] at bar [i]: the signal
    appended there, if any. *)
Definition signal_at (oversold : F64) (index : list Z)
  (close rsi ma20 ma50 : column) (i : nat) : option Signal :=
  let mk k := {| sig_date := default 0%Z (index !! i);
                 sig_signal := k;
                 sig_price := iloc close i;
                 sig_rsi := iloc rsi i;
                 sig_ma20 := iloc ma20 i;
                 sig_ma50 := iloc ma50 i |} in
  if flt (iloc rsi i) oversold
     && fgt (iloc ma20 i) (iloc ma50 i)
     && fle (iloc ma20 (i - 1)) (iloc ma50 (i - 1))
     && negb (isna (iloc rsi i))
     && negb (isna (iloc ma20 i))
     && negb (isna (iloc ma50 i))
  then Some (mk BUY)
  else if fgt (iloc rsi i) (F 70) && negb (isna (iloc rsi i))
  then Some (mk SELL)
  else None.

Section Strategy.

Variable fsqrt : F64 → F64.

(** [generate_signals]: the indicators are assigned into [data]; the loop
    over [range(1, len(data))] then only reads, so the columns it reads at
    each bar are fetched once. *)
Definition generate_signals (data : loc)
  : M (TradingStrategy * heap) (list Signal) :=
  data ← lift_heap (add_technical_indicators fsqrt data);
  self ← get_self;
  index ← lift_heap (get_index data);
  close ← lift_heap (get_col data "Close");
  rsi ← lift_heap (get_col data "RSI");
  ma20 ← lift_heap (get_col data "MA20");
  ma50 ← lift_heap (get_col data "MA50");
  mret (omap (signal_at (rsi_oversold self) index close rsi ma20 ma50)
             (seq 1 (length index - 1))).

(** [backtest]: the loop runs on the generated signals from an empty
    position slot, reading and updating [self.portfolio_value]. *)
Definition backtest (data : loc) (ticker : string)
  : M (TradingStrategy * heap) (list Trade * list Signal) :=
  signals ← generate_signals data;
  self ← get_self;
  let st := backtest_loop ticker signals (bt_init (self_portfolio_value self)) in
  set_self (set_portfolio_value (portfolio_value st));;
  mret (trades st, signals).

End Strategy.

(** *** Metrics *)

(** Values of the metrics dictionary: Python integers and floats. *)
Inductive pyval :=
| PInt (z : Z)
| PFloat (x : F64).

(** [np.cumsum]. *)
Fixpoint cumsum_from (acc : F64) (l : list F64) : list F64 :=
  match l with
  | [] => []
  | x :: l' => (acc + x)%F :: cumsum_from (acc + x)%F l'
  end.

Definition cumsum (l : list F64) : list F64 :=
  match l with
  | [] => []
  | x :: l' => x :: cumsum_from x l'
  end.

(** [np.maximum] and [np.minimum]: a null operand gives null. *)
Definition np_maximum (x y : F64) : F64 :=
  if isna x || isna y then NaN else if flt x y then y else x.

Definition np_minimum (x y : F64) : F64 :=
  if isna x || isna y then NaN else if flt y x then y else x.

(** [np.maximum.accumulate]. *)
Fixpoint maximum_accumulate_from (acc : F64) (l : list F64) : list F64 :=
  match l with
  | [] => []
  | x :: l' => np_maximum acc x :: maximum_accumulate_from (np_maximum acc x) l'
  end.

Definition maximum_accumulate (l : list F64) : list F64 :=
  match l with
  | [] => []
  | x :: l' => x :: maximum_accumulate_from x l'
  end.

(** [np.min] of a non-empty array. *)
Definition np_min (x : F64) (l : list F64) : F64 := fold_left np_minimum l x.

(** One entry of [(cumulative_returns - peak) / peak * 100]. *)
Definition drawdown_at (cumulative peak : F64) : F64 :=
  ((cumulative - peak) / peak * F 100)%F.

Definition Fnat (n : nat) : F64 := F (Z.of_nat n).

Definition calculate_metrics (trades : list Trade) : gmap string pyval :=
  match trades with
  | [] =>
      <["total_trades" := PInt 0]> (
      <["win_rate" := PInt 0]> (
      <["total_pnl" := PInt 0]> (
      <["avg_return" := PInt 0]> (
      <["max_drawdown" := PInt 0]> ∅))))
  | _ :: _ =>
      let total_trades := length trades in
      let winning_trades :=
        length (filter (λ t, fgt (tr_pnl t) (F 0) = true) trades) in
      let win_rate :=
        if decide (0 < total_trades)%nat
        then PFloat (Fnat winning_trades / Fnat total_trades * F 100)%F
        else PInt 0 in
      let total_pnl := fold_left fadd (tr_pnl <$> trades) (F 0) in
      let avg_return :=
        (fold_left fadd (tr_return_pct <$> trades) (F 0) / Fnat total_trades)%F in
      let cumulative_returns := cumsum (tr_pnl <$> trades) in
      let peak := maximum_accumulate cumulative_returns in
      let drawdown := zip_with drawdown_at cumulative_returns peak in
      let max_drawdown :=
        match drawdown with
        | d :: ds => PFloat (np_min d ds)
        | [] => PInt 0
        end in
      <["total_trades" := PInt (Z.of_nat total_trades)]> (
      <["win_rate" := win_rate]> (
      <["total_pnl" := PFloat total_pnl]> (
      <["avg_return" := PFloat avg_return]> (
      <["max_drawdown" := max_drawdown]> (
      <["winning_trades" := PInt (Z.of_nat winning_trades)]> (
      <["losing_trades" :=
          PInt (Z.of_nat total_trades - Z.of_nat winning_trades)]> ∅))))))
  end.

(** ** The classifier wrapper ([ml_model.py])

    scikit-learn is outside the repository.  Its entry points are taken as
    an interface: each call returns a value or raises. *)

Inductive model_kind := DecisionTree | LogisticRegression | RandomForest.

(** Rows of a table, each with its position in the frame it came from. *)
Abbreviation table := (list (nat * list F64)).

Class Sklearn := {
  fitted_model : Type;
  fitted_scaler : Type;
  (** [train_test_split(X, y, test_size=0.3, random_state=42, stratify=y)] *)
  train_test_split :
    table → list F64 → result (table * table * list F64 * list F64);
  (** [StandardScaler.fit] and [transform] *)
  scaler_fit : table → result fitted_scaler;
  scaler_transform : fitted_scaler → table → result table;
  (** [fit] and [predict] of a classifier of the given kind *)
  clf_fit : model_kind → table → list F64 → result fitted_model;
  clf_predict : fitted_model → table → result (list F64);
  accuracy_score : list F64 → list F64 → result F64;
  classification_report : list F64 → list F64 → result () }.

Section Predictor.

Context `{Sklearn}.
Variable fsqrt : F64 → F64.

(** A classifier object: as constructed, or after a successful [fit]. *)
Inductive estimator :=
| Unfitted (k : model_kind)
| Fitted (k : model_kind) (m : fitted_model).

Definition kind_of (e : estimator) : model_kind :=
  match e with Unfitted k | Fitted k _ => k end.

Record MLPredictor := {
  model_type : string;
  model : option estimator;
  scaler : option fitted_scaler;
  feature_columns : list string;
  accuracy : F64 }.

(** [MLPredictor(model_type)]. *)
Definition MLPredictor_init (model_type : string) : MLPredictor :=
  {| model_type := model_type;
     model := None;
     scaler := None;
     feature_columns :=
       ["RSI"; "MACD"; "Volume"; "MA20"; "MA50"; "BB_Upper"; "BB_Lower"];
     accuracy := F 0 |}.

Definition set_feature_columns (v : list string) (self : MLPredictor) :=
  {| model_type := model_type self; model := model self;
     scaler := scaler self; feature_columns := v;
     accuracy := accuracy self |}.

Definition set_model (v : option estimator) (self : MLPredictor) :=
  {| model_type := model_type self; model := v;
     scaler := scaler self; feature_columns := feature_columns self;
     accuracy := accuracy self |}.

Definition set_scaler (v : option fitted_scaler) (self : MLPredictor) :=
  {| model_type := model_type self; model := model self;
     scaler := v; feature_columns := feature_columns self;
     accuracy := accuracy self |}.

Definition set_accuracy (v : F64) (self : MLPredictor) :=
  {| model_type := model_type self; model := model self;
     scaler := scaler self; feature_columns := feature_columns self;
     accuracy := v |}.

(** The outcome of a library call inside a method. *)
Definition ext {St A} (r : result A) : M St A := λ s, (r, s).

Definition prepare_features (data : loc) : M (MLPredictor * heap) loc :=
  data ← lift_heap (add_technical_indicators fsqrt data);
  close ← lift_heap (get_col data "Close");
  lift_heap (set_col data "Next_Day_Return" (shift_back (pct_change close)));;
  next_day_return ← lift_heap (get_col data "Next_Day_Return");
  lift_heap (set_col data "Target" (gt0_astype_int next_day_return));;
  close ← lift_heap (get_col data "Close");
  lift_heap (set_col data "Price_Change" (pct_change close));;
  volume ← lift_heap (get_col data "Volume");
  lift_heap (set_col data "Volume_MA" (rolling_mean 20 volume));;
  volume ← lift_heap (get_col data "Volume");
  volume_ma ← lift_heap (get_col data "Volume_MA");
  let volume_ratio := zipF fdiv volume volume_ma in
  lift_heap (set_col data "Volume_Ratio" (fillna (F 1) volume_ratio));;
  set_self (set_feature_columns
    ["RSI"; "MACD"; "Volume_Ratio"; "MA20"; "MA50";
     "Price_Change"; "MACD_Histogram"]);;
  mret data.

(** [data[ks]]: the named columns, in order. *)
Fixpoint select (data : loc) (ks : list string) : M heap (list column) :=
  match ks with
  | [] => mret []
  | k :: ks' =>
      c ← get_col data k;
      cs ← select data ks';
      mret (c :: cs)
  end.

(** Row [i] of a selection of columns. *)
Definition row (cols : list column) (i : nat) : list F64 :=
  (λ c, iloc c i) <$> cols.

(** [.dropna()]: the rows without a null entry, in order. *)
Definition dropna (n : nat) (cols : list column) : table :=
  omap (λ i, let r := row cols i in
             if forallb (λ x, negb (isna x)) r then Some (i, r) else None)
       (seq 0 n).

(** [clean_data[self.feature_columns]] and [clean_data['Target']], for a
    selection whose last column is the target. *)
Definition features_of (k : nat) (t : table) : table :=
  (λ r, (r.1, take k r.2)) <$> t.

Definition target_of (t : table) : list F64 :=
  (λ r, default NaN (last r.2)) <$> t.

(** [self.model.fit(X, y)]: fits the object held by [self.model] in place. *)
Definition model_fit (X : table) (y : list F64) : M (MLPredictor * heap) () :=
  self ← get_self;
  match model self with
  | None => raise AttributeError
  | Some e =>
      m ← ext (clf_fit (kind_of e) X y);
      set_self (set_model (Some (Fitted (kind_of e) m)))
  end.

(** [self.model.predict(X)]. *)
Definition model_predict (X : table) : M (MLPredictor * heap) (list F64) :=
  self ← get_self;
  match model self with
  | None => raise AttributeError
  | Some (Unfitted _) => raise ValueError
  | Some (Fitted _ m) => ext (clf_predict m X)
  end.

(** The first two statements of [train_model] (and of [evaluate_model]):
    [data = self.prepare_features(data)] and
    [clean_data = data[self.feature_columns + ['Target']].dropna()]. *)
Definition clean_training_data (data : loc) : M (MLPredictor * heap) table :=
  data ← prepare_features data;
  self ← get_self;
  cols ← lift_heap (select data (feature_columns self ++ ["Target"]));
  index ← lift_heap (get_index data);
  mret (dropna (length index) cols).

(** The statements of [train_model] after the size check: split, scale,
    construct the classifier, fit, score.  [self] is the object as read at
    entry; the assignments go to the object in the state. *)
Definition fit_and_score (self : MLPredictor) (clean_data : table)
  : M (MLPredictor * heap) bool :=
  let X := features_of (length (feature_columns self)) clean_data in
  let y := target_of clean_data in
  '(X_train, X_test, y_train, y_test) ← ext (train_test_split X y);
  sc ← ext (scaler_fit X_train);
  set_self (set_scaler (Some sc));;
  X_train_scaled ← ext (scaler_transform sc X_train);
  X_test_scaled ← ext (scaler_transform sc X_test);
  (if String.eqb (model_type self) "DecisionTree"
   then set_self (set_model (Some (Unfitted DecisionTree)))
   else if String.eqb (model_type self) "LogisticRegression"
   then set_self (set_model (Some (Unfitted LogisticRegression)))
   else if String.eqb (model_type self) "RandomForest"
   then set_self (set_model (Some (Unfitted RandomForest)))
   else mret ());;
  y_pred ←
    (if String.eqb (model_type self) "LogisticRegression"
     then model_fit X_train_scaled y_train;; model_predict X_test_scaled
     else model_fit X_train y_train;; model_predict X_test);
  acc ← ext (accuracy_score y_test y_pred);
  set_self (set_accuracy acc);;
  ext (classification_report y_test y_pred);;
  mret true.

Definition train_model (data : loc) : M (MLPredictor * heap) bool :=
  try_except
    (clean_data ← clean_training_data data;
     self ← get_self;
     if decide (length clean_data < 50)%nat then mret false
     else fit_and_score self clean_data)
    (λ _, mret false).

(** Whether a run of [train_model] gets as far as constructing the
    classifier: the data is prepared, at least 50 rows are clean, and the
    split and the scaler succeed. *)
Definition reaches_classifier (data : loc) (s : MLPredictor * heap) : bool :=
  match clean_training_data data s with
  | (Ok clean_data, s1) =>
      if decide (length clean_data < 50)%nat then false
      else
        let X := features_of (length (feature_columns s1.1)) clean_data in
        let y := target_of clean_data in
        match train_test_split X y with
        | Ok (X_train, X_test, y_train, y_test) =>
            match scaler_fit X_train with
            | Ok sc =>
                match scaler_transform sc X_train, scaler_transform sc X_test
                with
                | Ok _, Ok _ => true
                | _, _ => false
                end
            | Raise _ => false
            end
        | Raise _ => false
        end
  | (Raise _, _) => false
  end.

(** Fewer than 50 clean rows: the InsufficientData condition. *)
Definition insufficient_data (data : loc) (s : MLPredictor * heap) : bool :=
  match clean_training_data data s with
  | (Ok clean_data, _) => bool_decide (length clean_data < 50)%nat
  | (Raise _, _) => false
  end.

(** The parts of the predictor a training run is meant to replace. *)
Definition keeps (self self' : MLPredictor) : Prop :=
  model self' = model self
  ∧ accuracy self' = accuracy self
  ∧ scaler self' = scaler self.

Definition self_stable {A} (m : M (MLPredictor * heap) A) : Prop :=
  ∀ s r s', m s = (r, s') → keeps s.1 s'.1.

End Predictor.

(** ** Concrete collaborators for running the program on examples *)

(** A computable square root: the integer square root at six decimals. *)
Definition fsqrt_dec (x : F64) : F64 :=
  match x with
  | Fin q =>
      if Qle_bool 0 q
      then Fin (Z.sqrt (Qnum q * 10 ^ 12 / Zpos (Qden q)) # 10 ^ 6)
      else NaN
  | PInf => PInf
  | _ => NaN
  end.

Definition single_class (y : list F64) : bool :=
  match y with
  | [] => true
  | c :: y' => forallb (feqb c) y'
  end.

(** A small scikit-learn: the split keeps the first 70% of the rows for
    training, scaling is the identity, a fitted classifier remembers its
    training labels and predicts the first of them.  As in scikit-learn,
    fitting a logistic regression on labels of a single class raises. *)
#[global] Instance sklearn_small : Sklearn := {|
  fitted_model := model_kind * list F64;
  fitted_scaler := ();
  train_test_split X y :=
    let k := (length X * 7 / 10)%nat in
    Ok (take k X, drop k X, take k y, drop k y);
  scaler_fit X := Ok ();
  scaler_transform _ X := Ok X;
  clf_fit k X y :=
    match k with
    | LogisticRegression =>
        if single_class y then Raise ValueError else Ok (k, y)
    | _ => Ok (k, y)
    end;
  clf_predict m X := Ok ((λ _, default (F 0) (head m.2)) <$> X);
  accuracy_score y_true y_pred :=
    Ok (Fnat (length (filter (λ p, feqb p.1 p.2 = true) (zip y_true y_pred)))
        / Fnat (length y_true))%F;
  classification_report _ _ := Ok () |}.

(** A frame holding only the raw columns [Close] and [Volume]. *)
Definition raw_frame (close volume : column) : DataFrame :=
  {| df_index := Z.of_nat <$> seq 0 (length close);
     df_cols := <["Close" := close]> (<["Volume" := volume]> ∅) |}.

(** ** Sample inputs, and statements the properties refer to *)

Definition mk_signal (d : Z) (k : side) (price : F64) : Signal :=
  {| sig_date := d; sig_signal := k; sig_price := price;
     sig_rsi := NaN; sig_ma20 := NaN; sig_ma50 := NaN |}.

(** The guard on the share count as the specification words it: when the
    capital is zero or the price is zero or negative, an accepted BUY opens
    nothing. *)
Definition degenerate (capital price : F64) : Prop :=
  capital ≈ F 0 ∨ fle price (F 0) = true.

Definition quantity_guarded (ticker : string) : Prop :=
  ∀ st s, current_position st = None → sig_signal s = BUY →
    degenerate (portfolio_value st) (sig_price s) →
    current_position (backtest_step ticker st s) = None.

Definition mk_trade (pnl return_pct : F64) : Trade :=
  {| tr_ticker := "TCS.NS"; tr_entry_date := 1; tr_exit_date := 2;
     tr_entry_price := F 100; tr_exit_price := F 100; tr_quantity := F 1000;
     tr_pnl := pnl; tr_return_pct := return_pct |}.

(** Every price delta in the [period] bars ending at [i] is zero; the
    undefined delta of the first bar counts as such, since [calculate_rsi]
    turns it into 0. *)
Definition flat_window (period : nat) (close : column) (i : nat) : bool :=
  forallb (λ d, isna d || feqb d (F 0)) (window period i (diff close)).

Definition constant_prices (n : nat) : column := replicate n (F 100).

Definition rising_prices (n : nat) : column :=
  (λ i, F (100 + Z.of_nat i)) <$> seq 0 n.

Definition flat_volume (n : nat) : column := replicate n (F 1000).

(** A store holding one frame of raw prices at address 1. *)
Definition store_of (close volume : column) : heap :=
  {[ 1%positive := raw_frame close volume ]}.

(** ** The frames the engine and the pipeline leave behind *)

(** The caller's frame after [add_technical_indicators]. *)
Definition with_indicators (fsqrt : F64 → F64) (close : column)
  (df : DataFrame) : DataFrame :=
  let '(macd, signal_line, histogram) := macd_series 12 26 9 close in
  let '(ma_short, ma_long) := moving_averages_series 20 50 close in
  let '(upper_band, ma, lower_band) := bollinger_series fsqrt 20 (F 2) close in
  set_column "BB_Lower" lower_band (
  set_column "BB_Middle" ma (
  set_column "BB_Upper" upper_band (
  set_column "MA50" ma_long (
  set_column "MA20" ma_short (
  set_column "MACD_Histogram" histogram (
  set_column "MACD_Signal" signal_line (
  set_column "MACD" macd (
  set_column "RSI" (rsi_series 14 close) df)))))))).

Definition pipeline_columns : list string :=
  ["Next_Day_Return"; "Target"; "Price_Change"; "Volume_MA"; "Volume_Ratio"].

Definition volume_ratio_series (volume : column) : column :=
  fillna (F 1) (zipF fdiv volume (rolling_mean 20 volume)).

Definition target_series (close : column) : column :=
  gt0_astype_int (shift_back (pct_change close)).

(** The caller's frame after [prepare_features]. *)
Definition prepared (fsqrt : F64 → F64) (close volume : column)
  (df : DataFrame) : DataFrame :=
  set_column "Volume_Ratio" (volume_ratio_series volume) (
  set_column "Volume_MA" (rolling_mean 20 volume) (
  set_column "Price_Change" (pct_change close) (
  set_column "Target" (target_series close) (
  set_column "Next_Day_Return" (shift_back (pct_change close)) (
  with_indicators fsqrt close df))))).

Definition trained_features : list string :=
  ["RSI"; "MACD"; "Volume_Ratio"; "MA20"; "MA50"; "Price_Change";
   "MACD_Histogram"].

(** The columns [train_model] selects: the seven features, then [Target]. *)
Definition training_columns (close volume : column) : list column :=
  let '(macd, signal_line, histogram) := macd_series 12 26 9 close in
  let '(ma_short, ma_long) := moving_averages_series 20 50 close in
  [rsi_series 14 close; macd; volume_ratio_series volume; ma_short; ma_long;
   pct_change close; histogram; target_series close].

(** Falling and zigzag prices. *)
Definition falling_prices (n : nat) : column :=
  (λ i, F (1000 - Z.of_nat i)) <$> seq 0 n.

Definition zigzag_prices (n : nat) : column :=
  (λ i, F (100 + Z.of_nat i + 3 * Z.of_nat (i mod 2))) <$> seq 0 n.

(** A predictor holding a model fitted earlier, with its accuracy. *)
Definition trained_predictor : MLPredictor :=
  {| model_type := "LogisticRegression";
     model := Some (Fitted LogisticRegression (LogisticRegression, [F 0; F 1]));
     scaler := Some ();
     feature_columns := trained_features;
     accuracy := Fin (4 # 5) |}.

(** A delta is undefined (first bar) or a number. *)
Definition delta_like (d : F64) : Prop := d = NaN ∨ is_finite d = true.

(** ** Proof steps used repeatedly *)

(** Case analysis on the comparisons of rationals inside float tests. *)
Ltac qcases :=
  repeat match goal with
  | H : context [Qcompare _ _] |- _ => revert H
  end;
  repeat match goal with
  | |- context [Qcompare ?a ?b] => destruct (Qcompare_spec a b)
  end;
  intros.

(** Unfolds one monadic step on the store. *)
Ltac store_step :=
  first
    [ rewrite lookup_insert_eq
    | rewrite insert_insert_eq
    | rewrite lookup_insert_ne by done
    | progress cbn [df_cols df_index set_column fst snd]
    | progress cbn beta iota zeta ].

(** * The rest of the three modules *)

(** ** More of [utils.py] *)

Definition calculate_returns (data : loc) : M heap column :=
  close ← get_col data "Close";
  mret (pct_change close).

Section Volatility.

Variable fsqrt : F64 → F64.

(** [returns.rolling(window=period).std() * np.sqrt(252)]. *)
Definition volatility_series (period : nat) (returns : column) : column :=
  (λ s, (s * fsqrt (F 252))%F) <$> rolling_std fsqrt period returns.

Definition calculate_volatility (data : loc) (period : nat) : M heap column :=
  returns ← calculate_returns data;
  mret (volatility_series period returns).

End Volatility.

(** ** More of [ml_model.py] *)

(** What [predict] and [get_feature_importance] ask of a fitted classifier
    beyond [Sklearn]: [predict_proba], one row of class probabilities per
    input row, and the [feature_importances_] of a fitted tree or forest. *)
Class SklearnProba `{Sklearn} := {
  clf_predict_proba : fitted_model → table → result (list (list F64));
  tree_importances : fitted_model → list F64 }.

(** The dictionary returned by [predict]. *)
Record Prediction := {
  prediction : F64;
  probability_down : F64;
  probability_up : F64;
  confidence : F64 }.

(** Python's [max] over a sequence of floats: the first entry that no
    later entry is greater than. *)
Definition py_max (x : F64) (l : list F64) : F64 :=
  fold_left (λ acc y, if fgt y acc then y else acc) l x.

(** [a[0]] and [a[1]]: IndexError when out of bounds. *)
Definition index_or_raise {St A} (l : list A) (i : nat) : M St A :=
  match l !! i with
  | Some x => mret x
  | None => raise ValueError
  end.

(** [.dropna()] on the rows listed. *)
Definition dropna_rows (rows : list nat) (cols : list column) : table :=
  omap (λ i, let r := row cols i in
             if forallb (λ x, negb (isna x)) r then Some (i, r) else None)
       rows.

(** The positions selected by [.iloc[-1:]] in a frame of [n] rows. *)
Definition last_row (n : nat) : list nat :=
  match n with O => [] | S m => [m] end.

(** The dictionary returned by [evaluate_model]. *)
Record Evaluation := {
  eval_accuracy : F64;
  total_predictions : nat;
  correct_predictions : nat }.

(** The order [sort_values('importance', ascending=False)] puts rows in:
    row [a] may stand before row [b] when the importance of [b] is null
    (nulls go last) or when neither is null and [a]'s is not the smaller.
    (pandas does not fix the order of rows of equal importance; the sort
    here keeps them as they were.) *)
Definition importance_ge (a b : string * F64) : Prop :=
  isna b.2 = true ∨ (isna a.2 = false ∧ flt a.2 b.2 = false).

#[global] Instance importance_ge_dec : RelDecision importance_ge.
Proof. intros a b. unfold importance_ge. apply _. Defined.

Section PredictorMore.

Context `{SklearnProba}.
Variable fsqrt : F64 → F64.

(** [self.scaler.transform(X)]: the scaler must have been fitted. *)
Definition scaler_apply (X : table) : M (MLPredictor * heap) table :=
  self ← get_self;
  match scaler self with
  | None => raise ValueError
  | Some sc => ext (scaler_transform sc X)
  end.

(** [self.model.predict_proba(X)]. *)
Definition model_predict_proba (X : table)
  : M (MLPredictor * heap) (list (list F64)) :=
  self ← get_self;
  match model self with
  | None => raise AttributeError
  | Some (Unfitted _) => raise ValueError
  | Some (Fitted _ m) => ext (clf_predict_proba m X)
  end.

(** The statements of [predict] once the latest row is known to be
    clean: scale it for a logistic regression, ask the model for its class
    and for the probabilities, build the answer. *)
Definition predict_latest (self : MLPredictor) (latest_data : table)
  : M (MLPredictor * heap) (option Prediction) :=
  latest ←
    (if String.eqb (model_type self) "LogisticRegression"
     then scaler_apply latest_data
     else mret latest_data);
  predictions ← model_predict latest;
  prediction ← index_or_raise predictions 0;
  probabilities ← model_predict_proba latest;
  probability ← index_or_raise probabilities 0;
  probability_0 ← index_or_raise probability 0;
  probability_1 ← index_or_raise probability 1;
  mret (Some {| prediction := prediction;
                probability_down := probability_0;
                probability_up := probability_1;
                confidence := py_max probability_0 (tail probability) |}).

Definition predict (data : loc) : M (MLPredictor * heap) (option Prediction) :=
  try_except
    (self ← get_self;
     match model self with
     | None => mret None
     | Some _ =>
         data ← prepare_features fsqrt data;
         self ← get_self;
         cols ← lift_heap (select data (feature_columns self));
         index ← lift_heap (get_index data);
         let latest_data := dropna_rows (last_row (length index)) cols in
         if decide (length latest_data = 0)%nat then mret None
         else predict_latest self latest_data
     end)
    (λ _, mret None).

(** [hasattr(self.model, 'feature_importances_')]: true of a fitted tree
    or forest only. *)
Definition importances_of (e : estimator) : option (list F64) :=
  match e with
  | Fitted DecisionTree m | Fitted RandomForest m => Some (tree_importances m)
  | _ => None
  end.

(** No [try] here: a length mismatch between the two columns of the frame
    being built raises out of the method. *)
Definition get_feature_importance
  : M (MLPredictor * heap) (option (list (string * F64))) :=
  self ← get_self;
  match model self ≫= importances_of with
  | None => mret None
  | Some importances =>
      if decide (length (feature_columns self) = length importances)
      then mret (Some (merge_sort importance_ge
                         (zip (feature_columns self) importances)))
      else raise ValueError
  end.

(** The statements of [evaluate_model] after the size check.
    [predictions == y] compares entry by entry and raises when the lengths
    differ. *)
Definition score_clean (self : MLPredictor) (clean_data : table)
  : M (MLPredictor * heap) (option Evaluation) :=
  let X := features_of (length (feature_columns self)) clean_data in
  let y := target_of clean_data in
  predictions ←
    (if String.eqb (model_type self) "LogisticRegression"
     then X_scaled ← scaler_apply X; model_predict X_scaled
     else model_predict X);
  accuracy ← ext (accuracy_score y predictions);
  if decide (length predictions = length y)
  then mret (Some {| eval_accuracy := accuracy;
                     total_predictions := length predictions;
                     correct_predictions :=
                       length (filter (λ p, feqb p.1 p.2 = true)
                                 (zip predictions y)) |})
  else raise ValueError.

Definition evaluate_model (data : loc)
  : M (MLPredictor * heap) (option Evaluation) :=
  try_except
    (clean_data ← clean_training_data fsqrt data;
     self ← get_self;
     if decide (length clean_data < 30)%nat then mret None
     else score_clean self clean_data)
    (λ _, mret None).

End PredictorMore.

(** The small scikit-learn, continued: probabilities are all on the
    predicted class; importances are uniform over seven features. *)
#[global] Instance sklearn_small_proba : SklearnProba := {|
  clf_predict_proba m X :=
    Ok ((λ _, if feqb (default (F 0) (head m.2)) (F 0)
              then [F 1; F 0] else [F 0; F 1]) <$> X);
  tree_importances m := replicate 7 (Fin (1 # 7)) |}.

(** A predictor holding a fitted forest. *)
Definition forest_predictor : MLPredictor :=
  {| model_type := "RandomForest";
     model := Some (Fitted RandomForest (RandomForest, [F 1; F 0]));
     scaler := Some ();
     feature_columns := trained_features;
     accuracy := F 1 |}.

(** ** Notions the further properties are stated with *)

(** A float that is a rational satisfying [P]. *)
Definition fin_with (P : Q → Prop) (x : F64) : Prop := ∃ q, x = Fin q ∧ P q.

(** *** Inputs on which double precision agrees with exact arithmetic *)

(** A value of moderate size: a number of magnitude at most [2^500].  Sums,
    differences and means of such doubles do not overflow. *)
Definition moderate (x : F64) : Prop :=
  fin_with (λ q, - inject_Z (2 ^ 500) <= q ∧ q <= inject_Z (2 ^ 500)) x.

(** A value on the binary grid: a whole multiple of [2^-10] of magnitude
    at most [2^30].  Differences of such doubles, and the sums of up to
    fifty of them or of their differences, are exact in double precision,
    and the mean of a sum that is not zero is not zero. *)
Definition on_grid (x : F64) : Prop :=
  fin_with (λ q, ∃ z : Z, q == inject_Z z / 1024 ∧ (Z.abs z ≤ 2 ^ 40)%Z) x.

(** The entry of [rolling_std] at bar [i]. *)
Definition rolling_std_at (fsqrt : F64 → F64) (w : nat) (c : column) (i : nat)
  : F64 :=
  if decide (0 < w ≤ S i)%nat then
    match finite_sum (window w i c) with
    | Some s =>
        let m := Fin (s / Qnat w) in
        match finite_sum ((λ x, ((x - m) * (x - m))%F) <$> window w i c) with
        | Some v => fsqrt (Fin v / Fin (Qnat w - 1))%F
        | None => NaN
        end
    | None => NaN
    end
  else NaN.

(** A square root worth the name on the non-negative rationals. *)
Definition sqrt_like (fsqrt : F64 → F64) : Prop :=
  ∀ q, 0 <= q → ∃ r, fsqrt (Fin q) = Fin r ∧ 0 <= r.

(** The rule a signal was emitted under. *)
Definition signal_rule (oversold : F64) (s : Signal) : Prop :=
  match sig_signal s with
  | BUY => flt (sig_rsi s) oversold = true
           ∧ fgt (sig_ma20 s) (sig_ma50 s) = true
           ∧ isna (sig_rsi s) = false ∧ isna (sig_ma20 s) = false
           ∧ isna (sig_ma50 s) = false
  | SELL => fgt (sig_rsi s) (F 70) = true
  end.

(** Entry and exit dates of a ledger, in order; the entry date of the
    position still open. *)
Definition trade_dates (ts : list Trade) : list Z :=
  ts ≫= λ t, [tr_entry_date t; tr_exit_date t].

Definition pending (st : bt_state) : list Z :=
  match current_position st with
  | Some p => [pos_entry_date p]
  | None => []
  end.

(** Finite prices, each above the one before. *)
Definition strictly_rising (close : column) : Prop :=
  Forall (λ x, is_finite x = true) close
  ∧ ∀ i p q, close !! i = Some p → close !! S i = Some q → flt p q = true.

(** Prices that fall into an oversold dip while the 20-bar average rises
    through the 50-bar one, and rally afterwards: an old spike, thirty
    quiet bars, a jump, fourteen bars of decline, fourteen bars of rise. *)
Definition dip_and_rally : column :=
  F <$> ([10000] ++ replicate 30 100 ++ replicate 6 300
         ++ ((λ k, 299 - Z.of_nat k) <$> seq 0 14)
         ++ ((λ k, 287 + Z.of_nat k) <$> seq 0 14))%Z.

(** * Properties *)

(** ** The backtester is the two-state position automaton *)

Section BacktesterFacts.

Variable ticker : string.

Lemma backtest_step_refines (st : bt_state) (s : Signal) :
  let st' := backtest_step ticker st s in
  let r := spec_step (slot_state (current_position st)) (sig_signal s) in
  slot_state (current_position st') = r.1
  ∧ length (trades st') = (length (trades st) + r.2)%nat.
Proof.
  unfold backtest_step, is_buy, is_sell.
  destruct (current_position st) as [pos|] eqn:Hp, (sig_signal s);
    cbn [slot_state spec_step current_position trades fst snd];
    rewrite ?Hp, ?length_app; cbn [slot_state length];
    split; (reflexivity || lia).
Qed.

Lemma backtest_loop_refines (signals : list Signal) : ∀ st : bt_state,
  let st' := backtest_loop ticker signals st in
  let r := spec_run (slot_state (current_position st)) (sig_signal <$> signals) in
  slot_state (current_position st') = r.1
  ∧ length (trades st') = (length (trades st) + r.2)%nat.
Proof.
  induction signals as [|s signals IH]; intros st; simpl.
  - split; [reflexivity | lia].
  - destruct (backtest_step_refines st s) as [Hs Ht].
    destruct (IH (backtest_step ticker st s)) as [Hs' Ht'].
    unfold backtest_loop in *; simpl in *.
    rewrite Hs in Hs', Ht'. rewrite Ht in Ht'.
    destruct (spec_step _ _) as [s1 n1]; simpl in *.
    destruct (spec_run s1 _) as [s2 n2]; simpl in *.
    split; [assumption | lia].
Qed.

Lemma backtest_loop_app (l1 l2 : list Signal) (st : bt_state) :
  backtest_loop ticker (l1 ++ l2) st
  = backtest_loop ticker l2 (backtest_loop ticker l1 st).
Proof. unfold backtest_loop. apply fold_left_app. Qed.

Lemma backtest_step_buy_keeps_trades (st : bt_state) (s : Signal) :
  sig_signal s = BUY → trades (backtest_step ticker st s) = trades st.
Proof.
  intros Hb. unfold backtest_step, is_buy, is_sell. rewrite Hb.
  destruct (current_position st); reflexivity.
Qed.

End BacktesterFacts.

(** C1.  The loop of [backtest] keeps a single position slot and moves it
    as the FLAT/LONG automaton does: a BUY opens only from FLAT, a SELL
    closes only from LONG and appends exactly one trade, a BUY in LONG and
    a SELL in FLAT change nothing; over any signal list the slot and the
    number of trades are those of the automaton; [BUY, BUY, SELL] and
    [SELL, BUY, SELL] give exactly one trade; a trailing BUY, which leaves
    a position open at the end, adds no trade. *)
Theorem backtest_single_position (ticker : string) :
  (∀ st s, current_position st = None → sig_signal s = BUY →
     (∃ p, current_position (backtest_step ticker st s) = Some p)
     ∧ trades (backtest_step ticker st s) = trades st)
  ∧ (∀ st s p, current_position st = Some p → sig_signal s = SELL →
     current_position (backtest_step ticker st s) = None
     ∧ ∃ t, trades (backtest_step ticker st s) = trades st ++ [t]
            ∧ tr_entry_date t = pos_entry_date p
            ∧ tr_entry_price t = pos_entry_price p
            ∧ tr_exit_date t = sig_date s
            ∧ tr_exit_price t = sig_price s
            ∧ tr_quantity t = pos_quantity p)
  ∧ (∀ st s p, current_position st = Some p → sig_signal s = BUY →
     backtest_step ticker st s = st)
  ∧ (∀ st s, current_position st = None → sig_signal s = SELL →
     backtest_step ticker st s = st)
  ∧ (∀ signals st,
     let st' := backtest_loop ticker signals st in
     let r := spec_run (slot_state (current_position st))
                       (sig_signal <$> signals) in
     slot_state (current_position st') = r.1
     ∧ length (trades st') = (length (trades st) + r.2)%nat)
  ∧ (∀ b1 b2 s c,
     sig_signal b1 = BUY → sig_signal b2 = BUY → sig_signal s = SELL →
     length (trades (backtest_loop ticker [b1; b2; s] (bt_init c))) = 1%nat)
  ∧ (∀ s1 b s2 c,
     sig_signal s1 = SELL → sig_signal b = BUY → sig_signal s2 = SELL →
     length (trades (backtest_loop ticker [s1; b; s2] (bt_init c))) = 1%nat)
  ∧ (∀ signals b st, sig_signal b = BUY →
     trades (backtest_loop ticker (signals ++ [b]) st)
     = trades (backtest_loop ticker signals st)).
Proof.
  split; [|split; [|split; [|split; [|split; [|split; [|split]]]]]].
  - intros st s Hp Hk. unfold backtest_step, is_buy, is_sell.
    rewrite Hp, Hk. split; [eauto | reflexivity].
  - intros st s p Hp Hk. unfold backtest_step, is_buy, is_sell.
    rewrite Hp, Hk. split; [reflexivity | eexists; repeat split].
  - intros st s p Hp Hk. unfold backtest_step, is_buy, is_sell.
    rewrite Hp, Hk. reflexivity.
  - intros st s Hp Hk. unfold backtest_step, is_buy, is_sell.
    rewrite Hp, Hk. reflexivity.
  - intros signals st. apply backtest_loop_refines.
  - intros b1 b2 s c H1 H2 H3.
    pose proof (backtest_loop_refines ticker [b1; b2; s] (bt_init c)) as [_ Hn].
    simpl in Hn. rewrite H1, H2, H3 in Hn. exact Hn.
  - intros s1 b s2 c H1 H2 H3.
    pose proof (backtest_loop_refines ticker [s1; b; s2] (bt_init c)) as [_ Hn].
    simpl in Hn. rewrite H1, H2, H3 in Hn. exact Hn.
  - intros signals b st Hb.
    rewrite backtest_loop_app. unfold backtest_loop at 1. simpl.
    apply backtest_step_buy_keeps_trades. assumption.
Qed.

Lemma backtest_single_position_witness :
  length (trades (backtest_loop "TCS.NS"
    [mk_signal 1 BUY (F 100); mk_signal 2 BUY (F 105); mk_signal 3 SELL (F 110)]
    (bt_init (F 100000)))) = 1%nat.
Proof.
  destruct (backtest_single_position "TCS.NS") as (_ & _ & _ & _ & _ & H & _).
  apply H; reflexivity.
Defined.

(** ** The share count of an accepted BUY *)

Lemma Qeq_bool_false (p : Q) : ¬ p == 0 → Qeq_bool p 0 = false.
Proof.
  intros Hp. destruct (Qeq_bool p 0) eqn:E; [|reflexivity].
  apply Qeq_bool_eq in E. contradiction.
Qed.

Lemma Qfloor_nonneg (q : Q) : 0 <= q → (0 <= Qfloor q)%Z.
Proof.
  intros Hq. change 0%Z with (Qfloor 0). apply Qfloor_resp_le. exact Hq.
Qed.

Lemma Qdiv_nonneg (c p : Q) : 0 <= c → 0 < p → 0 <= c / p.
Proof.
  intros Hc Hp. apply Qle_shift_div_l; [exact Hp|]. lra.
Qed.

Lemma f64_overflow_large : inject_Z (2 ^ 50) + 1 < f64_overflow.
Proof.
  unfold f64_overflow. change 1 with (inject_Z 1).
  rewrite <- inject_Z_plus, <- Zlt_Qlt. reflexivity.
Qed.

Lemma Qfloor_small (q : Q) :
  (Z.abs (Qfloor q) < 2 ^ 50)%Z →
  Qle_bool f64_overflow q || Qle_bool q (- f64_overflow) = false.
Proof.
  intros Hq. pose proof f64_overflow_large as Hbig.
  pose proof (Qfloor_le q) as Hlo. pose proof (Qlt_floor q) as Hhi.
  assert (H1 : inject_Z (Qfloor q) < inject_Z (2 ^ 50))
    by (rewrite <- Zlt_Qlt; lia).
  assert (H2 : - inject_Z (2 ^ 50) < inject_Z (Qfloor q)).
  { rewrite <- inject_Z_opp, <- Zlt_Qlt. lia. }
  rewrite inject_Z_plus in Hhi. change (inject_Z 1) with 1 in Hhi.
  apply orb_false_intro.
  - destruct (Qle_bool f64_overflow q) eqn:E; [|reflexivity].
    apply Qle_bool_iff in E. exfalso. lra.
  - destruct (Qle_bool q (- f64_overflow)) eqn:E; [|reflexivity].
    apply Qle_bool_iff in E. exfalso. lra.
Qed.

(** C3, as the code has it.  An accepted BUY always opens a position, with
    no guard: the ledger and the capital are as they were, and the
    quantity is what the floor division [capital // price] gives.  For a
    finite capital and a finite non-zero price whose quotient is below
    [2^50] in magnitude that is the integer floor(capital / price); it is
    non-negative and is the truncation toward zero when the capital is
    non-negative and the price positive, and it is 0 for a zero capital
    (the position is opened all the same).  For a zero price the quantity
    is an infinity or NaN, not 0. *)
Theorem buy_quantity_floor (ticker : string) (st : bt_state) (s : Signal) :
  current_position st = None → sig_signal s = BUY →
  let st' := backtest_step ticker st s in
  (∃ quantity,
     current_position st' = Some
       {| pos_entry_date := sig_date s;
          pos_entry_price := sig_price s;
          pos_ticker := ticker;
          pos_quantity := quantity |})
  ∧ trades st' = trades st
  ∧ portfolio_value st' = portfolio_value st
  ∧ (∀ c p, portfolio_value st = Fin c → sig_price s = Fin p → ¬ p == 0 →
       (Z.abs (Qfloor (c / p)) < 2 ^ 50)%Z →
       pos_quantity <$> current_position st'
       = Some (Fin (inject_Z (Qfloor (c / p))))
       ∧ (0 <= c → 0 < p →
            Qfloor (c / p) = Qtrunc (c / p) ∧ (0 <= Qfloor (c / p))%Z)
       ∧ (c == 0 → Qfloor (c / p) = 0%Z))
  ∧ (∀ c p, portfolio_value st = Fin c → sig_price s = Fin p → p == 0 →
       ∃ quantity,
         pos_quantity <$> current_position st' = Some quantity
         ∧ is_finite quantity = false).
Proof.
  intros Hp Hk st'. subst st'. unfold backtest_step, is_buy, is_sell.
  rewrite Hp, Hk. cbn [current_position trades portfolio_value].
  split; [eexists; reflexivity|]. split; [reflexivity|].
  split; [reflexivity|]. split.
  - intros c p Hc Hpr Hnz Hsmall. rewrite Hc, Hpr.
    cbn [fmap option_fmap option_map pos_quantity]. unfold ffloordiv.
    rewrite (Qeq_bool_false p Hnz), (Qfloor_small _ Hsmall).
    split; [reflexivity|]. split.
    + intros Hc0 Hp0. pose proof (Qdiv_nonneg c p Hc0 Hp0) as Hq.
      unfold Qtrunc. split.
      * destruct (Qle_bool 0 (c / p)) eqn:E; [reflexivity|].
        apply Qle_bool_iff in Hq. congruence.
      * apply Qfloor_nonneg, Hq.
    + intros Hz. assert (Hq : c / p == 0) by (rewrite Hz; field; exact Hnz).
      rewrite Hq. reflexivity.
  - intros c p Hc Hpr Hz. rewrite Hc, Hpr.
    cbn [fmap option_fmap option_map pos_quantity]. unfold ffloordiv, fdiv.
    apply Qeq_bool_iff in Hz. rewrite Hz. eexists. split; [reflexivity|].
    destruct (Qsgn c); reflexivity.
Qed.

Lemma buy_quantity_floor_witness :
  pos_quantity <$> current_position
    (backtest_step "TCS.NS" (bt_init (F 100000)) (mk_signal 1 BUY (F 3)))
  = Some (F 33333).
Proof.
  destruct (buy_quantity_floor "TCS.NS" (bt_init (F 100000))
              (mk_signal 1 BUY (F 3)) eq_refl eq_refl) as (_ & _ & _ & H & _).
  destruct (H (inject_Z 100000) (inject_Z 3) eq_refl eq_refl) as (Hq & _).
  - discriminate.
  - vm_compute. reflexivity.
  - exact Hq.
Defined.

(** C3, as worded, fails: with zero capital the BUY still opens a position
    (of quantity 0) and the next SELL closes it into a trade; with a
    negative price the quantity is the floor of the quotient, neither 0 nor
    its truncation toward zero. *)
Lemma quantity_not_guarded :
  ¬ quantity_guarded "TCS.NS"
  ∧ length (trades (backtest_loop "TCS.NS"
       [mk_signal 1 BUY (F 100); mk_signal 2 SELL (F 110)] (bt_init (F 0))))
    = 1%nat
  ∧ pos_quantity <$> current_position
       (backtest_step "TCS.NS" (bt_init (F 100000)) (mk_signal 1 BUY (F (-3))))
    = Some (F (-33334))
  ∧ Qtrunc (100000 / -3) = (-33333)%Z.
Proof.
  split; [|split; [|split]]; try reflexivity.
  intros H.
  specialize (H (bt_init (F 0)) (mk_signal 1 BUY (F 100)) eq_refl eq_refl).
  discriminate H. left. reflexivity.
Qed.

(** ** Metrics *)


Lemma flt_irrefl (x : F64) : flt x x = false.
Proof.
  destruct x; simpl; try reflexivity.
  qcases; try reflexivity; exfalso; lra.
Qed.

Lemma np_minimum_lower (d y m : F64) :
  isna d = false → isna y = false →
  flt (np_minimum d y) m = false → flt d m = false ∧ flt y m = false.
Proof.
  unfold np_minimum. intros Hd Hy. rewrite Hd, Hy. simpl.
  destruct d, y, m; try discriminate; unfold flt;
    repeat (qcases; cbn in * ); intros;
    try discriminate; try (split; reflexivity); exfalso; lra.
Qed.

Lemma np_minimum_nan_l (y : F64) : np_minimum NaN y = NaN.
Proof. reflexivity. Qed.



Lemma np_min_least (l : list F64) : ∀ d,
  Forall (λ x, isna x = false) (d :: l) →
  np_min d l ∈ d :: l
  ∧ isna (np_min d l) = false
  ∧ Forall (λ x, flt x (np_min d l) = false) (d :: l).
Proof.
  induction l as [|y l IH]; intros d Hall.
  - simpl. split; [left|]. split; [by inversion Hall|].
    constructor; [apply flt_irrefl | constructor].
  - inversion Hall as [|? ? Hd Hl]; subst.
    inversion Hl as [|? ? Hy Hl']; subst.
    unfold np_min in *. cbn [fold_left].
    assert (Hm : isna (np_minimum d y) = false).
    { unfold np_minimum. rewrite Hd, Hy. simpl. destruct (flt y d); done. }
    destruct (IH (np_minimum d y)) as (Hin & Hna & Hle).
    { constructor; assumption. }
    split; [|split; [exact Hna|]].
    + apply elem_of_cons in Hin as [Heq | Hin].
      * rewrite Heq. unfold np_minimum. rewrite Hd, Hy. simpl.
        destruct (flt y d); [right; left | left].
      * right. right. exact Hin.
    + inversion Hle as [|? ? Hm0 Hrest]; subst.
      destruct (np_minimum_lower d y _ Hd Hy Hm0) as [Hmd Hmy].
      constructor; [assumption|]. constructor; assumption.
Qed.

Lemma drawdown_at_nonzero (c p : Q) :
  ¬ p == 0 → drawdown_at (Fin c) (Fin p) = Fin ((c - p) / p * 100).
Proof.
  intros Hp. unfold drawdown_at, fsub, fdiv, fadd, fneg, fmul.
  rewrite (Qeq_bool_false p Hp). reflexivity.
Qed.








(** C5.  For the empty list the dictionary returned holds five zero
    entries and has no [winning_trades] and no [losing_trades] entry, which
    the branch for a non-empty list does define. *)
Theorem empty_metrics_lacks_counts :
  calculate_metrics [] !! "total_trades" = Some (PInt 0)
  ∧ calculate_metrics [] !! "win_rate" = Some (PInt 0)
  ∧ calculate_metrics [] !! "total_pnl" = Some (PInt 0)
  ∧ calculate_metrics [] !! "avg_return" = Some (PInt 0)
  ∧ calculate_metrics [] !! "max_drawdown" = Some (PInt 0)
  ∧ calculate_metrics [] !! "winning_trades" = None
  ∧ calculate_metrics [] !! "losing_trades" = None
  ∧ (∀ t ts, is_Some (calculate_metrics (t :: ts) !! "winning_trades")
             ∧ is_Some (calculate_metrics (t :: ts) !! "losing_trades")).
Proof.
  repeat (split; [reflexivity|]).
  intros t ts. unfold calculate_metrics. split; by simplify_map_eq.
Qed.

(** ** Rolling windows and the RSI *)

Lemma rolling_mean_lookup (w : nat) (c : column) (i : nat) :
  (i < length c)%nat → rolling_mean w c !! i = Some (rolling_mean_at w c i).
Proof.
  intros Hi. unfold rolling_mean. rewrite list_lookup_imap.
  destruct (lookup_lt_is_Some_2 c i Hi) as [x ->]. reflexivity.
Qed.

Lemma length_rolling_mean (w : nat) (c : column) :
  length (rolling_mean w c) = length c.
Proof. apply length_imap. Qed.

Lemma length_diff (c : column) : length (diff c) = length c.
Proof. apply length_imap. Qed.

Lemma window_fmap (f : F64 → F64) (w i : nat) (c : column) :
  window w i (f <$> c) = f <$> window w i c.
Proof. unfold window. rewrite fmap_take, fmap_drop. reflexivity. Qed.

Lemma window_Forall (P : F64 → Prop) (w i : nat) (c : column) :
  Forall P c → Forall P (window w i c).
Proof. intros H. apply Forall_take, Forall_drop, H. Qed.

Lemma finite_sum_finite (l : list F64) :
  Forall (λ x, is_finite x = true) l → is_Some (finite_sum l).
Proof.
  induction 1 as [|x l Hx _ [s IH]]; simpl; [eauto|].
  rewrite IH. destruct x; try discriminate. eauto.
Qed.


Lemma diff_delta_like (c : column) :
  Forall (λ x, is_finite x = true) c → Forall delta_like (diff c).
Proof.
  intros Hc. apply Forall_lookup. intros i d Hd.
  unfold diff in Hd. rewrite list_lookup_imap in Hd.
  destruct (c !! i) as [x|] eqn:Hx; simpl in Hd; [|discriminate].
  injection Hd as <-. destruct i as [|j]; [left; reflexivity|right].
  pose proof (Forall_lookup_1 _ _ _ _ Hc Hx) as Hfx. simpl in Hfx.
  destruct (lookup_lt_is_Some_2 c j) as [y Hy].
  { apply lookup_lt_Some in Hx. lia. }
  pose proof (Forall_lookup_1 _ _ _ _ Hc Hy) as Hfy. simpl in Hfy.
  unfold iloc. rewrite Hy. simpl.
  destruct x, y; try discriminate. reflexivity.
Qed.

Lemma Qeq_bool_true (p : Q) : p == 0 → Qeq_bool p 0 = true.
Proof. intros. apply Qeq_bool_iff. assumption. Qed.

(** The sums feeding the average gain and the average loss of a window of
    deltas: both exist and are non-negative, and both vanish exactly when
    the window is flat. *)
Lemma sums_of_deltas (W : list F64) :
  Forall delta_like W →
  ∃ sg sl,
    finite_sum (where_ (λ d, fgt d (F 0)) W) = Some sg
    ∧ finite_sum (fneg <$> where_ (λ d, flt d (F 0)) W) = Some sl
    ∧ 0 <= sg ∧ 0 <= sl
    ∧ ((sg == 0 ∧ sl == 0)
       ↔ forallb (λ d, isna d || feqb d (F 0)) W = true).
Proof.
  induction 1 as [|d W Hd _ (sg & sl & Hg & Hl & Hg0 & Hl0 & Hiff)].
  - exists 0, 0. simpl. repeat split; auto; lra.
  - unfold where_ in *. cbn [fmap list_fmap finite_sum foldr forallb].
    unfold finite_sum in Hg, Hl. rewrite Hg, Hl. clear Hg Hl.
    destruct Hd as [-> | Hf].
    + exists (0 + sg), (- 0 + sl). cbn [isna orb andb fneg F].
      split; [reflexivity|]. split; [reflexivity|].
      split; [lra|]. split; [lra|]. rewrite <- Hiff.
      split; intros [? ?]; split; lra.
    + destruct d as [q| | |]; try discriminate. clear Hf.
      unfold fgt, flt, F. cbn [isna orb feqb fneg].
      change (inject_Z 0) with 0.
      destruct (Qcompare_spec 0 q) as [E|E|E];
        destruct (Qcompare_spec q 0) as [E'|E'|E']; try (exfalso; lra);
        cbn [fneg]; eexists _, _; (split; [reflexivity|]);
        (split; [reflexivity|]); (split; [lra|]); (split; [lra|]).
      * rewrite (Qeq_bool_true q E'). simpl. rewrite <- Hiff.
        split; intros [? ?]; split; lra.
      * rewrite (Qeq_bool_false q) by lra. simpl.
        split; [intros [? ?]; exfalso; lra | discriminate].
      * rewrite (Qeq_bool_false q) by lra. simpl.
        split; [intros [? ?]; exfalso; lra | discriminate].
Qed.

Lemma flat_delta_like (W : list F64) :
  forallb (λ d, isna d || feqb d (F 0)) W = true → Forall delta_like W.
Proof.
  intros H. apply Forall_forall. intros d Hd.
  rewrite forallb_forall in H. specialize (H d).
  rewrite <- list_elem_of_In in H. specialize (H Hd).
  destruct d; simpl in H; try discriminate; [right | left]; reflexivity.
Qed.

Lemma rsi_of_rs_finite (r : Q) : isna (rsi_of_rs (Fin r)) = false.
Proof.
  unfold rsi_of_rs, F. cbn [fadd fdiv].
  destruct (Qeq_bool _ 0); reflexivity.
Qed.

(** The RSI of an average gain [a] and an average loss [b] is undefined
    exactly when both are zero. *)
Lemma rsi_of_rs_nan (a b : Q) :
  isna (rsi_of_rs (Fin a / Fin b)%F) = true ↔ a == 0 ∧ b == 0.
Proof.
  cbn [fdiv]. destruct (Qeq_bool b 0) eqn:Eb.
  - apply Qeq_bool_iff in Eb. unfold Qsgn.
    destruct (Qcompare_spec a 0) as [E|E|E]; simpl;
      (split; [try discriminate; intros _; split; assumption|]);
      intros [? ?]; try reflexivity; exfalso; lra.
  - rewrite rsi_of_rs_finite. split; [discriminate|].
    intros [_ Hb]. apply Qeq_bool_iff in Hb. congruence.
Qed.

Lemma Qnat_pos (n : nat) : (0 < n)%nat → 0 < Qnat n.
Proof.
  intros Hn. unfold Qnat. change 0 with (inject_Z 0).
  rewrite <- Zlt_Qlt. lia.
Qed.

Lemma Qdiv_eq_0 (s p : Q) : 0 < p → (s / p == 0 ↔ s == 0).
Proof.
  intros Hp. split; intros H.
  - assert (s == s / p * p) as -> by (field; lra). rewrite H. ring.
  - rewrite H. field. lra.
Qed.

Lemma rsi_series_lookup (period : nat) (close : column) (i : nat) :
  (i < length close)%nat →
  rsi_series period close !! i
  = Some (rsi_of_rs (rolling_mean_at period
                       (where_ (λ d, fgt d (F 0)) (diff close)) i
                     / rolling_mean_at period
                       (fneg <$> where_ (λ d, flt d (F 0)) (diff close)) i)%F).
Proof.
  intros Hi. unfold rsi_series, rsi_gain, rsi_loss, zipF.
  rewrite list_lookup_fmap, lookup_zip_with.
  rewrite !rolling_mean_lookup;
    unfold where_; rewrite ?length_fmap, ?length_diff; try assumption.
  reflexivity.
Qed.

Lemma rolling_mean_at_early (w : nat) (c : column) (i : nat) :
  (S i < w)%nat → rolling_mean_at w c i = NaN.
Proof.
  intros Hi. unfold rolling_mean_at.
  destruct (decide _) as [[_ ?]|_]; [lia | reflexivity].
Qed.

Lemma rolling_mean_at_full (w : nat) (c : column) (i : nat) (s : Q) :
  (0 < w ≤ S i)%nat → finite_sum (window w i c) = Some s →
  rolling_mean_at w c i = Fin (s / Qnat w).
Proof.
  intros Hi Hs. unfold rolling_mean_at.
  destruct (decide _) as [_|?]; [|contradiction]. rewrite Hs. reflexivity.
Qed.

(** From bar [period - 1] on, the RSI is undefined exactly on flat windows. *)
Lemma rsi_nan_iff_flat (period : nat) (close : column) (i : nat) :
  (0 < period ≤ S i)%nat →
  Forall delta_like (window period i (diff close)) →
  isna (rsi_of_rs (rolling_mean_at period
                     (where_ (λ d, fgt d (F 0)) (diff close)) i
                   / rolling_mean_at period
                     (fneg <$> where_ (λ d, flt d (F 0)) (diff close)) i)%F)
  = flat_window period close i.
Proof.
  intros Hp HW.
  destruct (sums_of_deltas _ HW) as (sg & sl & Hg & Hl & Hg0 & Hl0 & Hiff).
  rewrite (rolling_mean_at_full period _ i sg Hp).
  2:{ unfold where_. rewrite window_fmap. exact Hg. }
  rewrite (rolling_mean_at_full period _ i sl Hp).
  2:{ unfold where_. rewrite !window_fmap. exact Hl. }
  unfold flat_window.
  pose proof (Qnat_pos period (proj1 Hp)) as HP.
  apply eq_true_iff_eq. rewrite rsi_of_rs_nan, <- Hiff.
  rewrite !Qdiv_eq_0 by exact HP. reflexivity.
Qed.

Lemma isna_true (x : F64) : isna x = true ↔ x = NaN.
Proof. destruct x; simpl; split; congruence. Qed.

Lemma rolling_mean_at_nan_iff (w : nat) (c : column) (i : nat) :
  (0 < w)%nat → Forall (λ x, is_finite x = true) c →
  isna (rolling_mean_at w c i) = true ↔ (S i < w)%nat.
Proof.
  intros Hw Hc. split.
  - intros Hn. destruct (decide (S i < w)%nat) as [|Hge]; [assumption|].
    exfalso. destruct (finite_sum_finite (window w i c)) as [s Hs].
    { apply window_Forall, Hc. }
    rewrite (rolling_mean_at_full w c i s) in Hn by (lia || exact Hs).
    discriminate.
  - intros Hi. rewrite rolling_mean_at_early by exact Hi. reflexivity.
Qed.

Lemma get_col_run (h : heap) (data : loc) (df : DataFrame) (k : string)
  (c : column) :
  h !! data = Some df → df_cols df !! k = Some c →
  get_col data k h = (Ok c, h).
Proof. intros Hh Hk. unfold get_col. rewrite Hh, Hk. reflexivity. Qed.

Lemma calculate_rsi_run (h : heap) (data : loc) (df : DataFrame)
  (close : column) (period : nat) :
  h !! data = Some df → df_cols df !! "Close" = Some close →
  calculate_rsi data period h = (Ok (rsi_series period close), h).
Proof.
  intros Hh Hc. unfold calculate_rsi, mbind, M_bind.
  rewrite (get_col_run h data df "Close" close Hh Hc). reflexivity.
Qed.

Lemma calculate_moving_averages_run (h : heap) (data : loc) (df : DataFrame)
  (close : column) (short long : nat) :
  h !! data = Some df → df_cols df !! "Close" = Some close →
  calculate_moving_averages data short long h
  = (Ok (rolling_mean short close, rolling_mean long close), h).
Proof.
  intros Hh Hc. unfold calculate_moving_averages, mbind, M_bind.
  rewrite (get_col_run h data df "Close" close Hh Hc). reflexivity.
Qed.

Lemma iloc_lookup (c : column) (i : nat) (x : F64) :
  c !! i = Some x → iloc c i = x.
Proof. intros H. unfold iloc. rewrite H. reflexivity. Qed.


Lemma on_grid_F (z : Z) : (Z.abs z ≤ 2 ^ 30)%Z → on_grid (F z).
Proof.
  intros Hz. exists (inject_Z z). split; [reflexivity|].
  exists (z * 1024)%Z. split.
  - rewrite inject_Z_mult. field.
  - change (2 ^ 40)%Z with (2 ^ 30 * 1024)%Z. lia.
Qed.




(** C7.  When, at a bar, the trailing average loss is 0 and the trailing
    average gain is positive, the ratio is infinite and the RSI computed
    there is 100. *)
Theorem rsi_saturates (h : heap) (data : loc) (df : DataFrame)
  (close : column) (period i : nat) (g l : Q) :
  h !! data = Some df → df_cols df !! "Close" = Some close →
  rsi_gain period close !! i = Some (Fin g) →
  rsi_loss period close !! i = Some (Fin l) →
  0 < g → l == 0 →
  ∃ rsi, calculate_rsi data period h = (Ok rsi, h)
         ∧ rsi !! i = Some (F 100).
Proof.
  intros Hh Hc Hg Hl Hpos Hz. exists (rsi_series period close).
  split; [eapply calculate_rsi_run; eassumption|].
  unfold rsi_series, zipF. rewrite list_lookup_fmap, lookup_zip_with.
  rewrite Hg, Hl. cbn [mbind option_bind fmap option_fmap option_map fdiv].
  rewrite (Qeq_bool_true l Hz). unfold Qsgn.
  destruct (Qcompare_spec g 0) as [E|E|E]; try (exfalso; lra).
  reflexivity.
Qed.

Lemma rsi_saturates_witness :
  ∃ rsi,
    calculate_rsi 1 14 (store_of (rising_prices 20) (flat_volume 20))
    = (Ok rsi, store_of (rising_prices 20) (flat_volume 20))
    ∧ rsi !! 15%nat = Some (F 100).
Proof.
  eapply (rsi_saturates _ 1 (raw_frame (rising_prices 20) (flat_volume 20))
            (rising_prices 20) 14 15).
  - reflexivity.
  - reflexivity.
  - vm_compute. reflexivity.
  - vm_compute. reflexivity.
  - reflexivity.
  - reflexivity.
Defined.

(** The value 100 is reached whichever infinity the ratio is. *)
Lemma rsi_of_rs_infinite : rsi_of_rs PInf = F 100 ∧ rsi_of_rs NInf = F 100.
Proof. split; reflexivity. Qed.

(** C10.  At a bar with a full window whose deltas are all zero, the
    average gain and the average loss are both 0 and the RSI computed is
    null: 0/0 gives no value. *)
Theorem rsi_flat_is_null (h : heap) (data : loc) (df : DataFrame)
  (close : column) (period i : nat) :
  h !! data = Some df → df_cols df !! "Close" = Some close →
  (0 < period ≤ S i)%nat → (i < length close)%nat →
  flat_window period close i = true →
  ∃ rsi g l,
    calculate_rsi data period h = (Ok rsi, h)
    ∧ rsi_gain period close !! i = Some (Fin g) ∧ g == 0
    ∧ rsi_loss period close !! i = Some (Fin l) ∧ l == 0
    ∧ rsi !! i = Some NaN
    ∧ rsi !! i ≠ Some (F 100).
Proof.
  intros Hh Hc Hp Hi Hflat.
  pose proof (flat_delta_like _ Hflat) as HW.
  destruct (sums_of_deltas _ HW) as (sg & sl & Hg & Hl & _ & _ & Hiff).
  destruct (proj2 Hiff Hflat) as [Hsg Hsl].
  pose proof (Qnat_pos period (proj1 Hp)) as HP.
  assert (Hrs : rsi_series period close !! i = Some NaN).
  { rewrite rsi_series_lookup by exact Hi. f_equal. apply isna_true.
    rewrite rsi_nan_iff_flat by assumption. exact Hflat. }
  exists (rsi_series period close), (sg / Qnat period), (sl / Qnat period).
  split; [eapply calculate_rsi_run; eassumption|].
  split.
  { unfold rsi_gain. rewrite rolling_mean_lookup
      by (unfold where_; rewrite length_fmap, length_diff; exact Hi).
    f_equal. apply rolling_mean_at_full; [exact Hp|].
    unfold where_. rewrite window_fmap. exact Hg. }
  split; [apply Qdiv_eq_0; assumption|].
  split.
  { unfold rsi_loss. rewrite rolling_mean_lookup
      by (unfold where_; rewrite !length_fmap, length_diff; exact Hi).
    f_equal. apply rolling_mean_at_full; [exact Hp|].
    unfold where_. rewrite !window_fmap. exact Hl. }
  split; [apply Qdiv_eq_0; assumption|].
  split; [exact Hrs|]. rewrite Hrs. discriminate.
Qed.

Lemma rsi_flat_is_null_witness :
  ∃ rsi,
    calculate_rsi 1 14 (store_of (constant_prices 20) (flat_volume 20))
    = (Ok rsi, store_of (constant_prices 20) (flat_volume 20))
    ∧ rsi !! 16%nat = Some NaN.
Proof.
  destruct (rsi_flat_is_null
              (store_of (constant_prices 20) (flat_volume 20)) 1
              (raw_frame (constant_prices 20) (flat_volume 20))
              (constant_prices 20) 14 16)
    as (rsi & g & l & Hr & _ & _ & _ & _ & Hn & _).
  - reflexivity.
  - reflexivity.
  - lia.
  - vm_compute. lia.
  - reflexivity.
  - exists rsi. split; assumption.
Defined.

(** ** Running the engine on the store *)

Lemma set_col_run (h : heap) (data : loc) (df : DataFrame) (k : string)
  (c : column) :
  h !! data = Some df →
  set_col data k c h = (Ok (), <[data := set_column k c df]> h).
Proof. intros Hh. unfold set_col. rewrite Hh. reflexivity. Qed.


Lemma add_technical_indicators_run (fsqrt : F64 → F64) (h : heap)
  (data : loc) (df : DataFrame) (close : column) :
  h !! data = Some df → df_cols df !! "Close" = Some close →
  add_technical_indicators fsqrt data h
  = (Ok data, <[data := with_indicators fsqrt close df]> h).
Proof.
  intros Hh Hc.
  unfold add_technical_indicators, calculate_rsi, calculate_macd,
    calculate_moving_averages, calculate_bollinger_bands, with_indicators.
  unfold mbind, M_bind, mret, M_ret, get_col, set_col.
  repeat (first [rewrite Hh | rewrite Hc | store_step]).
  destruct (macd_series 12 26 9 close) as [[macd signal_line] histogram].
  repeat (first [rewrite Hh | rewrite Hc | store_step]).
  destruct (moving_averages_series 20 50 close) as [ma_short ma_long].
  repeat (first [rewrite Hh | rewrite Hc | store_step]).
  destruct (bollinger_series fsqrt 20 (F 2) close) as [[upper ma] lower].
  repeat (first [rewrite Hh | rewrite Hc | store_step]).
  reflexivity.
Qed.

Lemma with_indicators_index (fsqrt : F64 → F64) (close : column)
  (df : DataFrame) :
  df_index (with_indicators fsqrt close df) = df_index df.
Proof.
  unfold with_indicators.
  destruct (macd_series 12 26 9 close) as [[macd signal_line] histogram].
  destruct (moving_averages_series 20 50 close) as [ma_short ma_long].
  destruct (bollinger_series fsqrt 20 (F 2) close) as [[upper ma] lower].
  reflexivity.
Qed.

Lemma with_indicators_other (fsqrt : F64 → F64) (close : column)
  (df : DataFrame) (k : string) :
  k ∉ indicator_columns →
  df_cols (with_indicators fsqrt close df) !! k = df_cols df !! k.
Proof.
  intros Hk. unfold with_indicators.
  destruct (macd_series 12 26 9 close) as [[macd signal_line] histogram].
  destruct (moving_averages_series 20 50 close) as [ma_short ma_long].
  destruct (bollinger_series fsqrt 20 (F 2) close) as [[upper ma] lower].
  cbn [df_cols set_column].
  unfold indicator_columns in Hk.
  rewrite !not_elem_of_cons in Hk.
  destruct Hk as (? & ? & ? & ? & ? & ? & ? & ? & ? & _).
  rewrite !lookup_insert_ne by congruence. reflexivity.
Qed.

Lemma with_indicators_assigned (fsqrt : F64 → F64) (close : column)
  (df : DataFrame) (k : string) :
  k ∈ indicator_columns →
  is_Some (df_cols (with_indicators fsqrt close df) !! k).
Proof.
  intros Hk. unfold with_indicators.
  destruct (macd_series 12 26 9 close) as [[macd signal_line] histogram].
  destruct (moving_averages_series 20 50 close) as [ma_short ma_long].
  destruct (bollinger_series fsqrt 20 (F 2) close) as [[upper ma] lower].
  cbn [df_cols set_column].
  unfold indicator_columns in Hk.
  repeat (apply elem_of_cons in Hk as [-> | Hk]; [by simplify_map_eq|]).
  inversion Hk.
Qed.

Lemma with_indicators_values (fsqrt : F64 → F64) (close : column)
  (df : DataFrame) :
  let cols := df_cols (with_indicators fsqrt close df) in
  cols !! "RSI" = Some (rsi_series 14 close)
  ∧ cols !! "MACD" = Some (macd_series 12 26 9 close).1.1
  ∧ cols !! "MACD_Histogram" = Some (macd_series 12 26 9 close).2
  ∧ cols !! "MA20" = Some (rolling_mean 20 close)
  ∧ cols !! "MA50" = Some (rolling_mean 50 close).
Proof.
  unfold with_indicators, moving_averages_series.
  destruct (macd_series 12 26 9 close) as [[macd signal_line] histogram].
  destruct (bollinger_series fsqrt 20 (F 2) close) as [[upper ma] lower].
  cbn [df_cols set_column fst snd]. repeat split; by simplify_map_eq.
Qed.

Lemma not_indicator (k : string) :
  k ∉ indicator_columns ↔
  k ≠ "RSI" ∧ k ≠ "MACD" ∧ k ≠ "MACD_Signal" ∧ k ≠ "MACD_Histogram"
  ∧ k ≠ "MA20" ∧ k ≠ "MA50" ∧ k ≠ "BB_Upper" ∧ k ≠ "BB_Middle"
  ∧ k ≠ "BB_Lower".
Proof.
  unfold indicator_columns. rewrite !not_elem_of_cons.
  pose proof (not_elem_of_nil k). tauto.
Qed.

Lemma prepared_index (fsqrt : F64 → F64) (close volume : column)
  (df : DataFrame) :
  df_index (prepared fsqrt close volume df) = df_index df.
Proof. unfold prepared. cbn [df_index set_column]. apply with_indicators_index. Qed.

Lemma prepared_other (fsqrt : F64 → F64) (close volume : column)
  (df : DataFrame) (k : string) :
  k ∉ indicator_columns → k ∉ pipeline_columns →
  df_cols (prepared fsqrt close volume df) !! k = df_cols df !! k.
Proof.
  intros Hi Hp. unfold prepared. cbn [df_cols set_column].
  unfold pipeline_columns in Hp. rewrite !not_elem_of_cons in Hp.
  destruct Hp as (? & ? & ? & ? & ? & _).
  rewrite !lookup_insert_ne by congruence.
  apply with_indicators_other, Hi.
Qed.

Lemma prepared_values (fsqrt : F64 → F64) (close volume : column)
  (df : DataFrame) :
  let cols := df_cols (prepared fsqrt close volume df) in
  cols !! "RSI" = Some (rsi_series 14 close)
  ∧ cols !! "MACD" = Some (macd_series 12 26 9 close).1.1
  ∧ cols !! "Volume_Ratio" = Some (volume_ratio_series volume)
  ∧ cols !! "MA20" = Some (rolling_mean 20 close)
  ∧ cols !! "MA50" = Some (rolling_mean 50 close)
  ∧ cols !! "Price_Change" = Some (pct_change close)
  ∧ cols !! "MACD_Histogram" = Some (macd_series 12 26 9 close).2
  ∧ cols !! "Target" = Some (target_series close)
  ∧ cols !! "Next_Day_Return" = Some (shift_back (pct_change close)).
Proof.
  destruct (with_indicators_values fsqrt close df)
    as (H1 & H2 & H3 & H4 & H5).
  unfold prepared. cbn [df_cols set_column].
  repeat split; rewrite ?lookup_insert_eq; try reflexivity;
    rewrite ?lookup_insert_ne by done; rewrite ?lookup_insert_eq;
    try reflexivity; assumption.
Qed.

Section PredictorRuns.

Context `{Sklearn}.
Variable fsqrt : F64 → F64.

Lemma prepare_features_run (self : MLPredictor) (h : heap) (data : loc)
  (df : DataFrame) (close volume : column) :
  h !! data = Some df →
  df_cols df !! "Close" = Some close →
  df_cols df !! "Volume" = Some volume →
  prepare_features fsqrt data (self, h)
  = (Ok data, (set_feature_columns trained_features self,
               <[data := prepared fsqrt close volume df]> h)).
Proof.
  intros Hh Hc Hv.
  assert (Hc' : df_cols (with_indicators fsqrt close df) !! "Close"
                = Some close).
  { rewrite with_indicators_other; [exact Hc|].
    unfold indicator_columns. rewrite !not_elem_of_cons.
    repeat split; try discriminate. apply not_elem_of_nil. }
  assert (Hv' : df_cols (with_indicators fsqrt close df) !! "Volume"
                = Some volume).
  { rewrite with_indicators_other; [exact Hv|].
    unfold indicator_columns. rewrite !not_elem_of_cons.
    repeat split; try discriminate. apply not_elem_of_nil. }
  unfold prepare_features, prepared, lift_heap, set_self.
  unfold mbind, M_bind, mret, M_ret. cbn [fst snd].
  rewrite (add_technical_indicators_run fsqrt h data df close Hh Hc).
  unfold get_col, set_col.
  repeat (first [rewrite Hc' | rewrite Hv' | store_step]).
  reflexivity.
Qed.

Lemma clean_training_data_run (self : MLPredictor) (h : heap) (data : loc)
  (df : DataFrame) (close volume : column) :
  h !! data = Some df →
  df_cols df !! "Close" = Some close →
  df_cols df !! "Volume" = Some volume →
  clean_training_data fsqrt data (self, h)
  = (Ok (dropna (length (df_index df)) (training_columns close volume)),
     (set_feature_columns trained_features self,
      <[data := prepared fsqrt close volume df]> h)).
Proof.
  intros Hh Hc Hv.
  destruct (prepared_values fsqrt close volume df)
    as (H1 & H2 & H3 & H4 & H5 & H6 & H7 & H8 & _).
  unfold clean_training_data.
  unfold mbind at 1, M_bind at 1.
  rewrite (prepare_features_run self h data df close volume Hh Hc Hv).
  unfold lift_heap, get_self, get_index, mbind, M_bind, mret, M_ret.
  cbn [fst snd feature_columns set_feature_columns trained_features app
       select].
  unfold mbind, M_bind, mret, M_ret, get_col.
  repeat (first [rewrite lookup_insert_eq | rewrite H1 | rewrite H2
                | rewrite H3 | rewrite H4 | rewrite H5 | rewrite H6
                | rewrite H7 | rewrite H8 | progress cbn beta iota zeta ]).
  cbn [fst snd]. rewrite lookup_insert_eq. cbn beta iota zeta.
  rewrite prepared_index. unfold training_columns, moving_averages_series.
  destruct (macd_series 12 26 9 close) as [[macd signal_line] histogram].
  reflexivity.
Qed.

End PredictorRuns.

Lemma generate_signals_run (fsqrt : F64 → F64) (self : TradingStrategy)
  (h : heap) (data : loc) (df : DataFrame) (close : column) :
  h !! data = Some df → df_cols df !! "Close" = Some close →
  generate_signals fsqrt data (self, h)
  = (Ok (omap (signal_at (rsi_oversold self) (df_index df) close
                 (rsi_series 14 close) (rolling_mean 20 close)
                 (rolling_mean 50 close))
              (seq 1 (length (df_index df) - 1))),
     (self, <[data := with_indicators fsqrt close df]> h)).
Proof.
  intros Hh Hc.
  destruct (with_indicators_values fsqrt close df) as (H1 & _ & _ & H4 & H5).
  assert (Hc' : df_cols (with_indicators fsqrt close df) !! "Close"
                = Some close).
  { rewrite with_indicators_other; [exact Hc|].
    apply not_indicator. repeat split; discriminate. }
  unfold generate_signals, lift_heap, get_self, get_index.
  unfold mbind, M_bind, mret, M_ret. cbn [fst snd].
  rewrite (add_technical_indicators_run fsqrt h data df close Hh Hc).
  unfold get_col.
  repeat (first [rewrite lookup_insert_eq | rewrite Hc' | rewrite H1
                | rewrite H4 | rewrite H5 | progress cbn beta iota zeta
                | progress cbn [fst snd] ]).
  rewrite with_indicators_index. reflexivity.
Qed.

(** ** The [backtest] method as a whole *)

Lemma backtest_run (fsqrt : F64 → F64) (self : TradingStrategy) (h : heap)
  (data : loc) (df : DataFrame) (close : column) (ticker : string) :
  h !! data = Some df → df_cols df !! "Close" = Some close →
  let signals :=
    omap (signal_at (rsi_oversold self) (df_index df) close
            (rsi_series 14 close) (rolling_mean 20 close)
            (rolling_mean 50 close))
         (seq 1 (length (df_index df) - 1)) in
  let st := backtest_loop ticker signals (bt_init (self_portfolio_value self)) in
  backtest fsqrt data ticker (self, h)
  = (Ok (trades st, signals),
     (set_portfolio_value (portfolio_value st) self,
      <[data := with_indicators fsqrt close df]> h)).
Proof.
  intros Hh Hc signals st. unfold backtest.
  unfold mbind at 1, M_bind at 1.
  rewrite (generate_signals_run fsqrt self h data df close Hh Hc).
  reflexivity.
Qed.

(** The trades a call of [backtest] returns are as many as the automaton
    closes over the signals generated, starting FLAT. *)
Lemma backtest_trades_follow_automaton (fsqrt : F64 → F64)
  (self : TradingStrategy) (h : heap) (data : loc) (df : DataFrame)
  (close : column) (ticker : string) :
  h !! data = Some df → df_cols df !! "Close" = Some close →
  ∃ trades signals s',
    backtest fsqrt data ticker (self, h) = (Ok (trades, signals), s')
    ∧ length trades = (spec_run FLAT (sig_signal <$> signals)).2.
Proof.
  intros Hh Hc. eexists _, _, _. split.
  - apply (backtest_run fsqrt self h data df close ticker Hh Hc).
  - destruct (backtest_loop_refines ticker
                (omap (signal_at (rsi_oversold self) (df_index df) close
                         (rsi_series 14 close) (rolling_mean 20 close)
                         (rolling_mean 50 close))
                      (seq 1 (length (df_index df) - 1)))
                (bt_init (self_portfolio_value self))) as [_ Hn].
    exact Hn.
Qed.

(** C9, as the code has it.  The engine makes no copy.
    [add_technical_indicators] assigns its nine columns into the frame it
    was handed and returns that same frame; the index and every other
    column of that frame are as before, and the rest of the store is
    untouched.  [generate_signals] leaves the caller's frame in that same
    state, and [prepare_features] moreover assigns its five columns. *)
Theorem indicators_assigned_in_place `{Sklearn} (fsqrt : F64 → F64)
  (h : heap) (data : loc) (df : DataFrame) (close volume : column) :
  h !! data = Some df →
  df_cols df !! "Close" = Some close →
  df_cols df !! "Volume" = Some volume →
  let df' := with_indicators fsqrt close df in
  let df'' := prepared fsqrt close volume df in
  add_technical_indicators fsqrt data h = (Ok data, <[data := df']> h)
  ∧ df_index df' = df_index df
  ∧ (∀ k, k ∈ indicator_columns → is_Some (df_cols df' !! k))
  ∧ (∀ k, k ∉ indicator_columns → df_cols df' !! k = df_cols df !! k)
  ∧ (∀ l, l ≠ data → (<[data := df']> h) !! l = h !! l)
  ∧ (∀ self : TradingStrategy, ∃ signals,
       generate_signals fsqrt data (self, h)
       = (Ok signals, (self, <[data := df']> h)))
  ∧ (∀ self : MLPredictor, ∃ self',
       prepare_features fsqrt data (self, h)
       = (Ok data, (self', <[data := df'']> h)))
  ∧ df_index df'' = df_index df
  ∧ (∀ k, k ∈ pipeline_columns → is_Some (df_cols df'' !! k))
  ∧ (∀ k, k ∉ indicator_columns → k ∉ pipeline_columns →
       df_cols df'' !! k = df_cols df !! k).
Proof.
  intros Hh Hc Hv df' df''. subst df' df''.
  split; [apply add_technical_indicators_run; assumption|].
  split; [apply with_indicators_index|].
  split; [intros k; apply with_indicators_assigned|].
  split; [intros k; apply with_indicators_other|].
  split; [intros l Hl; apply lookup_insert_ne; congruence|].
  split.
  { intros self. eexists. apply generate_signals_run; assumption. }
  split.
  { intros self. eexists.
    apply (prepare_features_run fsqrt self h data df close volume);
      assumption. }
  split; [apply prepared_index|].
  split; [|intros k; apply prepared_other].
  intros k Hk. unfold prepared, pipeline_columns in *.
  cbn [df_cols set_column].
  repeat (apply elem_of_cons in Hk as [-> | Hk]; [by simplify_map_eq|]).
  inversion Hk.
Qed.

Lemma indicators_assigned_in_place_witness :
  add_technical_indicators fsqrt_dec 1
    (store_of (rising_prices 20) (flat_volume 20))
  = (Ok 1%positive,
     <[1%positive := with_indicators fsqrt_dec (rising_prices 20)
                       (raw_frame (rising_prices 20) (flat_volume 20))]>
       (store_of (rising_prices 20) (flat_volume 20))).
Proof.
  destruct (indicators_assigned_in_place fsqrt_dec
              (store_of (rising_prices 20) (flat_volume 20)) 1
              (raw_frame (rising_prices 20) (flat_volume 20))
              (rising_prices 20) (flat_volume 20)) as (Hrun & _).
  - reflexivity.
  - reflexivity.
  - reflexivity.
  - exact Hrun.
Defined.

(** C9, as worded, fails: after the call the frame at the caller's address
    is no longer the frame the caller built; it holds an [RSI] column, and
    the address returned is the caller's own. *)
Lemma caller_frame_mutated :
  let h := store_of (rising_prices 20) (flat_volume 20) in
  ∃ h' df',
    add_technical_indicators fsqrt_dec 1 h = (Ok 1%positive, h')
    ∧ h' !! 1%positive = Some df'
    ∧ h' !! 1%positive ≠ h !! 1%positive
    ∧ df_cols (raw_frame (rising_prices 20) (flat_volume 20)) !! "RSI" = None
    ∧ df_cols df' !! "RSI" = Some (rsi_series 14 (rising_prices 20)).
Proof.
  intros h. subst h.
  pose proof (with_indicators_values fsqrt_dec (rising_prices 20)
                (raw_frame (rising_prices 20) (flat_volume 20)))
    as (Hrsi & _).
  eexists _, _. split.
  { apply (add_technical_indicators_run fsqrt_dec _ 1
             (raw_frame (rising_prices 20) (flat_volume 20))
             (rising_prices 20)); reflexivity. }
  rewrite lookup_insert_eq. split; [reflexivity|].
  split; [|split; [reflexivity | exact Hrsi]].
  unfold store_of. rewrite lookup_singleton_eq. intros Heq.
  apply (inj Some) in Heq.
  apply (f_equal (λ d, df_cols d !! "RSI")) in Heq. cbv beta in Heq.
  assert (Hraw : df_cols (raw_frame (rising_prices 20) (flat_volume 20))
                 !! "RSI" = None) by reflexivity.
  rewrite Hrsi, Hraw in Heq. discriminate Heq.
Qed.

(** ** Training *)

Section TrainingFacts.

Context `{Sklearn}.
Variable fsqrt : F64 → F64.


Lemma keeps_refl (self : MLPredictor) : keeps self self.
Proof. repeat split. Qed.

Lemma keeps_trans (a b c : MLPredictor) : keeps a b → keeps b c → keeps a c.
Proof. unfold keeps. intros (? & ? & ?) (? & ? & ?). repeat split; congruence. Qed.

Lemma stable_bind {A B} (m : M (MLPredictor * heap) A)
  (f : A → M (MLPredictor * heap) B) :
  self_stable m → (∀ a, self_stable (f a)) → self_stable (m ≫= f).
Proof.
  intros Hm Hf s r s'. unfold mbind, M_bind.
  destruct (m s) as [[a|e] s1] eqn:E; intros Hr.
  - eapply keeps_trans; [eapply Hm, E | eapply Hf, Hr].
  - injection Hr as <- <-. eapply Hm, E.
Qed.

Lemma stable_lift {A} (m : M heap A) : self_stable (lift_heap m).
Proof.
  intros s r s'. unfold lift_heap. destruct (m s.2) as [r' h'].
  intros Hr. injection Hr as <- <-. apply keeps_refl.
Qed.

Lemma stable_mret {A} (a : A) : self_stable (mret a).
Proof. intros s r s' Hr. injection Hr as <- <-. apply keeps_refl. Qed.

Lemma stable_get_self : self_stable get_self.
Proof. intros s r s' Hr. injection Hr as <- <-. apply keeps_refl. Qed.

Lemma stable_set_feature_columns (v : list string) :
  self_stable (set_self (set_feature_columns v)).
Proof. intros s r s' Hr. injection Hr as <- <-. repeat split. Qed.

Lemma prepare_features_stable (data : loc) :
  self_stable (prepare_features fsqrt data).
Proof.
  unfold prepare_features.
  repeat (cbv beta zeta; apply stable_bind; [|intros ?]);
    first [apply stable_lift | apply stable_set_feature_columns
          | apply stable_mret].
Qed.

Lemma clean_training_data_stable (data : loc) :
  self_stable (clean_training_data fsqrt data).
Proof.
  unfold clean_training_data.
  apply stable_bind; [apply prepare_features_stable|intros ?].
  repeat (cbv beta zeta; apply stable_bind; [|intros ?]);
    first [apply stable_lift | apply stable_get_self | apply stable_mret].
Qed.

End TrainingFacts.

(** C8, as the code has it.  [train_model] never raises.  When fewer than
    50 clean rows remain it returns [False] and the model, its accuracy
    and the scaler are those held before.  More generally, when the run
    stops before the classifier is constructed (feature preparation
    raises, too few rows, the split or the scaler raises) it returns
    [False] and the model and its accuracy are those held before. *)
Theorem failed_training_keeps_model `{Sklearn} (fsqrt : F64 → F64)
  (data : loc) (self : MLPredictor) (h : heap)
  (r : result bool) (self' : MLPredictor) (h' : heap) :
  train_model fsqrt data (self, h) = (r, (self', h')) →
  (∃ b, r = Ok b)
  ∧ (insufficient_data fsqrt data (self, h) = true →
       r = Ok false ∧ model self' = model self
       ∧ accuracy self' = accuracy self ∧ scaler self' = scaler self)
  ∧ (reaches_classifier fsqrt data (self, h) = false →
       r = Ok false ∧ model self' = model self
       ∧ accuracy self' = accuracy self).
Proof.
  unfold train_model, insufficient_data, reaches_classifier, try_except.
  unfold mbind at 1, M_bind at 1.
  destruct (clean_training_data fsqrt data (self, h)) as [[clean|e] s1] eqn:E.
  2:{ intros Hr. injection Hr as <- ->.
      destruct (clean_training_data_stable fsqrt data _ _ _ E)
        as (Hm & Ha & Hs).
      split; [eauto|]. split; [discriminate|]. intros _. auto. }
  destruct (clean_training_data_stable fsqrt data _ _ _ E) as (Hm & Ha & Hs).
  cbn [fst] in Hm, Ha, Hs.
  unfold mbind, M_bind, get_self.
  destruct (decide (length clean < 50)%nat) as [Hlt|Hge].
  { intros Hr. injection Hr as <- ->.
    split; [eauto|]. split; intros _; auto. }
  rewrite bool_decide_eq_false_2 by exact Hge.
  unfold fit_and_score at 1, ext, set_self, mbind, M_bind, mret, M_ret.
  destruct (train_test_split _ _) as [[[[X_train X_test] y_train] y_test]|e].
  2:{ intros Hr. injection Hr as <- ->.
      split; [eauto|]. split; [discriminate|]. intros _. auto. }
  destruct (scaler_fit X_train) as [sc|e].
  2:{ intros Hr. injection Hr as <- ->.
      split; [eauto|]. split; [discriminate|]. intros _. auto. }
  destruct (scaler_transform sc X_train) as [X_train_scaled|e].
  2:{ intros Hr. injection Hr as <- <- <-.
      split; [eauto|]. split; [discriminate|]. intros _. auto. }
  destruct (scaler_transform sc X_test) as [X_test_scaled|e].
  2:{ intros Hr. injection Hr as <- <- <-.
      split; [eauto|]. split; [discriminate|]. intros _. auto. }
  intros Hr. split; [|split; discriminate].
  match type of Hr with
  | match ?m with _ => _ end = _ => destruct m as [[b|e] s3]
  end; injection Hr as <- _; eauto.
Qed.

Section TrainingRuns.

Context `{Sklearn}.
Variable fsqrt : F64 → F64.

Lemma train_model_run (self : MLPredictor) (h : heap) (data : loc)
  (df : DataFrame) (close volume : column) :
  h !! data = Some df →
  df_cols df !! "Close" = Some close →
  df_cols df !! "Volume" = Some volume →
  let clean := dropna (length (df_index df)) (training_columns close volume) in
  let self1 := set_feature_columns trained_features self in
  let s1 := (self1, <[data := prepared fsqrt close volume df]> h) in
  train_model fsqrt data (self, h)
  = if decide (length clean < 50)%nat then (Ok false, s1)
    else try_except (fit_and_score self1 clean) (λ _, mret false) s1.
Proof.
  intros Hh Hc Hv clean self1 s1.
  unfold train_model, try_except. unfold mbind at 1, M_bind at 1.
  rewrite (clean_training_data_run fsqrt self h data df close volume Hh Hc Hv).
  fold clean self1 s1. unfold mbind, M_bind, get_self.
  destruct (decide (length clean < 50)%nat); reflexivity.
Qed.

End TrainingRuns.

Lemma zigzag_60_clean_rows :
  length (dropna (length (df_index (raw_frame (zigzag_prices 60)
                                      (flat_volume 60))))
            (training_columns (zigzag_prices 60) (flat_volume 60)))
  = 11%nat.
Proof. lazy. reflexivity. Qed.

Lemma failed_training_keeps_model_witness :
  ∃ self' h',
    train_model fsqrt_dec 1
      (trained_predictor, store_of (zigzag_prices 60) (flat_volume 60))
    = (Ok false, (self', h'))
    ∧ model self' = model trained_predictor
    ∧ accuracy self' = accuracy trained_predictor
    ∧ scaler self' = scaler trained_predictor.
Proof.
  pose proof (train_model_run fsqrt_dec trained_predictor
                (store_of (zigzag_prices 60) (flat_volume 60)) 1
                (raw_frame (zigzag_prices 60) (flat_volume 60))
                (zigzag_prices 60) (flat_volume 60)
                eq_refl eq_refl eq_refl) as Hrun.
  cbv zeta in Hrun. rewrite zigzag_60_clean_rows in Hrun.
  destruct (decide (11 < 50)%nat) as [_|Hn]; [|exfalso; lia].
  eexists _, _. split; [exact Hrun|].
  destruct (failed_training_keeps_model fsqrt_dec 1 trained_predictor
              _ _ _ _ Hrun) as (_ & Hins & _).
  destruct Hins as (_ & Hm & Ha & Hs); [|auto].
  unfold insufficient_data.
  rewrite (clean_training_data_run fsqrt_dec trained_predictor
             (store_of (zigzag_prices 60) (flat_volume 60)) 1
             (raw_frame (zigzag_prices 60) (flat_volume 60))
             (zigzag_prices 60) (flat_volume 60) eq_refl eq_refl eq_refl).
  rewrite zigzag_60_clean_rows. reflexivity.
Defined.

Lemma length_features_of (k : nat) (t : table) :
  length (features_of k t) = length t.
Proof. apply length_fmap. Qed.

Lemma falling_99_clean_rows :
  let clean := dropna (length (df_index (raw_frame (falling_prices 99)
                                           (flat_volume 99))))
                 (training_columns (falling_prices 99) (flat_volume 99)) in
  length clean = 50%nat
  ∧ single_class (take 35 (target_of clean)) = true.
Proof. lazy. split; reflexivity. Qed.

(** C8, as worded, fails.  A predictor holding a fitted model is trained
    again, on 99 falling prices: all 50 clean rows carry the label 0, the
    logistic regression is constructed and assigned, its [fit] raises, and
    the call returns [False] with [self.model] now the unfitted classifier;
    the model held before is gone. *)
Lemma failed_fit_replaces_model :
  ∃ self' h',
    train_model fsqrt_dec 1
      (trained_predictor, store_of (falling_prices 99) (flat_volume 99))
    = (Ok false, (self', h'))
    ∧ model self' = Some (Unfitted LogisticRegression)
    ∧ model self' ≠ model trained_predictor
    ∧ accuracy self' = accuracy trained_predictor.
Proof.
  pose proof (train_model_run fsqrt_dec trained_predictor
                (store_of (falling_prices 99) (flat_volume 99)) 1
                (raw_frame (falling_prices 99) (flat_volume 99))
                (falling_prices 99) (flat_volume 99)
                eq_refl eq_refl eq_refl) as Hrun.
  cbv zeta in Hrun.
  destruct falling_99_clean_rows as [Hlen Hsc].
  set (clean := dropna _ _) in *. clearbody clean.
  rewrite Hlen in Hrun.
  destruct (decide (50 < 50)%nat) as [Hn|_]; [exfalso; lia|].
  unfold try_except, fit_and_score in Hrun.
  unfold mbind, M_bind, mret, M_ret, ext, set_self, model_fit, get_self
    in Hrun.
  cbn [train_test_split scaler_fit scaler_transform clf_fit sklearn_small
       fst snd model_type trained_predictor set_feature_columns set_scaler
       set_model model kind_of String.eqb Ascii.eqb Bool.eqb] in Hrun.
  rewrite !length_features_of, !Hlen in Hrun.
  change (50 * 7 / 10)%nat with 35%nat in Hrun.
  unfold mbind, M_bind, ext in Hrun. rewrite Hsc in Hrun.
  cbn [fst snd] in Hrun.
  eexists _, _. split; [exact Hrun|].
  split; [reflexivity|]. split; [discriminate | reflexivity].
Qed.

(** ** No look-ahead in the features

    Every feature column of [train_model] is computed from the bars up to
    its own row: cutting the series after bar [n] and computing, or
    computing and cutting, give the same.  Only [Next_Day_Return] and
    [Target] look one bar ahead. *)

Lemma iloc_take (c : column) (n j : nat) :
  (j < n)%nat → iloc (take n c) j = iloc c j.
Proof. intros Hj. unfold iloc. rewrite lookup_take_lt by exact Hj. reflexivity. Qed.

Lemma take_imap_causal (f : column → nat → F64 → F64) (n : nat) (c : column) :
  (∀ i x, (i < n)%nat → f (take n c) i x = f c i x) →
  take n (imap (f c) c) = imap (f (take n c)) (take n c).
Proof.
  intros Hf. apply list_eq. intros i.
  destruct (decide (i < n)%nat) as [Hi|Hi].
  - rewrite lookup_take_lt by exact Hi. rewrite !list_lookup_imap.
    rewrite lookup_take_lt by exact Hi.
    destruct (c !! i) as [x|]; simpl; [|reflexivity].
    rewrite Hf by exact Hi. reflexivity.
  - rewrite lookup_take_ge by lia. rewrite list_lookup_imap.
    rewrite lookup_take_ge by lia. reflexivity.
Qed.

Lemma diff_take (n : nat) (c : column) : take n (diff c) = diff (take n c).
Proof.
  unfold diff.
  apply (take_imap_causal
           (λ c i x, match i with O => NaN | S j => (x - iloc c j)%F end)).
  intros [|j] x Hi; [reflexivity|]. rewrite iloc_take by lia. reflexivity.
Qed.

Lemma pct_change_take (n : nat) (c : column) :
  take n (pct_change c) = pct_change (take n c).
Proof.
  unfold pct_change.
  apply (take_imap_causal
           (λ c i x, match i with O => NaN | S j => (x / iloc c j - F 1)%F end)).
  intros [|j] x Hi; [reflexivity|]. rewrite iloc_take by lia. reflexivity.
Qed.

Lemma window_take (w i n : nat) (c : column) :
  (w ≤ S i)%nat → (i < n)%nat → window w i (take n c) = window w i c.
Proof.
  intros Hw Hi. unfold window. apply list_eq. intros j.
  destruct (decide (j < w)%nat) as [Hj|Hj].
  - rewrite !lookup_take_lt by exact Hj. rewrite !lookup_drop.
    rewrite lookup_take_lt by lia. reflexivity.
  - rewrite !lookup_take_ge by lia. reflexivity.
Qed.

Lemma rolling_mean_at_take (w i n : nat) (c : column) :
  (i < n)%nat → rolling_mean_at w (take n c) i = rolling_mean_at w c i.
Proof.
  intros Hi. unfold rolling_mean_at.
  destruct (decide (0 < w ≤ S i)%nat) as [[_ Hw]|_]; [|reflexivity].
  rewrite window_take by assumption. reflexivity.
Qed.

Lemma rolling_mean_take (w n : nat) (c : column) :
  take n (rolling_mean w c) = rolling_mean w (take n c).
Proof.
  unfold rolling_mean.
  apply (take_imap_causal (λ c i _, rolling_mean_at w c i)).
  intros i _ Hi. apply rolling_mean_at_take, Hi.
Qed.

Lemma ewm_loop_take (f : Q) (c : column) : ∀ (n : nat) (st : F64 * Q * nat),
  take n (ewm_loop f st c) = ewm_loop f st (take n c).
Proof.
  induction c as [|x c IH]; intros [|n] st; try reflexivity.
  cbn [ewm_loop take]. rewrite IH. reflexivity.
Qed.

Lemma ewm_mean_take (span n : nat) (c : column) :
  take n (ewm_mean span c) = ewm_mean span (take n c).
Proof.
  unfold ewm_mean. rewrite fmap_take.
  destruct ((λ x, if is_finite x then x else NaN) <$> c) as [|x c'],
    n as [|n]; try reflexivity.
  cbn [take]. rewrite ewm_loop_take. reflexivity.
Qed.

Lemma zipF_take (f : F64 → F64 → F64) (n : nat) (a b : column) :
  take n (zipF f a b) = zipF f (take n a) (take n b).
Proof. unfold zipF. apply zip_with_take. Qed.

Lemma rsi_series_take (period n : nat) (close : column) :
  take n (rsi_series period close) = rsi_series period (take n close).
Proof.
  unfold rsi_series, rsi_gain, rsi_loss, where_.
  rewrite <- fmap_take, zipF_take, !rolling_mean_take.
  rewrite <- !fmap_take, diff_take. reflexivity.
Qed.

Lemma macd_series_take (fast slow signal n : nat) (close : column) :
  let m := macd_series fast slow signal close in
  let m' := macd_series fast slow signal (take n close) in
  take n m.1.1 = m'.1.1 ∧ take n m.1.2 = m'.1.2 ∧ take n m.2 = m'.2.
Proof.
  unfold macd_series. cbn [fst snd].
  assert (Hm : take n (zipF fsub (ewm_mean fast close) (ewm_mean slow close))
               = zipF fsub (ewm_mean fast (take n close))
                   (ewm_mean slow (take n close))).
  { rewrite zipF_take, !ewm_mean_take. reflexivity. }
  split; [exact Hm|]. split.
  - rewrite ewm_mean_take, Hm. reflexivity.
  - rewrite zipF_take, ewm_mean_take, Hm. reflexivity.
Qed.

Lemma volume_ratio_series_take (n : nat) (volume : column) :
  take n (volume_ratio_series volume) = volume_ratio_series (take n volume).
Proof.
  unfold volume_ratio_series, fillna.
  rewrite <- fmap_take, zipF_take, rolling_mean_take. reflexivity.
Qed.

(** The seven feature columns, cut after [n] bars, are the feature columns
    of the series cut after [n] bars. *)
Lemma features_take (n : nat) (close volume : column) :
  take 7 (take n <$> training_columns close volume)
  = take 7 (training_columns (take n close) (take n volume)).
Proof.
  unfold training_columns, moving_averages_series.
  destruct (macd_series_take 12 26 9 n close) as (Hm & _ & Hh).
  destruct (macd_series 12 26 9 close) as [[macd sl] hist].
  destruct (macd_series 12 26 9 (take n close)) as [[macd' sl'] hist'].
  cbn [fst snd] in Hm, Hh. cbn [fmap list_fmap take].
  rewrite rsi_series_take, Hm, volume_ratio_series_take, !rolling_mean_take,
    pct_change_take, Hh.
  reflexivity.
Qed.

(** Hence a feature value at row [t] does not change when bars after [t]
    are replaced. *)
Lemma features_ignore_later_bars (t : nat) (close close' volume volume' : column) :
  take (S t) close = take (S t) close' →
  take (S t) volume = take (S t) volume' →
  ∀ k col col', (k < 7)%nat →
    training_columns close volume !! k = Some col →
    training_columns close' volume' !! k = Some col' →
    col !! t = col' !! t.
Proof.
  intros Hc Hv k col col' Hk Hcol Hcol'.
  pose proof (features_take (S t) close volume) as H1.
  pose proof (features_take (S t) close' volume') as H2.
  rewrite Hc, Hv, <- H2 in H1.
  apply (f_equal (λ l, l !! k)) in H1.
  rewrite !lookup_take_lt, !list_lookup_fmap, Hcol, Hcol' in H1 by exact Hk.
  simpl in H1. injection H1 as H1.
  apply (f_equal (λ l, l !! t)) in H1.
  rewrite !lookup_take_lt in H1 by lia. exact H1.
Qed.

(** The label does look ahead: two series equal up to bar 1 and different
    at bar 2 have different targets at bar 1. *)
Lemma target_looks_ahead :
  take 2 [F 100; F 101; F 102] = take 2 [F 100; F 101; F 99]
  ∧ target_series [F 100; F 101; F 102] !! 1%nat = Some (F 1)
  ∧ target_series [F 100; F 101; F 99] !! 1%nat = Some (F 0).
Proof. repeat split. Qed.

(** [dropna] keeps exactly the rows without a null entry. *)
Lemma dropna_spec (n : nat) (cols : list column) (i : nat) (r : list F64) :
  (i, r) ∈ dropna n cols
  ↔ (i < n)%nat ∧ r = row cols i ∧ Forall (λ x, isna x = false) r.
Proof.
  unfold dropna. rewrite list_elem_of_omap. split.
  - intros (j & Hj & Hr). apply elem_of_seq in Hj.
    destruct (forallb _ (row cols j)) eqn:E; [|discriminate].
    injection Hr as <- <-. split; [lia|]. split; [reflexivity|].
    apply Forall_forall. intros x Hx. rewrite forallb_forall in E.
    apply list_elem_of_In in Hx. specialize (E x Hx).
    destruct (isna x); [discriminate | reflexivity].
  - intros (Hi & -> & Hall). exists i. split; [apply elem_of_seq; lia|].
    assert (E : forallb (λ x, negb (isna x)) (row cols i) = true).
    { apply forallb_forall. intros x Hx. apply list_elem_of_In in Hx.
      rewrite Forall_forall in Hall. rewrite (Hall x Hx). reflexivity. }
    rewrite E. reflexivity.
Qed.

(** ** The label of the final row *)

Lemma length_pct_change (c : column) : length (pct_change c) = length c.
Proof. apply length_imap. Qed.

Lemma length_shift_back (c : column) : length (shift_back c) = length c.
Proof. apply length_imap. Qed.

(** The [Target] column never holds a null: the comparison with a null
    next-day return is false, and [astype(int)] makes it 0. *)
Lemma target_never_null (close : column) :
  Forall (λ x, isna x = false) (target_series close).
Proof.
  unfold target_series, gt0_astype_int. apply Forall_fmap, Forall_true.
  intros x. change (isna (if fgt x (F 0) then F 1 else F 0) = false).
  destruct (fgt x (F 0)); reflexivity.
Qed.

(** On every non-empty series the next-day return of the final row is
    null and its target is 0. *)
Lemma final_label_is_zero (close : column) :
  close ≠ [] →
  iloc (shift_back (pct_change close)) (length close - 1) = NaN
  ∧ iloc (target_series close) (length close - 1) = F 0.
Proof.
  intros Hne.
  assert (Hn : (length close - 1 < length close)%nat).
  { destruct close; [congruence | simpl; lia]. }
  assert (Hs : shift_back (pct_change close) !! (length close - 1)%nat
               = Some NaN).
  { unfold shift_back. rewrite list_lookup_imap.
    destruct (lookup_lt_is_Some_2 (pct_change close) (length close - 1))
      as [x ->]; [rewrite length_pct_change; exact Hn|].
    simpl. f_equal. unfold iloc.
    rewrite (lookup_ge_None_2 (pct_change close)); [reflexivity|].
    rewrite length_pct_change. lia. }
  split.
  - unfold iloc. rewrite Hs. reflexivity.
  - unfold iloc, target_series, gt0_astype_int.
    rewrite list_lookup_fmap, Hs. reflexivity.
Qed.

(** C6.  On 99 zigzag prices the rows kept for training are the rows 49
    to 98.  The final row, 98, is among them: its next-day return is null,
    yet its [Target] is 0, so [dropna] keeps it and it reaches the
    classifier labelled as a down day.  (The feature list itself holds
    neither [Target] nor [Next_Day_Return].) *)
Theorem final_row_kept_with_label_zero :
  let close := zigzag_prices 99 in
  let volume := flat_volume 99 in
  ∃ clean s1,
    clean_training_data fsqrt_dec 1
      (MLPredictor_init "DecisionTree", store_of close volume)
    = (Ok clean, s1)
    ∧ (fst <$> clean) = seq 49 50
    ∧ last (fst <$> clean) = Some (length close - 1)%nat
    ∧ iloc (shift_back (pct_change close)) 98 = NaN
    ∧ iloc (target_series close) 98 = F 0
    ∧ last (target_of clean) = Some (F 0)
    ∧ feature_columns s1.1 = trained_features
    ∧ ("Target" ∉ trained_features)
    ∧ ("Next_Day_Return" ∉ trained_features).
Proof.
  intros close volume. subst close volume.
  eexists _, _. split.
  { apply (clean_training_data_run fsqrt_dec _ _ 1
             (raw_frame (zigzag_prices 99) (flat_volume 99))
             (zigzag_prices 99) (flat_volume 99)); reflexivity. }
  split; [lazy; reflexivity|].
  split; [lazy; reflexivity|].
  split; [lazy; reflexivity|].
  split; [lazy; reflexivity|].
  split; [lazy; reflexivity|].
  split; [reflexivity|].
  unfold trained_features. rewrite !not_elem_of_cons.
  split; repeat split; try discriminate; apply not_elem_of_nil.
Qed.

(** * Further properties *)

(** ** The range of the RSI *)




(** ** Exponential and simple means stay among the prices *)

Lemma Forall_zipF (P R S : F64 → Prop) (f : F64 → F64 → F64) (a b : column) :
  (∀ x y, P x → R y → S (f x y)) →
  Forall P a → Forall R b → Forall S (zipF f a b).
Proof.
  intros Hf Ha. revert b. unfold zipF.
  induction Ha as [|x a Hx _ IH]; intros [|y b] Hb; simpl; try constructor.
  - inversion Hb; subst. apply Hf; assumption.
  - inversion Hb; subst. apply IH; assumption.
Qed.

Lemma fin_with_finite (P : Q → Prop) (c : column) :
  Forall (fin_with P) c → Forall (λ x, is_finite x = true) c.
Proof.
  intros Hc. eapply Forall_impl; [exact Hc|].
  intros x (q & -> & _). reflexivity.
Qed.

(** On finite entries the kernel sees the column as it is. *)
Lemma ewm_sees_finite (c : column) :
  Forall (λ x, is_finite x = true) c →
  (λ x, if is_finite x then x else NaN) <$> c = c.
Proof.
  induction 1 as [|x c Hx _ IH]; [reflexivity|].
  cbn [fmap list_fmap] in *. rewrite Hx, IH. reflexivity.
Qed.

Lemma moderate_F (z : Z) : (Z.abs z ≤ 2 ^ 500)%Z → moderate (F z).
Proof.
  intros Hz. exists (inject_Z z). split; [reflexivity|].
  rewrite <- inject_Z_opp, <- !Zle_Qle. lia.
Qed.

Section EwmInvariant.

(** A set of rationals closed under the weighted average the kernel takes. *)
Variable P : Q → Prop.
Hypothesis P_avg : ∀ w x y, 0 <= w → P x → P y → P ((w * x + y) / (w + 1)).

Lemma ewm_loop_inv (f : Q) (c : column) :
  0 <= f → Forall (fin_with P) c →
  ∀ (wq w : Q) (n : nat), 0 <= w → P wq → (1 ≤ n)%nat →
    Forall (fin_with P) (ewm_loop f (Fin wq, w, n) c).
Proof.
  intros Hf Hc. induction Hc as [|x c (q & -> & Hq) _ IH];
    intros wq w n Hw Hwq Hn; [constructor|].
  assert (Hw' : 0 <= w * f) by nra.
  cbn [ewm_loop ewm_step isna fmul fadd fdiv snd fst].
  rewrite (Qeq_bool_false (w * f + 1)) by lra.
  destruct (decide (1 ≤ S n)%nat) as [_|?]; [|lia].
  constructor.
  - eexists. split; [reflexivity|]. apply P_avg; assumption.
  - apply IH; [lra | apply P_avg; assumption | lia].
Qed.

Lemma ewm_mean_inv (span : nat) (c : column) :
  (1 ≤ span)%nat → Forall (fin_with P) c →
  Forall (fin_with P) (ewm_mean span c).
Proof.
  intros Hs Hc. unfold ewm_mean.
  rewrite (ewm_sees_finite c (fin_with_finite P c Hc)).
  destruct Hc as [|x c (q & -> & Hq) Hc]; [constructor|].
  constructor; [eexists; eauto|].
  apply ewm_loop_inv; try assumption; try lra; try (cbn; lia).
  assert (HP : 1 <= Qnat span).
  { unfold Qnat. change 1 with (inject_Z 1). rewrite <- Zle_Qle. lia. }
  assert (Hd : 0 < Qnat span + 1) by lra.
  assert (2 / (Qnat span + 1) <= 1).
  { apply Qle_shift_div_r; [exact Hd|]. lra. }
  lra.
Qed.

End EwmInvariant.

Lemma length_ewm_loop (f : Q) (c : column) : ∀ st,
  length (ewm_loop f st c) = length c.
Proof. induction c; intros; simpl; auto. Qed.

Lemma length_ewm_mean (span : nat) (c : column) :
  length (ewm_mean span c) = length c.
Proof.
  unfold ewm_mean.
  rewrite <- (length_fmap (λ x, if is_finite x then x else NaN) c).
  destruct (_ <$> c); simpl; [|rewrite length_ewm_loop]; reflexivity.
Qed.

Lemma finite_fin_with (c : column) :
  Forall (λ x, is_finite x = true) c ↔ Forall (fin_with (λ _, True)) c.
Proof.
  split; intros Hc; (eapply Forall_impl; [exact Hc|]).
  - intros [q| | |] Hx; try discriminate. exists q. auto.
  - intros x (q & -> & _). reflexivity.
Qed.

Lemma avg_between (lo hi w x y : Q) :
  0 <= w → lo <= x ∧ x <= hi → lo <= y ∧ y <= hi →
  lo <= (w * x + y) / (w + 1) ∧ (w * x + y) / (w + 1) <= hi.
Proof.
  intros Hw [Hx1 Hx2] [Hy1 Hy2]. assert (Hd : 0 < w + 1) by lra. split.
  - apply Qle_shift_div_l; [exact Hd|]. nra.
  - apply Qle_shift_div_r; [exact Hd|]. nra.
Qed.

Lemma avg_constant (c w x y : Q) :
  0 <= w → x == c → y == c → (w * x + y) / (w + 1) == c.
Proof. intros Hw -> ->. field. lra. Qed.

Lemma macd_series_lengths (fast slow signal : nat) (close : column) :
  let m := macd_series fast slow signal close in
  length m.1.1 = length close ∧ length m.1.2 = length close
  ∧ length m.2 = length close.
Proof.
  unfold macd_series, zipF. cbn [fst snd].
  rewrite !length_zip_with, !length_ewm_mean, !length_zip_with,
    !length_ewm_mean. lia.
Qed.

Lemma calculate_macd_run (h : heap) (data : loc) (df : DataFrame)
  (close : column) (fast slow signal : nat) :
  h !! data = Some df → df_cols df !! "Close" = Some close →
  calculate_macd data fast slow signal h
  = (Ok (macd_series fast slow signal close), h).
Proof.
  intros Hh Hc. unfold calculate_macd, mbind, M_bind.
  rewrite (get_col_run h data df "Close" close Hh Hc). reflexivity.
Qed.

Lemma macd_series_finite (close : column) :
  Forall (λ x, is_finite x = true) close →
  let m := macd_series 12 26 9 close in
  Forall (λ x, is_finite x = true) m.1.1
  ∧ Forall (λ x, is_finite x = true) m.1.2
  ∧ Forall (λ x, is_finite x = true) m.2.
Proof.
  intros Hfin. unfold macd_series. cbn [fst snd].
  assert (Hsub : ∀ x y, fin_with (λ _, True) x → fin_with (λ _, True) y →
                        fin_with (λ _, True) (x - y)%F).
  { intros x y (a & -> & _) (b & -> & _). eexists. split; [reflexivity|auto]. }
  assert (He : ∀ span, (1 ≤ span)%nat → ∀ c, Forall (fin_with (λ _, True)) c →
                 Forall (fin_with (λ _, True)) (ewm_mean span c)).
  { intros span Hs c. apply ewm_mean_inv; auto. }
  apply finite_fin_with in Hfin.
  assert (Hm : Forall (fin_with (λ _, True))
                 (zipF fsub (ewm_mean 12 close) (ewm_mean 26 close))).
  { apply (Forall_zipF _ _ _ _ _ _ Hsub); apply He; (lia || assumption). }
  assert (Hs : Forall (fin_with (λ _, True))
                 (ewm_mean 9 (zipF fsub (ewm_mean 12 close)
                                (ewm_mean 26 close)))).
  { apply He; (lia || assumption). }
  rewrite !finite_fin_with. split; [exact Hm|]. split; [exact Hs|].
  apply (Forall_zipF _ _ _ _ _ _ Hsub); assumption.
Qed.

(** X2.  The MACD has no warm-up: on prices of moderate size (at most
    2^500 in magnitude, so that no weighted mean overflows) the MACD line,
    its signal line and the histogram hold a number at every bar, the
    first included. *)
Theorem macd_defined_everywhere (h : heap) (data : loc) (df : DataFrame)
  (close : column) :
  h !! data = Some df → df_cols df !! "Close" = Some close →
  Forall moderate close →
  ∃ macd signal_line histogram,
    calculate_macd data 12 26 9 h = (Ok (macd, signal_line, histogram), h)
    ∧ length macd = length close
    ∧ length signal_line = length close
    ∧ length histogram = length close
    ∧ Forall (λ x, is_finite x = true) macd
    ∧ Forall (λ x, is_finite x = true) signal_line
    ∧ Forall (λ x, is_finite x = true) histogram.
Proof.
  intros Hh Hc Hmod. pose proof (fin_with_finite _ close Hmod) as Hfin.
  destruct (macd_series_lengths 12 26 9 close) as (L1 & L2 & L3).
  destruct (macd_series_finite close Hfin) as (F1 & F2 & F3).
  rewrite (calculate_macd_run h data df close 12 26 9 Hh Hc).
  destruct (macd_series 12 26 9 close) as [[macd signal_line] histogram].
  exists macd, signal_line, histogram.
  split; [reflexivity|]. repeat split; assumption.
Qed.

Lemma macd_defined_everywhere_witness :
  ∃ macd signal_line histogram,
    calculate_macd 1 12 26 9 (store_of (zigzag_prices 5) (flat_volume 5))
    = (Ok (macd, signal_line, histogram),
       store_of (zigzag_prices 5) (flat_volume 5))
    ∧ length macd = 5%nat
    ∧ Forall (λ x, is_finite x = true) histogram.
Proof.
  destruct (macd_defined_everywhere
              (store_of (zigzag_prices 5) (flat_volume 5)) 1
              (raw_frame (zigzag_prices 5) (flat_volume 5))
              (zigzag_prices 5))
    as (m & s & hist & Hr & Hl & _ & _ & _ & _ & Hh).
  - reflexivity.
  - reflexivity.
  - repeat constructor; apply moderate_F; vm_compute; discriminate.
  - exists m, s, hist. split; [exact Hr|]. split; [exact Hl | exact Hh].
Defined.

(** X3.  In a flat market the MACD vanishes: when every price equals [c],
    every entry of the MACD line, of the signal line and of the histogram
    is 0. *)
Theorem macd_flat_market (h : heap) (data : loc) (df : DataFrame)
  (close : column) (c : Q) :
  h !! data = Some df → df_cols df !! "Close" = Some close →
  Forall (λ x, x ≈ Fin c) close →
  ∃ macd signal_line histogram,
    calculate_macd data 12 26 9 h = (Ok (macd, signal_line, histogram), h)
    ∧ Forall (λ x, x ≈ F 0) macd
    ∧ Forall (λ x, x ≈ F 0) signal_line
    ∧ Forall (λ x, x ≈ F 0) histogram.
Proof.
  intros Hh Hc Hflat.
  rewrite (calculate_macd_run h data df close 12 26 9 Hh Hc).
  unfold macd_series. eexists _, _, _. split; [reflexivity|].
  assert (Hin : Forall (fin_with (λ q, q == c)) close).
  { eapply Forall_impl; [exact Hflat|].
    intros [q| | |] Hx; try contradiction. exists q. auto. }
  assert (He : ∀ span k col, (1 ≤ span)%nat →
                 Forall (fin_with (λ q, q == k)) col →
                 Forall (fin_with (λ q, q == k)) (ewm_mean span col)).
  { intros span k col Hs. apply ewm_mean_inv; [|exact Hs].
    intros w x y. apply avg_constant. }
  assert (Hsub : ∀ k x y, fin_with (λ q, q == k) x → fin_with (λ q, q == k) y →
                          fin_with (λ q, q == 0) (x - y)%F).
  { intros k x y (a & -> & Ha) (b & -> & Hb). eexists.
    split; [reflexivity|]. simpl. lra. }
  assert (Hm : Forall (fin_with (λ q, q == 0))
                 (zipF fsub (ewm_mean 12 close) (ewm_mean 26 close))).
  { apply (Forall_zipF _ _ _ _ _ _ (Hsub c)); apply He; (lia || assumption). }
  assert (Hs : Forall (fin_with (λ q, q == 0))
                 (ewm_mean 9 (zipF fsub (ewm_mean 12 close)
                                (ewm_mean 26 close)))).
  { apply He; (lia || assumption). }
  assert (Hz : ∀ x, fin_with (λ q, q == 0) x → x ≈ F 0).
  { intros x (q & -> & Hq). exact Hq. }
  split; [exact (Forall_impl _ _ _ Hm Hz)|].
  split; [exact (Forall_impl _ _ _ Hs Hz)|].
  eapply Forall_impl; [|exact Hz].
  apply (Forall_zipF _ _ _ _ _ _ (Hsub 0)); assumption.
Qed.

Lemma macd_flat_market_witness :
  ∃ macd signal_line histogram,
    calculate_macd 1 12 26 9 (store_of (constant_prices 5) (flat_volume 5))
    = (Ok (macd, signal_line, histogram),
       store_of (constant_prices 5) (flat_volume 5))
    ∧ Forall (λ x, x ≈ F 0) histogram.
Proof.
  destruct (macd_flat_market
              (store_of (constant_prices 5) (flat_volume 5)) 1
              (raw_frame (constant_prices 5) (flat_volume 5))
              (constant_prices 5) 100)
    as (m & s & hist & Hr & _ & _ & Hh).
  - reflexivity.
  - reflexivity.
  - apply Forall_forall. intros x Hx.
    apply elem_of_replicate in Hx as [-> _]. reflexivity.
  - exists m, s, hist. split; [exact Hr | exact Hh].
Defined.

(** ** Moving averages and Bollinger bands *)

Lemma Qnat_S (n : nat) : Qnat (S n) == Qnat n + 1.
Proof.
  unfold Qnat. rewrite Nat2Z.inj_succ. unfold Z.succ.
  rewrite inject_Z_plus. reflexivity.
Qed.

Lemma finite_sum_bounds (lo hi : Q) (l : list F64) :
  Forall (fin_with (λ q, lo <= q ∧ q <= hi)) l →
  ∃ s, finite_sum l = Some s
       ∧ Qnat (length l) * lo <= s ∧ s <= Qnat (length l) * hi.
Proof.
  induction 1 as [|x l (q & -> & Hq1 & Hq2) _ (s & Hs & Hlo & Hhi)].
  - exists 0. split; [reflexivity|].
    change (Qnat (length (@nil F64))) with 0. split; lra.
  - exists (q + s). cbn [finite_sum foldr length].
    unfold finite_sum in Hs. rewrite Hs. split; [reflexivity|].
    rewrite Qnat_S. split; lra.
Qed.

Lemma window_length (w i : nat) (c : column) :
  (w ≤ S i)%nat → (i < length c)%nat → length (window w i c) = w.
Proof.
  intros Hw Hi. unfold window. rewrite length_take, length_drop. lia.
Qed.

Lemma rolling_mean_at_between (lo hi : Q) (w i : nat) (c : column) :
  (i < length c)%nat →
  Forall (fin_with (λ q, lo <= q ∧ q <= hi)) c →
  rolling_mean_at w c i = NaN
  ∨ fin_with (λ q, lo <= q ∧ q <= hi) (rolling_mean_at w c i).
Proof.
  intros Hi Hc. unfold rolling_mean_at.
  destruct (decide (0 < w ≤ S i)%nat) as [[Hw0 Hw]|_]; [|left; reflexivity].
  right.
  destruct (finite_sum_bounds lo hi (window w i c)) as (s & Hs & Hlo & Hhi).
  { apply window_Forall, Hc. }
  rewrite Hs. rewrite window_length in Hlo, Hhi by assumption.
  pose proof (Qnat_pos w Hw0) as HP.
  eexists. split; [reflexivity|]. split.
  - apply Qle_shift_div_l; [exact HP|]. lra.
  - apply Qle_shift_div_r; [exact HP|]. lra.
Qed.

(** X4.  A moving average never leaves the range of the prices: when all
    prices are on the binary grid (so that the sum of a window is exact
    in double precision) and lie between [lo] and [hi], every entry of
    MA20 and of MA50 is null or a number between [lo] and [hi]. *)
Theorem moving_averages_between (h : heap) (data : loc) (df : DataFrame)
  (close : column) (lo hi : Q) :
  h !! data = Some df → df_cols df !! "Close" = Some close →
  Forall on_grid close →
  Forall (fin_with (λ q, lo <= q ∧ q <= hi)) close →
  ∃ ma_short ma_long,
    calculate_moving_averages data 20 50 h = (Ok (ma_short, ma_long), h)
    ∧ Forall (λ x, x = NaN ∨ fin_with (λ q, lo <= q ∧ q <= hi) x) ma_short
    ∧ Forall (λ x, x = NaN ∨ fin_with (λ q, lo <= q ∧ q <= hi) x) ma_long.
Proof.
  intros Hh Hc _ Hin.
  rewrite (calculate_moving_averages_run h data df close 20 50 Hh Hc).
  eexists _, _. split; [reflexivity|].
  split; apply Forall_lookup; intros i x Hx;
    pose proof (lookup_lt_Some _ _ _ Hx) as Hi;
    rewrite length_rolling_mean in Hi;
    rewrite rolling_mean_lookup in Hx by exact Hi;
    injection Hx as <-; apply rolling_mean_at_between; assumption.
Qed.

Lemma moving_averages_between_witness :
  ∃ ma_short ma_long,
    calculate_moving_averages 1 20 50
      (store_of (rising_prices 60) (flat_volume 60))
    = (Ok (ma_short, ma_long), store_of (rising_prices 60) (flat_volume 60))
    ∧ Forall (λ x, x = NaN ∨ fin_with (λ q, 100 <= q ∧ q <= 159) x) ma_long.
Proof.
  destruct (moving_averages_between
              (store_of (rising_prices 60) (flat_volume 60)) 1
              (raw_frame (rising_prices 60) (flat_volume 60))
              (rising_prices 60) 100 159) as (s & l & Hr & _ & Hl).
  - reflexivity.
  - reflexivity.
  - apply Forall_forall. intros x Hx.
    apply list_elem_of_fmap in Hx as (i & -> & Hi).
    apply elem_of_seq in Hi. apply on_grid_F.
    change (2 ^ 30)%Z with 1073741824%Z. lia.
  - apply Forall_forall. intros x Hx.
    apply list_elem_of_fmap in Hx as (i & -> & Hi).
    apply elem_of_seq in Hi. eexists. split; [reflexivity|].
    unfold inject_Z, Qle. simpl. lia.
  - exists s, l. split; [exact Hr | exact Hl].
Defined.

Lemma rolling_std_lookup (fsqrt : F64 → F64) (w : nat) (c : column) (i : nat) :
  (i < length c)%nat →
  rolling_std fsqrt w c !! i = Some (rolling_std_at fsqrt w c i).
Proof.
  intros Hi. unfold rolling_std. rewrite list_lookup_imap.
  destruct (lookup_lt_is_Some_2 c i Hi) as [x ->]. reflexivity.
Qed.

Lemma Qsquare_nonneg (t : Q) : 0 <= t * t.
Proof.
  destruct (Qlt_le_dec t 0).
  - assert (E : t * t == (- t) * (- t)) by ring.
    rewrite E. apply Qmult_le_0_compat; lra.
  - apply Qmult_le_0_compat; lra.
Qed.

Lemma finite_sum_squares (m : Q) (l : list F64) :
  Forall (λ x, is_finite x = true) l →
  ∃ v, finite_sum ((λ x, ((x - Fin m) * (x - Fin m))%F) <$> l) = Some v
       ∧ 0 <= v.
Proof.
  induction 1 as [|x l Hx _ (v & Hv & Hv0)].
  - exists 0. split; [reflexivity | lra].
  - destruct x as [q| | |]; try discriminate.
    exists ((q + - m) * (q + - m) + v).
    cbn [fmap list_fmap finite_sum foldr fsub fadd fneg fmul].
    unfold finite_sum in Hv. cbn [fmap] in Hv. rewrite Hv.
    split; [reflexivity|]. pose proof (Qsquare_nonneg (q + - m)). lra.
Qed.

Lemma calculate_bollinger_bands_run (fsqrt : F64 → F64) (h : heap)
  (data : loc) (df : DataFrame) (close : column) (period : nat) (k : F64) :
  h !! data = Some df → df_cols df !! "Close" = Some close →
  calculate_bollinger_bands fsqrt data period k h
  = (Ok (bollinger_series fsqrt period k close), h).
Proof.
  intros Hh Hc. unfold calculate_bollinger_bands, mbind, M_bind.
  rewrite (get_col_run h data df "Close" close Hh Hc). reflexivity.
Qed.

(** X5.  Bollinger bands, on prices of moderate size (at most 2^500 in
    magnitude, so that no variance overflows) and with a square root that
    maps non-negative numbers to non-negative numbers: the middle band is
    the 20-bar moving average; the three bands are null on the first 19
    bars; from bar 19 on they are numbers with lower <= middle <= upper. *)
Theorem bollinger_bands_ordered (fsqrt : F64 → F64) (h : heap) (data : loc)
  (df : DataFrame) (close : column) :
  sqrt_like fsqrt →
  h !! data = Some df → df_cols df !! "Close" = Some close →
  Forall moderate close →
  ∃ upper middle lower,
    calculate_bollinger_bands fsqrt data 20 (F 2) h
    = (Ok (upper, middle, lower), h)
    ∧ middle = rolling_mean 20 close
    ∧ ∀ i, (i < length close)%nat →
        ((i < 19)%nat →
           upper !! i = Some NaN ∧ middle !! i = Some NaN
           ∧ lower !! i = Some NaN)
        ∧ ((19 ≤ i)%nat →
           ∃ lo mid up,
             lower !! i = Some (Fin lo) ∧ middle !! i = Some (Fin mid)
             ∧ upper !! i = Some (Fin up)
             ∧ lo <= mid ∧ mid <= up).
Proof.
  intros Hsq Hh Hc Hmod. pose proof (fin_with_finite _ close Hmod) as Hfin.
  rewrite (calculate_bollinger_bands_run fsqrt h data df close 20 (F 2) Hh Hc).
  unfold bollinger_series. eexists _, _, _. split; [reflexivity|].
  split; [reflexivity|]. intros i Hi.
  unfold zipF. rewrite !lookup_zip_with, !list_lookup_fmap.
  rewrite rolling_mean_lookup, rolling_std_lookup by exact Hi.
  cbn [mbind option_bind fmap option_fmap option_map].
  unfold rolling_mean_at, rolling_std_at. split.
  - intros Hlt. destruct (decide (0 < 20 ≤ S i)%nat) as [[_ ?]|_]; [lia|].
    repeat split.
  - intros Hge. destruct (decide (0 < 20 ≤ S i)%nat) as [_|?]; [|lia].
    pose proof (window_Forall _ 20 i _ Hfin) as HW.
    destruct (finite_sum_finite _ HW) as [s Hs]. rewrite Hs.
    destruct (finite_sum_squares (s / Qnat 20) _ HW) as (v & Hv & Hv0).
    rewrite Hv. cbn [fdiv].
    change (Qeq_bool (Qnat 20 - 1) 0) with false. cbv iota.
    destruct (Hsq (v / (Qnat 20 - 1))) as (r & Hr & Hr0).
    { apply Qle_shift_div_l; [reflexivity | lra]. }
    rewrite Hr. cbn [fmul fadd fsub fneg].
    eexists _, _, _. split; [reflexivity|]. split; [reflexivity|].
    split; [reflexivity|]. change (inject_Z 2) with 2.
    split; lra.
Qed.

Lemma fsqrt_dec_sqrt_like : sqrt_like fsqrt_dec.
Proof.
  intros q Hq. unfold fsqrt_dec.
  apply Qle_bool_iff in Hq. rewrite Hq.
  eexists. split; [reflexivity|].
  unfold Qle. simpl. pose proof (Z.sqrt_nonneg (Qnum q * 10 ^ 12 / Z.pos (Qden q))).
  lia.
Qed.

Lemma bollinger_bands_ordered_witness :
  ∃ upper middle lower,
    calculate_bollinger_bands fsqrt_dec 1 20 (F 2)
      (store_of (rising_prices 30) (flat_volume 30))
    = (Ok (upper, middle, lower), store_of (rising_prices 30) (flat_volume 30))
    ∧ middle = rolling_mean 20 (rising_prices 30)
    ∧ ∃ lo mid up,
        lower !! 25%nat = Some (Fin lo) ∧ middle !! 25%nat = Some (Fin mid)
        ∧ upper !! 25%nat = Some (Fin up) ∧ lo <= mid ∧ mid <= up.
Proof.
  destruct (bollinger_bands_ordered fsqrt_dec
              (store_of (rising_prices 30) (flat_volume 30)) 1
              (raw_frame (rising_prices 30) (flat_volume 30))
              (rising_prices 30)) as (u & m & l & Hr & Hm & Hi).
  - exact fsqrt_dec_sqrt_like.
  - reflexivity.
  - reflexivity.
  - apply Forall_forall. intros x Hx.
    apply list_elem_of_fmap in Hx as (i & -> & Hi).
    apply elem_of_seq in Hi. apply moderate_F.
    assert (2 ^ 30 ≤ 2 ^ 500)%Z by (vm_compute; discriminate).
    change (2 ^ 30)%Z with 1073741824%Z in *. lia.
  - exists u, m, l. split; [exact Hr|]. split; [exact Hm|].
    destruct (Hi 25%nat) as [_ H25]; [vm_compute; lia|].
    apply H25. lia.
Defined.

(** ** The engine on the store: idempotence and the missing column *)

Lemma with_indicators_assigned_values (fsqrt : F64 → F64) (close : column)
  (df df' : DataFrame) (k : string) :
  k ∈ indicator_columns →
  df_cols (with_indicators fsqrt close df) !! k
  = df_cols (with_indicators fsqrt close df') !! k.
Proof.
  intros Hk. unfold with_indicators.
  destruct (macd_series 12 26 9 close) as [[macd signal_line] histogram].
  destruct (moving_averages_series 20 50 close) as [ma_short ma_long].
  destruct (bollinger_series fsqrt 20 (F 2) close) as [[upper ma] lower].
  cbn [df_cols set_column]. unfold indicator_columns in Hk.
  repeat (apply elem_of_cons in Hk as [-> | Hk]; [by simplify_map_eq|]).
  inversion Hk.
Qed.

Lemma DataFrame_eq (a b : DataFrame) :
  df_index a = df_index b → df_cols a = df_cols b → a = b.
Proof. destruct a, b. simpl. intros -> ->. reflexivity. Qed.

Lemma with_indicators_idem (fsqrt : F64 → F64) (close : column)
  (df : DataFrame) :
  with_indicators fsqrt close (with_indicators fsqrt close df)
  = with_indicators fsqrt close df.
Proof.
  apply DataFrame_eq.
  - rewrite !with_indicators_index. reflexivity.
  - apply map_eq. intros k.
    destruct (decide (k ∈ indicator_columns)) as [Hk|Hk].
    + apply with_indicators_assigned_values, Hk.
    + rewrite with_indicators_other by exact Hk. reflexivity.
Qed.

Lemma with_indicators_close (fsqrt : F64 → F64) (close : column)
  (df : DataFrame) :
  df_cols df !! "Close" = Some close →
  df_cols (with_indicators fsqrt close df) !! "Close" = Some close.
Proof.
  intros Hc. rewrite with_indicators_other; [exact Hc|].
  apply not_indicator. repeat split; discriminate.
Qed.

(** X6.  [add_technical_indicators] is idempotent on the store: called
    again on the frame it has just filled, it returns that frame and
    leaves the store as it is. *)
Theorem add_technical_indicators_idempotent (fsqrt : F64 → F64) (h : heap)
  (data : loc) (df : DataFrame) (close : column) :
  h !! data = Some df → df_cols df !! "Close" = Some close →
  ∃ h1, add_technical_indicators fsqrt data h = (Ok data, h1)
        ∧ add_technical_indicators fsqrt data h1 = (Ok data, h1).
Proof.
  intros Hh Hc. eexists. split.
  - apply (add_technical_indicators_run fsqrt h data df close Hh Hc).
  - rewrite (add_technical_indicators_run fsqrt _ data
               (with_indicators fsqrt close df) close).
    + rewrite with_indicators_idem, insert_insert_eq. reflexivity.
    + apply lookup_insert_eq.
    + apply with_indicators_close, Hc.
Qed.

Lemma add_technical_indicators_idempotent_witness :
  ∃ h1,
    add_technical_indicators fsqrt_dec 1
      (store_of (rising_prices 20) (flat_volume 20)) = (Ok 1%positive, h1)
    ∧ add_technical_indicators fsqrt_dec 1 h1 = (Ok 1%positive, h1).
Proof.
  apply (add_technical_indicators_idempotent fsqrt_dec _ 1
           (raw_frame (rising_prices 20) (flat_volume 20))
           (rising_prices 20)); reflexivity.
Defined.

Lemma get_col_missing (h : heap) (data : loc) (df : DataFrame) (k : string) :
  h !! data = Some df → df_cols df !! k = None →
  get_col data k h = (Raise (KeyError k), h).
Proof. intros Hh Hk. unfold get_col. rewrite Hh, Hk. reflexivity. Qed.

Lemma add_technical_indicators_no_close (fsqrt : F64 → F64) (h : heap)
  (data : loc) (df : DataFrame) :
  h !! data = Some df → df_cols df !! "Close" = None →
  add_technical_indicators fsqrt data h = (Raise (KeyError "Close"), h).
Proof.
  intros Hh Hc. unfold add_technical_indicators, calculate_rsi.
  unfold mbind, M_bind.
  rewrite (get_col_missing h data df "Close" Hh Hc). reflexivity.
Qed.

(** X7.  A frame without a [Close] column.  The engine raises
    [KeyError('Close')] before it assigns anything; [backtest] lets the
    exception through with the strategy and the store as they were;
    [train_model] answers [False] and [evaluate_model] and [predict]
    answer [None], the predictor and the store as they were. *)
Theorem missing_close_column `{SklearnProba} (fsqrt : F64 → F64) (h : heap)
  (data : loc) (df : DataFrame) :
  h !! data = Some df → df_cols df !! "Close" = None →
  add_technical_indicators fsqrt data h = (Raise (KeyError "Close"), h)
  ∧ (∀ (self : TradingStrategy) ticker,
       backtest fsqrt data ticker (self, h)
       = (Raise (KeyError "Close"), (self, h)))
  ∧ (∀ self : MLPredictor,
       train_model fsqrt data (self, h) = (Ok false, (self, h)))
  ∧ (∀ self : MLPredictor,
       evaluate_model fsqrt data (self, h) = (Ok None, (self, h)))
  ∧ (∀ self : MLPredictor,
       predict fsqrt data (self, h) = (Ok None, (self, h))).
Proof.
  intros Hh Hc.
  pose proof (add_technical_indicators_no_close fsqrt h data df Hh Hc) as Hadd.
  assert (Hprep : ∀ self : MLPredictor,
            prepare_features fsqrt data (self, h)
            = (Raise (KeyError "Close"), (self, h))).
  { intros self. unfold prepare_features, lift_heap.
    unfold mbind at 1, M_bind at 1. cbn [fst snd]. rewrite Hadd.
    reflexivity. }
  assert (Hclean : ∀ self : MLPredictor,
            clean_training_data fsqrt data (self, h)
            = (Raise (KeyError "Close"), (self, h))).
  { intros self. unfold clean_training_data.
    unfold mbind at 1, M_bind at 1. rewrite Hprep. reflexivity. }
  split; [exact Hadd|]. split; [|split; [|split]].
  - intros self ticker. unfold backtest, generate_signals, lift_heap.
    unfold mbind at 1, M_bind at 1. unfold mbind at 1, M_bind at 1.
    cbn [fst snd]. rewrite Hadd. reflexivity.
  - intros self. unfold train_model, try_except.
    unfold mbind at 1, M_bind at 1. rewrite Hclean. reflexivity.
  - intros self. unfold evaluate_model, try_except.
    unfold mbind at 1, M_bind at 1. rewrite Hclean. reflexivity.
  - intros self. unfold predict, try_except.
    unfold mbind at 1, M_bind at 1, get_self. cbn [fst].
    destruct (model self); [|reflexivity].
    unfold mbind at 1, M_bind at 1. rewrite Hprep. reflexivity.
Qed.

Lemma missing_close_column_witness :
  add_technical_indicators fsqrt_dec 1
    {[ 1%positive := {| df_index := [0%Z; 1%Z];
                        df_cols := {[ "Volume" := [F 10; F 20] ]} |} ]}
  = (Raise (KeyError "Close"),
     {[ 1%positive := {| df_index := [0%Z; 1%Z];
                         df_cols := {[ "Volume" := [F 10; F 20] ]} |} ]}).
Proof.
  destruct (missing_close_column fsqrt_dec
              {[ 1%positive := {| df_index := [0%Z; 1%Z];
                                  df_cols := {[ "Volume" := [F 10; F 20] ]} |} ]}
              1 {| df_index := [0%Z; 1%Z];
                   df_cols := {[ "Volume" := [F 10; F 20] ]} |})
    as (Hadd & _).
  - reflexivity.
  - reflexivity.
  - exact Hadd.
Defined.

(** ** Returns and volatility *)

Lemma pct_change_lookup (c : column) (i : nat) (x : F64) :
  c !! i = Some x →
  pct_change c !! i
  = Some (match i with O => NaN | S j => (x / iloc c j - F 1)%F end).
Proof.
  intros Hx. unfold pct_change. rewrite list_lookup_imap, Hx. reflexivity.
Qed.

Lemma Qquot_sign (d p : Q) :
  0 < p →
  (0 < d / p ↔ 0 < d) ∧ (d / p == 0 ↔ d == 0) ∧ (d / p < 0 ↔ d < 0).
Proof.
  intros Hp. assert (E : d == d / p * p) by (field; lra).
  assert (Hi : 0 < / p) by (apply Qinv_lt_0_compat; exact Hp).
  split; [|split]; split; intros H.
  - rewrite E. apply Qmult_lt_0_compat; assumption.
  - apply Qlt_shift_div_l; [exact Hp | lra].
  - rewrite E, H. ring.
  - rewrite H. field. lra.
  - destruct (Qlt_le_dec d 0) as [|Hd]; [assumption|exfalso].
    assert (0 <= d / p) by (apply Qle_shift_div_l; [exact Hp | lra]). lra.
  - apply Qlt_shift_div_r; [exact Hp | lra].
Qed.

(** X8.  [calculate_returns]: the return of the first bar is null.  At a
    later bar, after a positive previous price [p] and with both prices of
    moderate size ([p] at least 2^-500, neither above 2^500 in magnitude,
    so that the quotient neither overflows nor loses its sign), the
    return is a number; it is positive, zero or negative as the price
    rose, stayed or fell, and it is at least -1 when the new price is not
    negative.  After a previous price of zero the return is no number at
    all (an infinity or NaN); nothing is raised. *)
Theorem returns_follow_prices (h : heap) (data : loc) (df : DataFrame)
  (close : column) :
  h !! data = Some df → df_cols df !! "Close" = Some close →
  ∃ returns,
    calculate_returns data h = (Ok returns, h)
    ∧ length returns = length close
    ∧ (close ≠ [] → returns !! 0%nat = Some NaN)
    ∧ ∀ i p q, close !! i = Some (Fin p) → close !! S i = Some (Fin q) →
        (moderate (Fin p) → moderate (Fin q) → / inject_Z (2 ^ 500) <= p →
         ∃ r, returns !! S i = Some (Fin r)
              ∧ (0 < r ↔ p < q) ∧ (r == 0 ↔ q == p) ∧ (r < 0 ↔ q < p)
              ∧ (0 <= q → -1 <= r))
        ∧ (p == 0 → ∃ x, returns !! S i = Some x ∧ is_finite x = false).
Proof.
  intros Hh Hc. exists (pct_change close).
  split.
  { unfold calculate_returns, mbind, M_bind.
    rewrite (get_col_run h data df "Close" close Hh Hc). reflexivity. }
  split; [apply length_imap|]. split.
  { destruct close as [|x close]; [congruence | reflexivity]. }
  intros i p q Hp Hq. rewrite (pct_change_lookup _ _ _ Hq).
  rewrite (iloc_lookup _ _ _ Hp). cbn [fdiv]. split.
  - intros _ _ Hlow.
    assert (Hp0 : 0 < p).
    { assert (0 < / inject_Z (2 ^ 500)); [|lra].
      apply Qinv_lt_0_compat. change 0 with (inject_Z 0).
      rewrite <- Zlt_Qlt. reflexivity. }
    rewrite (Qeq_bool_false p) by lra.
    eexists. split; [reflexivity|]. change (inject_Z 1) with 1.
    assert (E : q / p + - 1 == (q - p) / p) by (field; lra).
    destruct (Qquot_sign (q - p) p Hp0) as (Hpos & Hzero & Hneg).
    rewrite E. split; [|split; [|split; [|]]].
    + rewrite Hpos. split; intros; lra.
    + rewrite Hzero. split; intros H; [lra | rewrite H; ring].
    + rewrite Hneg. split; intros; lra.
    + intros Hq0. assert (0 <= q / p) by (apply Qle_shift_div_l; lra).
      rewrite <- E. lra.
  - intros Hz. rewrite (Qeq_bool_true p Hz).
    eexists. split; [reflexivity|]. destruct (Qsgn q); reflexivity.
Qed.

Lemma returns_follow_prices_witness :
  ∃ returns,
    calculate_returns 1 (store_of [F 100; F 110] [F 1; F 1])
    = (Ok returns, store_of [F 100; F 110] [F 1; F 1])
    ∧ ∃ r, returns !! 1%nat = Some (Fin r) ∧ 0 < r.
Proof.
  destruct (returns_follow_prices (store_of [F 100; F 110] [F 1; F 1]) 1
              (raw_frame [F 100; F 110] [F 1; F 1]) [F 100; F 110]
              eq_refl eq_refl) as (returns & Hr & _ & _ & Hi).
  exists returns. split; [exact Hr|].
  destruct (Hi 0%nat 100 110 eq_refl eq_refl) as [Hnz _].
  destruct Hnz as (r & Hl & Hpos & _).
  - apply (moderate_F 100). vm_compute. discriminate.
  - apply (moderate_F 110). vm_compute. discriminate.
  - vm_compute. discriminate.
  - exists r. split; [exact Hl|]. apply Hpos. reflexivity.
Defined.

Lemma fmul_nan_l (y : F64) : (NaN * y)%F = NaN.
Proof. destruct y; reflexivity. Qed.

Lemma finite_sum_nan (l : list F64) : NaN ∈ l → finite_sum l = None.
Proof.
  induction l as [|x l IH]; intros Hin; [inversion Hin|].
  cbn [finite_sum foldr]. apply elem_of_cons in Hin as [<- | Hin].
  - reflexivity.
  - unfold finite_sum in IH. rewrite (IH Hin). destruct x; reflexivity.
Qed.

Lemma window_full_prefix (w : nat) (c : column) :
  (0 < w)%nat → window w (w - 1) c = take w c.
Proof.
  intros Hw. unfold window.
  replace (S (w - 1) - w)%nat with 0%nat by lia. reflexivity.
Qed.

(** X9.  [calculate_volatility] with its 30-bar window is null on the
    first 30 bars, one more than the window's 29: the null return of the
    first bar sits in the window ending at bar 29.  This holds whatever
    the prices are. *)
Theorem volatility_null_prefix (fsqrt : F64 → F64) (h : heap) (data : loc)
  (df : DataFrame) (close : column) :
  h !! data = Some df → df_cols df !! "Close" = Some close →
  ∃ vol,
    calculate_volatility fsqrt data 30 h = (Ok vol, h)
    ∧ length vol = length close
    ∧ ∀ i, (i < 30)%nat → (i < length close)%nat → vol !! i = Some NaN.
Proof.
  intros Hh Hc. exists (volatility_series fsqrt 30 (pct_change close)).
  split.
  { unfold calculate_volatility, calculate_returns, mbind, M_bind.
    rewrite (get_col_run h data df "Close" close Hh Hc). reflexivity. }
  split.
  { unfold volatility_series, rolling_std.
    rewrite length_fmap, length_imap. apply length_imap. }
  intros i Hi Hlen. unfold volatility_series.
  rewrite list_lookup_fmap, rolling_std_lookup
    by (rewrite length_pct_change; exact Hlen).
  cbn [fmap option_fmap option_map]. f_equal.
  assert (Hnan : rolling_std_at fsqrt 30 (pct_change close) i = NaN).
  { unfold rolling_std_at.
    destruct (decide (0 < 30 ≤ S i)%nat) as [[_ Hge]|_]; [|reflexivity].
    assert (i = 29%nat) as -> by lia.
    rewrite (window_full_prefix 30) by lia.
    rewrite finite_sum_nan; [reflexivity|].
    apply list_elem_of_lookup. exists 0%nat.
    rewrite lookup_take_lt by lia.
    destruct (lookup_lt_is_Some_2 close 0) as [x Hx]; [lia|].
    rewrite (pct_change_lookup _ _ _ Hx). reflexivity. }
  rewrite Hnan. apply fmul_nan_l.
Qed.

Lemma volatility_null_prefix_witness :
  ∃ vol,
    calculate_volatility fsqrt_dec 1 30
      (store_of (rising_prices 40) (flat_volume 40))
    = (Ok vol, store_of (rising_prices 40) (flat_volume 40))
    ∧ vol !! 29%nat = Some NaN.
Proof.
  destruct (volatility_null_prefix fsqrt_dec
              (store_of (rising_prices 40) (flat_volume 40)) 1
              (raw_frame (rising_prices 40) (flat_volume 40))
              (rising_prices 40) eq_refl eq_refl) as (vol & Hr & _ & Hn).
  exists vol. split; [exact Hr|]. apply Hn; [lia | vm_compute; lia].
Defined.

(** ** The signals *)

Lemma StronglySorted_sublist {A} (R : relation A) (l1 l2 : list A) :
  l1 `sublist_of` l2 → StronglySorted R l2 → StronglySorted R l1.
Proof.
  induction 1 as [|x l1 l2 Hsub IH|x l1 l2 Hsub IH]; intros Hs.
  - constructor.
  - apply StronglySorted_inv in Hs as [Hs Hall]. constructor; [auto|].
    apply Forall_forall. intros y Hy.
    rewrite Forall_forall in Hall. apply Hall.
    eapply elem_of_sublist; eassumption.
  - apply StronglySorted_inv in Hs as [Hs _]. auto.
Qed.

Lemma omap_fmap_sublist {A B C} (f : A → option B) (g : A → C) (k : B → C)
  (l : list A) :
  (∀ a b, f a = Some b → k b = g a) →
  (k <$> omap f l) `sublist_of` (g <$> l).
Proof.
  intros Hf. induction l as [|a l IH]; [constructor|].
  cbn [omap list_omap fmap list_fmap].
  destruct (f a) as [b|] eqn:E; cbn [fmap list_fmap].
  - rewrite (Hf a b E). constructor. exact IH.
  - constructor. exact IH.
Qed.

Lemma signal_at_date (oversold : F64) (index : list Z)
  (close rsi ma20 ma50 : column) (i : nat) (s : Signal) :
  signal_at oversold index close rsi ma20 ma50 i = Some s →
  sig_date s = default 0%Z (index !! i)
  ∧ sig_price s = iloc close i ∧ sig_rsi s = iloc rsi i
  ∧ sig_ma20 s = iloc ma20 i ∧ sig_ma50 s = iloc ma50 i.
Proof.
  unfold signal_at. intros Hs.
  repeat match type of Hs with
  | (if ?b then _ else _) = _ => destruct b
  end; try discriminate; injection Hs as <-; repeat split.
Qed.

Lemma signal_at_rule (oversold : F64) (index : list Z)
  (close rsi ma20 ma50 : column) (i : nat) (s : Signal) :
  signal_at oversold index close rsi ma20 ma50 i = Some s →
  signal_rule oversold s.
Proof.
  unfold signal_at, signal_rule. intros Hs.
  destruct (flt (iloc rsi i) oversold && _ && _ && _ && _ && _) eqn:Eb.
  - injection Hs as <-. cbn [sig_signal sig_rsi sig_ma20 sig_ma50].
    repeat (apply andb_prop in Eb as [Eb ?]).
    repeat match goal with
    | H : negb _ = true |- _ => apply negb_true_iff in H
    end. repeat split; assumption.
  - destruct (fgt (iloc rsi i) (F 70) && _) eqn:Es; [|discriminate].
    injection Hs as <-. cbn [sig_signal sig_rsi].
    apply andb_prop in Es as [Es _]. exact Es.
Qed.

Lemma index_by_default (index : list Z) :
  (λ i, default 0%Z (index !! i)) <$> seq 1 (length index - 1)
  = drop 1 index.
Proof.
  apply list_eq. intros j. rewrite list_lookup_fmap, lookup_drop.
  destruct (decide (j < length index - 1)%nat) as [Hj|Hj].
  - rewrite (lookup_seq_lt 1 _ j Hj). cbn [fmap option_fmap option_map].
    destruct (lookup_lt_is_Some_2 index (1 + j)) as [d Hd]; [lia|].
    rewrite Hd. reflexivity.
  - rewrite lookup_seq_ge by lia. symmetry. apply lookup_ge_None_2. lia.
Qed.

Lemma signal_dates_sublist (oversold : F64) (index : list Z)
  (close rsi ma20 ma50 : column) :
  (sig_date <$> omap (signal_at oversold index close rsi ma20 ma50)
                     (seq 1 (length index - 1)))
  `sublist_of` drop 1 index.
Proof.
  rewrite <- index_by_default. apply omap_fmap_sublist.
  intros i s Hs. apply (signal_at_date _ _ _ _ _ _ _ _ Hs).
Qed.

(** X10.  The signals of [generate_signals] are in the order of the bars
    and never from the first bar: their dates form a sublist of the index
    from bar 1 on, so there are fewer signals than bars and, on a strictly
    increasing index, the dates strictly increase.  Each signal satisfies
    the rule of its kind. *)
Theorem signals_chronological (fsqrt : F64 → F64) (self : TradingStrategy)
  (h : heap) (data : loc) (df : DataFrame) (close : column) :
  h !! data = Some df → df_cols df !! "Close" = Some close →
  ∃ signals s',
    generate_signals fsqrt data (self, h) = (Ok signals, s')
    ∧ (sig_date <$> signals) `sublist_of` drop 1 (df_index df)
    ∧ (length signals ≤ length (df_index df) - 1)%nat
    ∧ (StronglySorted Z.lt (df_index df) →
       StronglySorted Z.lt (sig_date <$> signals))
    ∧ Forall (signal_rule (rsi_oversold self)) signals.
Proof.
  intros Hh Hc.
  rewrite (generate_signals_run fsqrt self h data df close Hh Hc).
  eexists _, _. split; [reflexivity|].
  pose proof (signal_dates_sublist (rsi_oversold self) (df_index df) close
                (rsi_series 14 close) (rolling_mean 20 close)
                (rolling_mean 50 close)) as Hsub.
  split; [exact Hsub|]. split; [|split].
  - apply sublist_length in Hsub.
    rewrite length_fmap, length_drop in Hsub. exact Hsub.
  - intros Hsorted. eapply StronglySorted_sublist; [exact Hsub|].
    eapply StronglySorted_sublist; [apply sublist_drop | exact Hsorted].
  - apply Forall_forall. intros s Hs.
    apply list_elem_of_omap in Hs as (i & _ & Hi).
    apply (signal_at_rule _ _ _ _ _ _ _ _ Hi).
Qed.

Lemma signals_chronological_witness :
  ∃ signals s',
    generate_signals fsqrt_dec 1
      (TradingStrategy_init, store_of (rising_prices 20) (flat_volume 20))
    = (Ok signals, s')
    ∧ (length signals ≤ 19)%nat.
Proof.
  destruct (signals_chronological fsqrt_dec TradingStrategy_init
              (store_of (rising_prices 20) (flat_volume 20)) 1
              (raw_frame (rising_prices 20) (flat_volume 20))
              (rising_prices 20) eq_refl eq_refl)
    as (signals & s' & Hr & _ & Hl & _).
  exists signals, s'. split; [exact Hr | exact Hl].
Defined.

Lemma iloc_rolling_mean_early (w : nat) (c : column) (i : nat) :
  (S i < w)%nat → iloc (rolling_mean w c) i = NaN.
Proof.
  intros Hi. unfold iloc.
  destruct (decide (i < length c)%nat) as [Hlt|Hge].
  - rewrite rolling_mean_lookup by exact Hlt. simpl.
    apply rolling_mean_at_early, Hi.
  - rewrite lookup_ge_None_2; [reflexivity|].
    rewrite length_rolling_mean. lia.
Qed.

Lemma length_rsi_series (period : nat) (close : column) :
  length (rsi_series period close) = length close.
Proof.
  unfold rsi_series, zipF. rewrite length_fmap, length_zip_with.
  unfold rsi_gain, rsi_loss, where_.
  rewrite !length_rolling_mean, !length_fmap, length_diff. lia.
Qed.

Lemma iloc_rsi_early (close : column) (i : nat) :
  (i < 13)%nat → iloc (rsi_series 14 close) i = NaN.
Proof.
  intros Hi. unfold iloc.
  destruct (decide (i < length close)%nat) as [Hlt|Hge].
  - rewrite rsi_series_lookup by exact Hlt. simpl.
    rewrite (rolling_mean_at_early 14 _ i) by lia. reflexivity.
  - rewrite lookup_ge_None_2; [reflexivity|].
    rewrite length_rsi_series. lia.
Qed.

Lemma signal_at_warm_up (oversold : F64) (index : list Z) (close : column)
  (i : nat) (s : Signal) :
  signal_at oversold index close (rsi_series 14 close)
    (rolling_mean 20 close) (rolling_mean 50 close) i = Some s →
  (13 ≤ i)%nat ∧ (sig_signal s = BUY → (49 ≤ i)%nat).
Proof.
  intros Hs. split.
  - destruct (decide (13 ≤ i)%nat) as [|Hlt]; [assumption|exfalso].
    unfold signal_at in Hs. rewrite iloc_rsi_early in Hs by lia.
    simpl in Hs. discriminate.
  - intros Hb. destruct (decide (49 ≤ i)%nat) as [|Hlt]; [assumption|exfalso].
    unfold signal_at in Hs.
    rewrite (iloc_rolling_mean_early 50 close i) in Hs by lia.
    replace (fgt (iloc (rolling_mean 20 close) i) NaN) with false in Hs
      by (unfold fgt; simpl; reflexivity).
    rewrite andb_false_r in Hs. cbn [andb] in Hs.
    destruct (fgt _ (F 70) && _); [|discriminate].
    injection Hs as <-. discriminate Hb.
Qed.

(** X11.  Warm-up of the signal generator: every signal comes from a bar
    of position 13 or more, every BUY from a bar of position 49 or more
    (the 50-bar average is null before); a frame of at most 13 rows gives
    no signal at all. *)
Theorem signals_warm_up (fsqrt : F64 → F64) (self : TradingStrategy)
  (h : heap) (data : loc) (df : DataFrame) (close : column) :
  h !! data = Some df → df_cols df !! "Close" = Some close →
  ∃ signals s',
    generate_signals fsqrt data (self, h) = (Ok signals, s')
    ∧ Forall (λ s, ∃ i, (13 ≤ i < length (df_index df))%nat
                        ∧ (sig_signal s = BUY → (49 ≤ i)%nat)
                        ∧ sig_date s = default 0%Z (df_index df !! i)
                        ∧ sig_price s = iloc close i) signals
    ∧ ((length (df_index df) ≤ 13)%nat → signals = []).
Proof.
  intros Hh Hc.
  rewrite (generate_signals_run fsqrt self h data df close Hh Hc).
  eexists _, _. split; [reflexivity|].
  assert (Hall : Forall (λ s, ∃ i, (13 ≤ i < length (df_index df))%nat
                        ∧ (sig_signal s = BUY → (49 ≤ i)%nat)
                        ∧ sig_date s = default 0%Z (df_index df !! i)
                        ∧ sig_price s = iloc close i)
            (omap (signal_at (rsi_oversold self) (df_index df) close
                     (rsi_series 14 close) (rolling_mean 20 close)
                     (rolling_mean 50 close))
                  (seq 1 (length (df_index df) - 1)))).
  { apply Forall_forall. intros s Hs.
    apply list_elem_of_omap in Hs as (i & Hi & Hs).
    apply elem_of_seq in Hi.
    destruct (signal_at_warm_up _ _ _ _ _ Hs) as [H13 H49].
    destruct (signal_at_date _ _ _ _ _ _ _ _ Hs) as (Hd & Hp & _).
    exists i. repeat split; try assumption; lia. }
  split; [exact Hall|]. intros Hn.
  destruct (omap _ _) as [|s l]; [reflexivity|exfalso].
  apply Forall_cons in Hall as [(i & Hi & _) _]. lia.
Qed.

Lemma signals_warm_up_witness :
  ∃ s',
    generate_signals fsqrt_dec 1
      (TradingStrategy_init, store_of (rising_prices 13) (flat_volume 13))
    = (Ok [], s').
Proof.
  destruct (signals_warm_up fsqrt_dec TradingStrategy_init
              (store_of (rising_prices 13) (flat_volume 13)) 1
              (raw_frame (rising_prices 13) (flat_volume 13))
              (rising_prices 13) eq_refl eq_refl)
    as (signals & s' & Hr & _ & He).
  exists s'. rewrite Hr. rewrite He; [reflexivity|].
  vm_compute. lia.
Defined.

(** *** A rising market *)

Lemma diff_rising (close : column) :
  strictly_rising close →
  Forall (λ d, d = NaN ∨ fin_with (λ q, 0 < q) d) (diff close).
Proof.
  intros [Hfin Hup]. apply Forall_lookup. intros i d Hd.
  unfold diff in Hd. rewrite list_lookup_imap in Hd.
  destruct (close !! i) as [x|] eqn:Hx; simpl in Hd; [|discriminate].
  injection Hd as <-. destruct i as [|j]; [left; reflexivity|right].
  destruct (lookup_lt_is_Some_2 close j) as [y Hy].
  { apply lookup_lt_Some in Hx. lia. }
  pose proof (Hup j y x Hy Hx) as Hlt.
  pose proof (Forall_lookup_1 _ _ _ _ Hfin Hx) as Hfx.
  pose proof (Forall_lookup_1 _ _ _ _ Hfin Hy) as Hfy.
  unfold iloc. rewrite Hy. simpl in *.
  destruct x as [q| | |], y as [p| | |]; try discriminate.
  exists (q + - p). split; [reflexivity|].
  simpl in Hlt. qcases; try discriminate. lra.
Qed.

Lemma rising_sums (W : list F64) :
  Forall (λ d, d = NaN ∨ fin_with (λ q, 0 < q) d) W →
  ∃ sg sl,
    finite_sum (where_ (λ d, fgt d (F 0)) W) = Some sg
    ∧ finite_sum (fneg <$> where_ (λ d, flt d (F 0)) W) = Some sl
    ∧ sl == 0 ∧ 0 <= sg
    ∧ (Exists (λ d, is_finite d = true) W → 0 < sg).
Proof.
  induction 1 as [|d W Hd _ (sg & sl & Hg & Hl & Hl0 & Hg0 & Hpos)].
  - exists 0, 0. simpl. repeat split; try lra.
    intros HE. inversion HE.
  - unfold where_ in *. cbn [fmap list_fmap finite_sum foldr].
    unfold finite_sum in Hg, Hl. rewrite Hg, Hl. clear Hg Hl.
    destruct Hd as [->|(q & -> & Hq)].
    + exists (0 + sg), (- 0 + sl). cbn [fneg F].
      split; [reflexivity|]. split; [reflexivity|].
      split; [lra|]. split; [lra|].
      intros HE. apply Exists_cons in HE as [HE|HE]; [discriminate|].
      specialize (Hpos HE). lra.
    + unfold fgt, flt, F. change (inject_Z 0) with 0.
      destruct (Qcompare_spec 0 q) as [?|?|?]; try (exfalso; lra).
      destruct (Qcompare_spec q 0) as [?|?|?]; try (exfalso; lra).
      cbn [fneg]. eexists _, _.
      split; [reflexivity|]. split; [reflexivity|].
      split; [lra|]. split; [lra|]. intros _. lra.
Qed.

(** With prices that only rise, the RSI is exactly 100 from bar 13 on. *)
Lemma rsi_rising (close : column) (i : nat) :
  strictly_rising close → (13 ≤ i < length close)%nat →
  iloc (rsi_series 14 close) i = F 100.
Proof.
  intros Hup [H13 Hi]. apply iloc_lookup.
  rewrite rsi_series_lookup by exact Hi. f_equal.
  pose proof (window_Forall _ 14 i _ (diff_rising close Hup)) as HW.
  destruct (rising_sums _ HW) as (sg & sl & Hg & Hl & Hl0 & _ & Hpos).
  assert (Hsg : 0 < sg).
  { apply Hpos. apply Exists_exists.
    destruct (lookup_lt_is_Some_2 (diff close) i) as [d Hd].
    { rewrite length_diff. exact Hi. }
    exists d. split.
    - apply list_elem_of_lookup. exists 13%nat. unfold window.
      rewrite lookup_take_lt by lia. rewrite lookup_drop.
      replace (S i - 14 + 13)%nat with i by lia. exact Hd.
    - pose proof (Forall_lookup_1 _ _ _ _ (diff_rising close Hup) Hd) as Hr.
      cbn beta in Hr. destruct Hr as [->|(q & -> & _)]; [|reflexivity].
      exfalso. unfold diff in Hd. rewrite list_lookup_imap in Hd.
      destruct Hup as [Hfin _].
      destruct (close !! i) as [x|] eqn:Hx; simpl in Hd; [|discriminate].
      destruct i as [|j]; [lia|].
      destruct (lookup_lt_is_Some_2 close j) as [y Hy]; [lia|].
      pose proof (Forall_lookup_1 _ _ _ _ Hfin Hx) as Hfx.
      pose proof (Forall_lookup_1 _ _ _ _ Hfin Hy) as Hfy.
      unfold iloc in Hd. rewrite Hy in Hd. simpl in *.
      destruct x, y; discriminate. }
  rewrite (rolling_mean_at_full 14 _ i sg); [|lia|].
  2:{ unfold where_. rewrite window_fmap. exact Hg. }
  rewrite (rolling_mean_at_full 14 _ i sl); [|lia|].
  2:{ unfold where_. rewrite !window_fmap. exact Hl. }
  assert (H14 : 0 < Qnat 14) by (apply Qnat_pos; lia).
  unfold fdiv. rewrite Qeq_bool_true.
  2:{ apply Qdiv_eq_0; assumption. }
  assert (Hq : 0 < sg / Qnat 14).
  { apply Qlt_shift_div_l; [assumption|lra]. }
  unfold Qsgn. destruct (Qcompare_spec (sg / Qnat 14) 0); try (exfalso; lra).
  reflexivity.
Qed.

Lemma omap_all_None {A B} (f : A → option B) (l : list A) :
  Forall (λ x, f x = None) l → omap f l = [].
Proof.
  induction 1 as [|x l Hx _ IH]; [reflexivity|].
  change (omap f (x :: l))
    with (match f x with Some y => y :: omap f l | None => omap f l end).
  rewrite Hx. exact IH.
Qed.

Lemma omap_all_Some {A B} (f : A → option B) (g : A → B) (l : list A) :
  Forall (λ x, f x = Some (g x)) l → omap f l = g <$> l.
Proof.
  induction 1 as [|x l Hx _ IH]; [reflexivity|].
  change (omap f (x :: l))
    with (match f x with Some y => y :: omap f l | None => omap f l end).
  rewrite Hx, IH. reflexivity.
Qed.

Lemma fmap_const_replicate {A B} (c : B) (g : A → B) (l : list A) :
  (∀ x, g x = c) → g <$> l = replicate (length l) c.
Proof.
  intros Hg. induction l as [|x l IH]; simpl; [reflexivity|].
  rewrite Hg. f_equal. exact IH.
Qed.

Lemma fmap_lookup_seq_drop {A} (d : A) (l : list A) (a : nat) :
  (λ i, default d (l !! i)) <$> seq a (length l - a) = drop a l.
Proof.
  apply list_eq. intros i. rewrite list_lookup_fmap, lookup_drop.
  destruct (decide (i < length l - a)%nat) as [Hi|Hi].
  - rewrite lookup_seq_lt by exact Hi. simpl.
    destruct (lookup_lt_is_Some_2 l (a + i)) as [x ->]; [lia|]. reflexivity.
  - rewrite lookup_seq_ge by lia. simpl. symmetry.
    apply lookup_ge_None_2. lia.
Qed.

(** X12.  On prices on the binary grid that rise at every bar, and with
    an oversold threshold not above 100, the generator emits a SELL at
    every bar from position 13 on and never a BUY: the RSI is 100 there.
    (On the grid every rise is at least 2^-10 and the sums of the window
    are exact, so the average gain is not zero.) *)
Theorem rising_market_only_sells (fsqrt : F64 → F64) (self : TradingStrategy)
  (h : heap) (data : loc) (df : DataFrame) (close : column) :
  h !! data = Some df → df_cols df !! "Close" = Some close →
  length (df_index df) = length close →
  Forall on_grid close →
  strictly_rising close →
  flt (F 100) (rsi_oversold self) = false →
  ∃ signals s',
    generate_signals fsqrt data (self, h) = (Ok signals, s')
    ∧ sig_signal <$> signals = replicate (length close - 13) SELL
    ∧ sig_date <$> signals = drop 13 (df_index df)
    ∧ Forall (λ s, sig_rsi s = F 100) signals.
Proof.
  intros Hh Hc Hlen _ Hup Hover.
  rewrite (generate_signals_run fsqrt self h data df close Hh Hc).
  eexists _, _. split; [reflexivity|].
  set (f := signal_at _ _ _ _ _ _).
  set (g := λ i : nat,
         {| sig_date := default 0%Z (df_index df !! i);
            sig_signal := SELL;
            sig_price := iloc close i;
            sig_rsi := iloc (rsi_series 14 close) i;
            sig_ma20 := iloc (rolling_mean 20 close) i;
            sig_ma50 := iloc (rolling_mean 50 close) i |}).
  assert (Hlow : ∀ i, (i < 13)%nat → f i = None).
  { intros i Hi. unfold f, signal_at. rewrite iloc_rsi_early by exact Hi.
    reflexivity. }
  assert (Hhigh : ∀ i, (13 ≤ i < length close)%nat → f i = Some (g i)).
  { intros i Hi. unfold f, g, signal_at.
    rewrite (rsi_rising close i Hup Hi). rewrite Hover. reflexivity. }
  assert (E : omap f (seq 1 (length (df_index df) - 1))
              = g <$> seq 13 (length close - 13)).
  { rewrite Hlen. destruct (decide (length close ≤ 13)%nat) as [Hs|Hl].
    - replace (length close - 13)%nat with 0%nat by lia. simpl.
      apply omap_all_None, Forall_forall. intros i Hi.
      apply elem_of_seq in Hi. apply Hlow. lia.
    - replace (length close - 1)%nat with (12 + (length close - 13))%nat
        by lia.
      rewrite seq_app, omap_app. change (1 + 12)%nat with 13%nat.
      rewrite omap_all_None, app_nil_l.
      + apply omap_all_Some, Forall_forall. intros i Hi.
        apply elem_of_seq in Hi. apply Hhigh. lia.
      + apply Forall_forall. intros i Hi.
        apply elem_of_seq in Hi. apply Hlow. lia. }
  rewrite E. clear E. split; [|split].
  - rewrite <- list_fmap_compose.
    rewrite (fmap_const_replicate SELL); [|reflexivity].
    rewrite length_seq. reflexivity.
  - rewrite <- list_fmap_compose, <- Hlen. apply fmap_lookup_seq_drop.
  - apply Forall_forall. intros s Hs.
    apply list_elem_of_fmap in Hs as (i & -> & Hi).
    apply elem_of_seq in Hi. unfold g. cbn [sig_rsi].
    apply rsi_rising; [assumption|lia].
Qed.

Lemma rising_prices_strictly (n : nat) : strictly_rising (rising_prices n).
Proof.
  unfold rising_prices. split.
  - apply Forall_fmap, Forall_forall. intros i _. reflexivity.
  - intros i p q Hp Hq. rewrite list_lookup_fmap in Hp, Hq.
    destruct (seq 0 n !! i) as [a|] eqn:Ha; [|discriminate].
    destruct (seq 0 n !! S i) as [b|] eqn:Hb; [|discriminate].
    apply lookup_seq in Ha as [-> _]. apply lookup_seq in Hb as [-> _].
    injection Hp as <-. injection Hq as <-. unfold flt, F.
    match goal with
    | |- context [Qcompare ?a ?b] =>
        destruct (Qcompare_spec a b) as [E|E|E]
    end; [|reflexivity|].
    + unfold Qeq in E. simpl in E. lia.
    + rewrite <- Zlt_Qlt in E. lia.
Qed.

Lemma rising_prices_on_grid (n : nat) :
  (Z.of_nat n ≤ 2 ^ 29)%Z → Forall on_grid (rising_prices n).
Proof.
  intros Hn. unfold rising_prices. apply Forall_fmap, Forall_forall.
  intros i Hi. apply elem_of_seq in Hi. apply on_grid_F.
  change (2 ^ 29)%Z with 536870912%Z in Hn.
  change (2 ^ 30)%Z with 1073741824%Z. lia.
Qed.

Lemma rising_market_only_sells_witness :
  ∃ signals s',
    generate_signals fsqrt_dec 1
      (TradingStrategy_init, store_of (rising_prices 60) (flat_volume 60))
    = (Ok signals, s')
    ∧ sig_signal <$> signals = replicate 47 SELL.
Proof.
  destruct (rising_market_only_sells fsqrt_dec TradingStrategy_init
              (store_of (rising_prices 60) (flat_volume 60)) 1
              (raw_frame (rising_prices 60) (flat_volume 60))
              (rising_prices 60) eq_refl eq_refl eq_refl
              (rising_prices_on_grid 60 ltac:(vm_compute; discriminate))
              (rising_prices_strictly 60) eq_refl)
    as (signals & s' & Hr & Hk & _).
  exists signals, s'. split; [exact Hr | exact Hk].
Defined.

(** ** The backtest loop *)

Lemma trade_dates_snoc (ts : list Trade) (t : Trade) :
  trade_dates (ts ++ [t]) = trade_dates ts ++ [tr_entry_date t; tr_exit_date t].
Proof.
  unfold trade_dates. rewrite bind_app. cbn [mbind list_bind].
  rewrite app_nil_r. reflexivity.
Qed.

(** One iteration appends to the time line of entries and exits at most
    the date of its signal. *)
Lemma backtest_step_timeline (ticker : string) (st : bt_state) (s : Signal) :
  ∃ l, trade_dates (trades (backtest_step ticker st s))
         ++ pending (backtest_step ticker st s)
       = (trade_dates (trades st) ++ pending st) ++ l
       ∧ l `sublist_of` [sig_date s].
Proof.
  unfold backtest_step, pending.
  destruct (is_buy s), (is_sell s), (current_position st) as [pos|] eqn:Ep;
    cbn [current_position trades pos_entry_date]; rewrite ?Ep.
  all: try (exists []; rewrite !app_nil_r;
            split; [reflexivity | apply sublist_nil_l]).
  all: exists [sig_date s]; split; [|reflexivity].
  all: rewrite ?trade_dates_snoc, ?app_nil_r, <- ?app_assoc; reflexivity.
Qed.

Lemma backtest_loop_timeline (ticker : string) (signals : list Signal)
  (st : bt_state) :
  ∃ l, trade_dates (trades (backtest_loop ticker signals st))
         ++ pending (backtest_loop ticker signals st)
       = (trade_dates (trades st) ++ pending st) ++ l
       ∧ l `sublist_of` (sig_date <$> signals).
Proof.
  revert st. induction signals as [|s signals IH]; intros st.
  - exists []. rewrite app_nil_r. split; [reflexivity | constructor].
  - destruct (backtest_step_timeline ticker st s) as (l1 & E1 & H1).
    destruct (IH (backtest_step ticker st s)) as (l2 & E2 & H2).
    exists (l1 ++ l2). split.
    + change (backtest_loop ticker (s :: signals) st)
        with (backtest_loop ticker signals (backtest_step ticker st s)).
      rewrite E2, E1, app_assoc. reflexivity.
    + change (sig_date <$> s :: signals)
        with ([sig_date s] ++ (sig_date <$> signals)).
      apply sublist_app; assumption.
Qed.

(** One iteration adds to the capital the pnl of the trade it closes. *)
Lemma backtest_loop_capital (ticker : string) (signals : list Signal)
  (st : bt_state) :
  ∃ new,
    trades (backtest_loop ticker signals st) = trades st ++ new
    ∧ portfolio_value (backtest_loop ticker signals st)
      = fold_left fadd (tr_pnl <$> new) (portfolio_value st).
Proof.
  revert st. induction signals as [|s signals IH]; intros st.
  - exists []. rewrite app_nil_r. split; reflexivity.
  - change (backtest_loop ticker (s :: signals) st)
      with (backtest_loop ticker signals (backtest_step ticker st s)).
    destruct (IH (backtest_step ticker st s)) as (new & Ht & Hp).
    rewrite Ht, Hp. clear IH Ht Hp. unfold backtest_step.
    destruct (is_buy s), (is_sell s), (current_position st) as [pos|];
      cbn [trades portfolio_value].
    all: try (exists new; split; reflexivity).
    all: eexists (_ :: new); rewrite <- app_assoc; split; reflexivity.
Qed.

(** X13.  The trades of a backtest never overlap.  On a frame whose index
    strictly increases, the entry and exit dates of the ledger, read in
    order, strictly increase: every trade is entered before it is left and
    is left before the next one is entered; all these dates are dates of
    bars after the first. *)
Theorem trades_never_overlap (fsqrt : F64 → F64) (self : TradingStrategy)
  (h : heap) (data : loc) (df : DataFrame) (close : column)
  (ticker : string) :
  h !! data = Some df → df_cols df !! "Close" = Some close →
  StronglySorted Z.lt (df_index df) →
  ∃ ts signals s',
    backtest fsqrt data ticker (self, h) = (Ok (ts, signals), s')
    ∧ trade_dates ts `sublist_of` drop 1 (df_index df)
    ∧ StronglySorted Z.lt (trade_dates ts).
Proof.
  intros Hh Hc Hsorted.
  rewrite (backtest_run fsqrt self h data df close ticker Hh Hc).
  eexists _, _, _. split; [reflexivity|].
  set (signals := omap _ _).
  destruct (backtest_loop_timeline ticker signals
              (bt_init (self_portfolio_value self))) as (l & El & Hl).
  cbn [bt_init trades pending current_position trade_dates] in El.
  change (trade_dates []) with (@nil Z) in El. rewrite !app_nil_l in El.
  assert (Hsub : trade_dates
                   (trades (backtest_loop ticker signals
                              (bt_init (self_portfolio_value self))))
                 `sublist_of` drop 1 (df_index df)).
  { etrans; [apply (sublist_inserts_r (pending (backtest_loop ticker signals
                 (bt_init (self_portfolio_value self))))); reflexivity|].
    rewrite El. etrans; [exact Hl|]. apply signal_dates_sublist. }
  split; [exact Hsub|].
  eapply StronglySorted_sublist; [exact Hsub|].
  eapply StronglySorted_sublist; [apply sublist_drop | exact Hsorted].
Qed.

(** The dip-and-rally prices: dates 0 to 64 in order; one BUY, at bar 50,
    and the SELL that closes it, at bar 60. *)
Lemma dip_and_rally_sorted :
  StronglySorted Z.lt
    (df_index (raw_frame dip_and_rally (flat_volume 65))).
Proof. repeat constructor. Qed.

Lemma dip_and_rally_ledger :
  let st := backtest_loop "T"
              (omap (signal_at (rsi_oversold TradingStrategy_init)
                       (df_index (raw_frame dip_and_rally (flat_volume 65)))
                       dip_and_rally (rsi_series 14 dip_and_rally)
                       (rolling_mean 20 dip_and_rally)
                       (rolling_mean 50 dip_and_rally))
                 (seq 1 (length (df_index (raw_frame dip_and_rally
                                             (flat_volume 65))) - 1)))
              (bt_init (self_portfolio_value TradingStrategy_init)) in
  trade_dates (trades st) = [50%Z; 60%Z]
  ∧ tr_quantity <$> trades st = [F 349]
  ∧ tr_pnl <$> trades st = [F 3490]
  ∧ portfolio_value st = F 103490.
Proof. vm_compute. repeat split. Qed.

Lemma trades_never_overlap_witness :
  ∃ ts signals s',
    backtest fsqrt_dec 1 "T"
      (TradingStrategy_init, store_of dip_and_rally (flat_volume 65))
    = (Ok (ts, signals), s')
    ∧ trade_dates ts = [50%Z; 60%Z]
    ∧ StronglySorted Z.lt (trade_dates ts).
Proof.
  destruct (trades_never_overlap fsqrt_dec TradingStrategy_init
              (store_of dip_and_rally (flat_volume 65)) 1
              (raw_frame dip_and_rally (flat_volume 65))
              dip_and_rally "T" eq_refl eq_refl dip_and_rally_sorted)
    as (ts & signals & s' & Hr & _ & Hsorted).
  exists ts, signals, s'. split; [exact Hr|]. split; [|exact Hsorted].
  rewrite (backtest_run fsqrt_dec TradingStrategy_init
             (store_of dip_and_rally (flat_volume 65)) 1
             (raw_frame dip_and_rally (flat_volume 65))
             dip_and_rally "T" eq_refl eq_refl) in Hr.
  apply (f_equal (λ r, match r.1 with
                       | Ok (t, _) => trade_dates t
                       | Raise _ => []
                       end)) in Hr.
  cbn [fst] in Hr. rewrite <- Hr.
  exact (proj1 dip_and_rally_ledger).
Defined.

(** X14.  The capital after a backtest is the capital before it with the
    pnl of each trade of the returned ledger added in turn; a position
    still open at the end adds nothing, and the other settings of the
    strategy are untouched. *)
Theorem backtest_capital_is_ledger_sum (fsqrt : F64 → F64)
  (self : TradingStrategy) (h : heap) (data : loc) (df : DataFrame)
  (close : column) (ticker : string) :
  h !! data = Some df → df_cols df !! "Close" = Some close →
  ∃ ts signals self' h',
    backtest fsqrt data ticker (self, h) = (Ok (ts, signals), (self', h'))
    ∧ self_portfolio_value self'
      = fold_left fadd (tr_pnl <$> ts) (self_portfolio_value self)
    ∧ self' = set_portfolio_value (self_portfolio_value self') self.
Proof.
  intros Hh Hc.
  rewrite (backtest_run fsqrt self h data df close ticker Hh Hc).
  eexists _, _, _, _. split; [reflexivity|].
  set (signals := omap _ _).
  destruct (backtest_loop_capital ticker signals
              (bt_init (self_portfolio_value self))) as (new & Ht & Hp).
  cbn [bt_init trades portfolio_value app] in Ht, Hp.
  cbn [set_portfolio_value self_portfolio_value].
  rewrite Ht. split; [exact Hp | reflexivity].
Qed.

Lemma backtest_capital_is_ledger_sum_witness :
  ∃ ts signals self' h',
    backtest fsqrt_dec 1 "T"
      (TradingStrategy_init, store_of dip_and_rally (flat_volume 65))
    = (Ok (ts, signals), (self', h'))
    ∧ tr_pnl <$> ts = [F 3490]
    ∧ self_portfolio_value self' = fold_left fadd (tr_pnl <$> ts) (F 100000).
Proof.
  destruct (backtest_capital_is_ledger_sum fsqrt_dec TradingStrategy_init
              (store_of dip_and_rally (flat_volume 65)) 1
              (raw_frame dip_and_rally (flat_volume 65))
              dip_and_rally "T" eq_refl eq_refl)
    as (ts & signals & self' & h' & Hr & Hp & _).
  exists ts, signals, self', h'. split; [exact Hr|]. split; [|exact Hp].
  rewrite (backtest_run fsqrt_dec TradingStrategy_init
             (store_of dip_and_rally (flat_volume 65)) 1
             (raw_frame dip_and_rally (flat_volume 65))
             dip_and_rally "T" eq_refl eq_refl) in Hr.
  apply (f_equal (λ r, match r.1 with
                       | Ok (t, _) => tr_pnl <$> t
                       | Raise _ => []
                       end)) in Hr.
  cbn [fst] in Hr. rewrite <- Hr.
  exact (proj1 (proj2 (proj2 dip_and_rally_ledger))).
Defined.

(** ** The metrics *)

Lemma filter_complement_length {A} (P Q : A → Prop)
  `{∀ x, Decision (P x)} `{∀ x, Decision (Q x)} (l : list A) :
  (∀ x, P x ↔ ¬ Q x) →
  (length (filter P l) + length (filter Q l) = length l)%nat.
Proof.
  intros HPQ. induction l as [|x l IH]; [reflexivity|].
  rewrite !filter_cons.
  destruct (decide (P x)) as [Hp|Hp], (decide (Q x)) as [Hq|Hq];
    cbn [length]; try lia.
  - apply HPQ in Hp. contradiction.
  - exfalso. apply Hp, HPQ, Hq.
Qed.

Lemma Qnat_le (m n : nat) : (m ≤ n)%nat → Qnat m <= Qnat n.
Proof. intros H. unfold Qnat. rewrite <- Zle_Qle. lia. Qed.

Lemma Qratio_percent (a b : Q) :
  0 <= a → a <= b → 0 < b → 0 <= a / b * 100 ∧ a / b * 100 <= 100.
Proof.
  intros Ha Hab Hb.
  assert (H0 : 0 <= a / b) by (apply Qle_shift_div_l; lra).
  assert (H1 : a / b <= 1) by (apply Qle_shift_div_r; lra).
  split; lra.
Qed.

(** X15.  The counts of a non-empty ledger: [winning_trades] counts the
    trades whose pnl is above 0 and [losing_trades] all the others, so a
    trade that breaks even, or whose pnl is null, counts as losing; the
    two add up to [total_trades], and [win_rate] is a number between 0
    and 100. *)
Theorem metrics_counts (t : Trade) (ts : list Trade) :
  let ledger := t :: ts in
  let m := calculate_metrics ledger in
  let won := length (filter (λ t, fgt (tr_pnl t) (F 0) = true) ledger) in
  let lost := length (filter (λ t, fgt (tr_pnl t) (F 0) = false) ledger) in
  m !! "total_trades" = Some (PInt (Z.of_nat (length ledger)))
  ∧ m !! "winning_trades" = Some (PInt (Z.of_nat won))
  ∧ m !! "losing_trades" = Some (PInt (Z.of_nat lost))
  ∧ (won + lost = length ledger)%nat
  ∧ ∃ q, m !! "win_rate" = Some (PFloat (Fin q)) ∧ 0 <= q ∧ q <= 100.
Proof.
  intros ledger m won lost.
  assert (Hsum : (won + lost = length ledger)%nat).
  { apply filter_complement_length. intros x.
    destruct (fgt (tr_pnl x) (F 0)); split; congruence. }
  assert (Hpos : (0 < length ledger)%nat) by (simpl; lia).
  split; [reflexivity|]. split; [reflexivity|]. split; [|split].
  - subst m. unfold calculate_metrics. subst ledger. cbv beta iota zeta.
    rewrite !lookup_insert_ne by done. rewrite lookup_insert_eq.
    do 2 f_equal. fold won. lia.
  - exact Hsum.
  - subst m. unfold calculate_metrics. subst ledger. cbv beta iota zeta.
    rewrite lookup_insert_ne by done. rewrite lookup_insert_eq.
    fold won. destruct (decide _) as [_|Hn]; [|simpl in Hn; lia].
    unfold Fnat, F, fdiv, fmul. fold (Qnat won).
    fold (Qnat (length (t :: ts))).
    assert (Hn : 0 < Qnat (length (t :: ts))) by (apply Qnat_pos; exact Hpos).
    rewrite Qeq_bool_false by lra.
    eexists. split; [reflexivity|].
    apply Qratio_percent; [| |exact Hn].
    + change 0 with (Qnat 0). apply Qnat_le. lia.
    + apply Qnat_le. lia.
Qed.

Lemma max_drawdown_lookup (t : Trade) (ts : list Trade) :
  let cumulative := cumsum_from (tr_pnl t) (tr_pnl <$> ts) in
  calculate_metrics (t :: ts) !! "max_drawdown"
  = Some (PFloat (np_min (drawdown_at (tr_pnl t) (tr_pnl t))
                    (zip_with drawdown_at cumulative
                       (maximum_accumulate_from (tr_pnl t) cumulative)))).
Proof.
  intros cumulative. unfold calculate_metrics. cbv beta iota zeta.
  cbn [fmap list_fmap cumsum maximum_accumulate zip_with].
  rewrite !lookup_insert_ne by done. rewrite lookup_insert_eq. reflexivity.
Qed.

Lemma np_maximum_fin (m y : Q) :
  ∃ m', np_maximum (Fin m) (Fin y) = Fin m' ∧ m <= m' ∧ y <= m'.
Proof.
  unfold np_maximum. cbn [isna orb]. unfold flt.
  destruct (Qcompare_spec m y) as [E|E|E]; eexists; (split; [reflexivity|]);
    split; lra.
Qed.

Lemma np_maximum_keep (m y : Q) :
  y <= m → np_maximum (Fin m) (Fin y) = Fin m.
Proof.
  intros Hy. unfold np_maximum. cbn [isna orb]. unfold flt.
  destruct (Qcompare_spec m y) as [E|E|E]; try reflexivity. exfalso; lra.
Qed.

Lemma Qquot_nonpos (a b : Q) : a <= 0 → 0 < b → a / b * 100 <= 0.
Proof.
  intros Ha Hb. assert (H : a / b <= 0) by (apply Qle_shift_div_r; lra). lra.
Qed.

Lemma Qquot_neg_nonneg (a b : Q) : a <= 0 → b < 0 → 0 <= a / b * 100.
Proof.
  intros Ha Hb.
  assert (E : a / b == (- a) / (- b)) by (field; lra).
  assert (H : 0 <= (- a) / (- b)) by (apply Qle_shift_div_l; lra).
  rewrite E. lra.
Qed.

(** Behind a positive peak every drawdown entry is a number, at most 0. *)
Lemma drawdowns_nonpositive (l : list F64) : ∀ c m,
  Forall (λ x, is_finite x = true) l → c <= m → 0 < m →
  Forall (fin_with (λ q, q <= 0))
    (zip_with drawdown_at (cumsum_from (Fin c) l)
       (maximum_accumulate_from (Fin m) (cumsum_from (Fin c) l))).
Proof.
  induction l as [|x l IH]; intros c m Hl Hc Hm; [constructor|].
  apply Forall_cons in Hl as [Hx Hl].
  destruct x as [b| | |]; try discriminate.
  cbn [cumsum_from maximum_accumulate_from zip_with fadd].
  destruct (np_maximum_fin m (c + b)) as (m' & -> & Hm1 & Hm2).
  constructor.
  - rewrite drawdown_at_nonzero by lra. eexists. split; [reflexivity|].
    apply Qquot_nonpos; lra.
  - apply IH; [assumption | lra | lra].
Qed.

(** Behind a negative first entry, with losses only, the peak stays the
    first entry and every drawdown entry is a number, at least 0. *)
Lemma drawdowns_of_losses (a : Q) (l : list F64) : ∀ c,
  Forall (fin_with (λ q, q <= 0)) l → c <= a → a < 0 →
  Forall (fin_with (λ q, 0 <= q))
    (zip_with drawdown_at (cumsum_from (Fin c) l)
       (maximum_accumulate_from (Fin a) (cumsum_from (Fin c) l))).
Proof.
  induction l as [|x l IH]; intros c Hl Hc Ha; [constructor|].
  apply Forall_cons in Hl as [(b & -> & Hb) Hl].
  cbn [cumsum_from maximum_accumulate_from zip_with fadd].
  rewrite np_maximum_keep by lra. constructor.
  - rewrite drawdown_at_nonzero by lra. eexists. split; [reflexivity|].
    apply Qquot_neg_nonneg; lra.
  - apply IH; [assumption | lra | lra].
Qed.

Lemma np_min_keep (q0 : Q) (l : list F64) :
  q0 <= 0 → Forall (fin_with (λ q, 0 <= q)) l → np_min (Fin q0) l = Fin q0.
Proof.
  intros H0. induction 1 as [|x l (q & -> & Hq) _ IH]; [reflexivity|].
  unfold np_min in *. cbn [fold_left].
  replace (np_minimum (Fin q0) (Fin q)) with (Fin q0); [exact IH|].
  unfold np_minimum. cbn [isna orb]. unfold flt.
  destruct (Qcompare_spec q q0) as [E|E|E]; try reflexivity. exfalso; lra.
Qed.

(** X16.  A ledger that only loses money reports no drawdown.  When the
    first trade has a negative pnl and no later trade has a positive one,
    the running peak stays at that first loss and [max_drawdown] is 0. *)
Theorem losing_ledger_reports_no_drawdown (t : Trade) (ts : list Trade) :
  fin_with (λ q, q < 0) (tr_pnl t) →
  Forall (λ t', fin_with (λ q, q <= 0) (tr_pnl t')) ts →
  ∃ x, calculate_metrics (t :: ts) !! "max_drawdown" = Some (PFloat x)
       ∧ x ≈ F 0.
Proof.
  intros (a & Ha & Hneg) Hts. rewrite max_drawdown_lookup, Ha.
  eexists. split; [reflexivity|].
  rewrite drawdown_at_nonzero by lra.
  assert (E0 : (a - a) / a * 100 == 0) by (field; lra).
  rewrite np_min_keep.
  - simpl. rewrite E0. reflexivity.
  - lra.
  - apply drawdowns_of_losses; [|lra|exact Hneg].
    apply Forall_fmap. exact Hts.
Qed.

Lemma losing_ledger_reports_no_drawdown_witness :
  ∃ x, calculate_metrics [mk_trade (F (-500)) (F (-5));
                          mk_trade (F (-300)) (F (-3))] !! "max_drawdown"
       = Some (PFloat x) ∧ x ≈ F 0.
Proof.
  apply (losing_ledger_reports_no_drawdown
           (mk_trade (F (-500)) (F (-5))) [mk_trade (F (-300)) (F (-3))]).
  - exists (inject_Z (-500)). split; [reflexivity|]. reflexivity.
  - constructor; [|constructor].
    exists (inject_Z (-300)). split; [reflexivity|]. discriminate.
Defined.

(** X17.  When the first trade of a ledger wins, the running peak is
    positive throughout and [max_drawdown] is a number, at most 0.  This
    is for amounts that keep the sums and the quotient clear of overflow:
    a first pnl of at least 2^-200, no pnl above 2^200 in magnitude, and
    at most 2^40 trades. *)
Theorem winning_start_drawdown_nonpositive (t : Trade) (ts : list Trade) :
  fin_with (λ q, / inject_Z (2 ^ 200) <= q ∧ q <= inject_Z (2 ^ 200))
    (tr_pnl t) →
  Forall (λ t', fin_with (λ q, - inject_Z (2 ^ 200) <= q
                               ∧ q <= inject_Z (2 ^ 200)) (tr_pnl t')) ts →
  (Z.of_nat (length ts) < 2 ^ 40)%Z →
  ∃ q, calculate_metrics (t :: ts) !! "max_drawdown" = Some (PFloat (Fin q))
       ∧ q <= 0.
Proof.
  intros (a & Ha & Hlow & _) Hts' _.
  assert (Hpos : 0 < a).
  { assert (0 < / inject_Z (2 ^ 200)); [|lra].
    apply Qinv_lt_0_compat. change 0 with (inject_Z 0).
    rewrite <- Zlt_Qlt. reflexivity. }
  assert (Hts : Forall (λ t', is_finite (tr_pnl t') = true) ts).
  { eapply Forall_impl; [exact Hts'|]. intros t' (q & -> & _). reflexivity. }
  rewrite max_drawdown_lookup, Ha.
  set (d := drawdown_at (Fin a) (Fin a)).
  set (ds := zip_with _ _ _).
  assert (Hall : Forall (fin_with (λ q, q <= 0)) (d :: ds)).
  { constructor.
    - unfold d. rewrite drawdown_at_nonzero by lra.
      eexists. split; [reflexivity|]. apply Qquot_nonpos; lra.
    - apply drawdowns_nonpositive; [|lra|exact Hpos].
      apply Forall_fmap. exact Hts. }
  destruct (np_min_least ds d) as (Hin & _ & _).
  { eapply Forall_impl; [exact Hall|]. intros x (q & -> & _). reflexivity. }
  rewrite Forall_forall in Hall.
  destruct (Hall _ Hin) as (q & -> & Hq).
  exists q. split; [reflexivity | exact Hq].
Qed.

Lemma winning_start_drawdown_nonpositive_witness :
  ∃ q, calculate_metrics [mk_trade (F 500) (F 5);
                          mk_trade (F (-300)) (F (-3))] !! "max_drawdown"
       = Some (PFloat (Fin q)) ∧ q <= 0.
Proof.
  apply (winning_start_drawdown_nonpositive
           (mk_trade (F 500) (F 5)) [mk_trade (F (-300)) (F (-3))]).
  - exists (inject_Z 500). split; [reflexivity|].
    split; vm_compute; discriminate.
  - constructor; [|constructor].
    exists (inject_Z (-300)). split; [reflexivity|].
    split; vm_compute; discriminate.
  - vm_compute. reflexivity.
Defined.

(** ** The predictor *)

Lemma length_omap_le {A B} (f : A → option B) (l : list A) :
  (length (omap f l) ≤ length l)%nat.
Proof.
  induction l as [|x l IH]; [reflexivity|].
  change (omap f (x :: l))
    with (match f x with Some y => y :: omap f l | None => omap f l end).
  destruct (f x); simpl; lia.
Qed.

Lemma forallb_false_at {A} (p : A → bool) (l : list A) (k : nat) (x : A) :
  l !! k = Some x → p x = false → forallb p l = false.
Proof.
  intros Hk Hx. destruct (forallb p l) eqn:E; [|reflexivity].
  rewrite forallb_forall in E. rewrite <- Hx. symmetry. apply E.
  apply list_elem_of_In. eapply list_elem_of_lookup_2, Hk.
Qed.

(** A row before bar 49 has no 50-bar average, so it is not clean. *)
Lemma early_row_has_null (close volume : column) (k i : nat) :
  (5 ≤ k)%nat → (i < 49)%nat →
  forallb (λ x, negb (isna x)) (row (take k (training_columns close volume)) i)
  = false.
Proof.
  intros Hk Hi. apply (forallb_false_at _ _ 4 NaN); [|reflexivity].
  unfold row. rewrite list_lookup_fmap, lookup_take_lt by lia.
  replace (training_columns close volume !! 4%nat)
    with (Some (rolling_mean 50 close)).
  - simpl. rewrite (iloc_rolling_mean_early 50 close i) by lia. reflexivity.
  - unfold training_columns, moving_averages_series.
    destruct (macd_series 12 26 9 close) as [[macd signal_line] histogram].
    reflexivity.
Qed.

Lemma clean_rows_bound (n : nat) (close volume : column) :
  (length (dropna n (training_columns close volume)) ≤ n - 49)%nat.
Proof.
  unfold dropna. set (f := λ i : nat, _).
  assert (Hlow : ∀ i, (i < 49)%nat → f i = None).
  { intros i Hi. unfold f. cbv zeta.
    rewrite <- (take_ge (training_columns close volume) 8) at 1.
    - rewrite (early_row_has_null close volume 8 i) by lia. reflexivity.
    - unfold training_columns, moving_averages_series.
      destruct (macd_series 12 26 9 close) as [[macd signal_line] histogram].
      simpl. lia. }
  destruct (decide (n ≤ 49)%nat) as [Hs|Hl].
  - rewrite omap_all_None; [simpl; lia|].
    apply Forall_forall. intros i Hi. apply elem_of_seq in Hi.
    apply Hlow. lia.
  - replace n with (49 + (n - 49))%nat at 1 by lia.
    rewrite seq_app, omap_app, omap_all_None.
    + rewrite app_nil_l. etrans; [apply length_omap_le|].
      rewrite length_seq. lia.
    + apply Forall_forall. intros i Hi. apply elem_of_seq in Hi.
      apply Hlow. lia.
Qed.

Section InferenceRuns.

Context `{SklearnProba}.
Variable fsqrt : F64 → F64.

Lemma evaluate_model_run (self : MLPredictor) (h : heap) (data : loc)
  (df : DataFrame) (close volume : column) :
  h !! data = Some df →
  df_cols df !! "Close" = Some close →
  df_cols df !! "Volume" = Some volume →
  let clean := dropna (length (df_index df)) (training_columns close volume) in
  let self1 := set_feature_columns trained_features self in
  let s1 := (self1, <[data := prepared fsqrt close volume df]> h) in
  (length clean < 30)%nat →
  evaluate_model fsqrt data (self, h) = (Ok None, s1).
Proof.
  intros Hh Hc Hv clean self1 s1 Hlen.
  unfold evaluate_model, try_except. unfold mbind at 1, M_bind at 1.
  rewrite (clean_training_data_run fsqrt self h data df close volume Hh Hc Hv).
  fold clean self1 s1. unfold mbind, M_bind, get_self.
  destruct (decide (length clean < 30)%nat); [reflexivity|contradiction].
Qed.

(** The frame [predict] selects its last row from. *)
Lemma select_features_run (self : MLPredictor) (h : heap) (data : loc)
  (df : DataFrame) (close volume : column) :
  select data trained_features (<[data := prepared fsqrt close volume df]> h)
  = (Ok (take 7 (training_columns close volume)),
     <[data := prepared fsqrt close volume df]> h).
Proof.
  destruct (prepared_values fsqrt close volume df)
    as (H1 & H2 & H3 & H4 & H5 & H6 & H7 & _).
  cbn [trained_features select].
  unfold mbind, M_bind, mret, M_ret, get_col.
  repeat (first [rewrite lookup_insert_eq | rewrite H1 | rewrite H2
                | rewrite H3 | rewrite H4 | rewrite H5 | rewrite H6
                | rewrite H7 | progress cbn beta iota zeta ]).
  unfold training_columns, moving_averages_series.
  destruct (macd_series 12 26 9 close) as [[macd signal_line] histogram].
  reflexivity.
Qed.

Lemma predict_run_short (self : MLPredictor) (h : heap) (data : loc)
  (df : DataFrame) (close volume : column) :
  h !! data = Some df →
  df_cols df !! "Close" = Some close →
  df_cols df !! "Volume" = Some volume →
  is_Some (model self) →
  (length (df_index df) < 50)%nat →
  predict fsqrt data (self, h)
  = (Ok None, (set_feature_columns trained_features self,
               <[data := prepared fsqrt close volume df]> h)).
Proof.
  intros Hh Hc Hv [e He] Hn.
  unfold predict, try_except. unfold mbind at 1, M_bind at 1, get_self.
  cbn [fst]. rewrite He.
  unfold mbind at 1, M_bind at 1.
  rewrite (prepare_features_run fsqrt self h data df close volume Hh Hc Hv).
  unfold mbind at 1, M_bind at 1. cbn [fst].
  unfold mbind at 1, M_bind at 1, lift_heap at 1.
  cbn [fst snd feature_columns set_feature_columns].
  rewrite select_features_run; [|exact self].
  unfold mbind at 1, M_bind at 1, lift_heap, get_index.
  cbn [fst snd]. rewrite lookup_insert_eq. rewrite prepared_index.
  assert (E : dropna_rows (last_row (length (df_index df)))
                (take 7 (training_columns close volume)) = []).
  { unfold dropna_rows, last_row. destruct (length (df_index df)) as [|m];
      [reflexivity|].
    cbn [omap list_omap]. cbv zeta.
    rewrite (early_row_has_null close volume 7 m) by lia. reflexivity. }
  rewrite E. reflexivity.
Qed.

End InferenceRuns.

(** X18.  Too short a history is refused.  On a frame with [Close] and
    [Volume], no row before bar 49 is clean, so a frame of fewer than 99
    rows leaves fewer than 50 clean rows and [train_model] answers
    [False]; one of fewer than 79 rows makes [evaluate_model] answer
    [None]; one of fewer than 50 rows makes [predict] answer [None].  In
    each case the features have been computed into the caller's frame and
    the feature list replaced, the rest of the predictor being as it
    was. *)
Theorem short_history_is_refused `{SklearnProba} (fsqrt : F64 → F64)
  (self : MLPredictor) (h : heap) (data : loc) (df : DataFrame)
  (close volume : column) :
  h !! data = Some df →
  df_cols df !! "Close" = Some close →
  df_cols df !! "Volume" = Some volume →
  let n := length (df_index df) in
  let s1 := (set_feature_columns trained_features self,
             <[data := prepared fsqrt close volume df]> h) in
  ((n < 99)%nat → train_model fsqrt data (self, h) = (Ok false, s1))
  ∧ ((n < 79)%nat → evaluate_model fsqrt data (self, h) = (Ok None, s1))
  ∧ ((n < 50)%nat → is_Some (model self) →
     predict fsqrt data (self, h) = (Ok None, s1)).
Proof.
  intros Hh Hc Hv n s1.
  pose proof (clean_rows_bound n close volume) as Hb.
  split; [|split].
  - intros Hn.
    rewrite (train_model_run fsqrt self h data df close volume Hh Hc Hv).
    destruct (decide _) as [_|Hge]; [reflexivity|]. fold n in Hge. lia.
  - intros Hn. apply evaluate_model_run; try assumption. fold n. lia.
  - intros Hn Hm. apply predict_run_short; assumption.
Qed.

Lemma short_history_is_refused_witness :
  ∃ s1,
    train_model fsqrt_dec 1
      (trained_predictor, store_of (rising_prices 98) (flat_volume 98))
    = (Ok false, s1)
    ∧ evaluate_model fsqrt_dec 1
        (trained_predictor, store_of (rising_prices 78) (flat_volume 78))
      = (Ok None,
         (set_feature_columns trained_features trained_predictor,
          <[1%positive := prepared fsqrt_dec (rising_prices 78) (flat_volume 78)
                            (raw_frame (rising_prices 78) (flat_volume 78))]>
            (store_of (rising_prices 78) (flat_volume 78))))
    ∧ predict fsqrt_dec 1
        (trained_predictor, store_of (rising_prices 49) (flat_volume 49))
      = (Ok None,
         (set_feature_columns trained_features trained_predictor,
          <[1%positive := prepared fsqrt_dec (rising_prices 49) (flat_volume 49)
                            (raw_frame (rising_prices 49) (flat_volume 49))]>
            (store_of (rising_prices 49) (flat_volume 49)))).
Proof.
  destruct (short_history_is_refused fsqrt_dec trained_predictor
              (store_of (rising_prices 98) (flat_volume 98)) 1
              (raw_frame (rising_prices 98) (flat_volume 98))
              (rising_prices 98) (flat_volume 98) eq_refl eq_refl eq_refl)
    as (Ht & _).
  destruct (short_history_is_refused fsqrt_dec trained_predictor
              (store_of (rising_prices 78) (flat_volume 78)) 1
              (raw_frame (rising_prices 78) (flat_volume 78))
              (rising_prices 78) (flat_volume 78) eq_refl eq_refl eq_refl)
    as (_ & He & _).
  destruct (short_history_is_refused fsqrt_dec trained_predictor
              (store_of (rising_prices 49) (flat_volume 49)) 1
              (raw_frame (rising_prices 49) (flat_volume 49))
              (rising_prices 49) (flat_volume 49) eq_refl eq_refl eq_refl)
    as (_ & _ & Hp).
  eexists. split; [apply Ht; vm_compute; lia|].
  split; [apply He; vm_compute; lia|].
  apply Hp; [vm_compute; lia | eexists; reflexivity].
Defined.

Section InferenceFacts.

Context `{SklearnProba}.
Variable fsqrt : F64 → F64.

Lemma stable_ext {A} (r : result A) : self_stable (ext r).
Proof. intros s r' s' Hr. injection Hr as <- <-. apply keeps_refl. Qed.

Lemma stable_raise {A} (e : exn) :
  self_stable (raise e : M (MLPredictor * heap) A).
Proof. intros s r' s' Hr. injection Hr as <- <-. apply keeps_refl. Qed.

Lemma stable_index_or_raise {A} (l : list A) (i : nat) :
  self_stable (index_or_raise l i : M (MLPredictor * heap) A).
Proof.
  unfold index_or_raise. destruct (l !! i);
    [apply stable_mret | apply stable_raise].
Qed.

Lemma stable_scaler_apply (X : table) : self_stable (scaler_apply X).
Proof.
  unfold scaler_apply. apply stable_bind; [apply stable_get_self|].
  intros self. destruct (scaler self); [apply stable_ext | apply stable_raise].
Qed.

Lemma stable_model_predict (X : table) : self_stable (model_predict X).
Proof.
  unfold model_predict. apply stable_bind; [apply stable_get_self|].
  intros self. destruct (model self) as [[k|k m]|];
    [apply stable_raise | apply stable_ext | apply stable_raise].
Qed.

Lemma stable_model_predict_proba (X : table) :
  self_stable (model_predict_proba X).
Proof.
  unfold model_predict_proba. apply stable_bind; [apply stable_get_self|].
  intros self. destruct (model self) as [[k|k m]|];
    [apply stable_raise | apply stable_ext | apply stable_raise].
Qed.

Lemma stable_try {A} (m : M (MLPredictor * heap) A)
  (hd : exn → M (MLPredictor * heap) A) :
  self_stable m → (∀ e, self_stable (hd e)) → self_stable (try_except m hd).
Proof.
  intros Hm Hh s r s'. unfold try_except.
  destruct (m s) as [[a|e] s1] eqn:E; intros Hr.
  - injection Hr as <- <-. eapply Hm, E.
  - eapply keeps_trans; [eapply Hm, E | eapply Hh, Hr].
Qed.

Lemma predict_stable (data : loc) : self_stable (predict fsqrt data).
Proof.
  unfold predict. apply stable_try; [|intros; apply stable_mret].
  apply stable_bind; [apply stable_get_self|intros self0].
  destruct (model self0); [|apply stable_mret].
  apply stable_bind; [apply prepare_features_stable|intros d].
  apply stable_bind; [apply stable_get_self|intros self1].
  apply stable_bind; [apply stable_lift|intros cols].
  apply stable_bind; [apply stable_lift|intros index].
  cbv zeta. destruct (decide _); [apply stable_mret|].
  unfold predict_latest. apply stable_bind.
  { destruct (String.eqb _ _); [apply stable_scaler_apply|apply stable_mret]. }
  intros latest.
  apply stable_bind; [apply stable_model_predict|intros predictions].
  apply stable_bind; [apply stable_index_or_raise|intros p].
  apply stable_bind; [apply stable_model_predict_proba|intros probabilities].
  apply stable_bind; [apply stable_index_or_raise|intros probability].
  apply stable_bind; [apply stable_index_or_raise|intros p0].
  apply stable_bind; [apply stable_index_or_raise|intros p1].
  apply stable_mret.
Qed.

Lemma evaluate_model_stable (data : loc) :
  self_stable (evaluate_model fsqrt data).
Proof.
  unfold evaluate_model. apply stable_try; [|intros; apply stable_mret].
  apply stable_bind; [apply clean_training_data_stable|intros clean].
  apply stable_bind; [apply stable_get_self|intros self1].
  destruct (decide _); [apply stable_mret|]. unfold score_clean. cbv zeta.
  apply stable_bind.
  { destruct (String.eqb _ _); [|apply stable_model_predict].
    apply stable_bind; [apply stable_scaler_apply|intros X].
    apply stable_model_predict. }
  intros predictions.
  apply stable_bind; [apply stable_ext|intros acc].
  destruct (decide _); [apply stable_mret | apply stable_raise].
Qed.

(** A method whose body is wrapped in [try ... except: return None]
    returns, and what it leaves of the predictor is what its body does. *)
Lemma try_none_returns {A} (m : M (MLPredictor * heap) (option A))
  (self : MLPredictor) (h : heap) :
  self_stable m →
  ∃ o self' h',
    try_except m (λ _, mret None) (self, h) = (Ok o, (self', h'))
    ∧ keeps self self'.
Proof.
  intros Hm. unfold try_except.
  destruct (m (self, h)) as [[o|e] [self' h']] eqn:E.
  - exists o, self', h'. split; [reflexivity|]. apply (Hm _ _ _ E).
  - exists None, self', h'. split; [reflexivity|]. apply (Hm _ _ _ E).
Qed.

End InferenceFacts.

(** X20.  [predict] and [evaluate_model] never raise, whatever the frame
    and whatever scikit-learn does, and neither replaces the model, its
    accuracy or the scaler of the predictor. *)
Theorem inference_keeps_the_model `{SklearnProba} (fsqrt : F64 → F64)
  (data : loc) (self : MLPredictor) (h : heap) :
  (∃ o self' h',
     predict fsqrt data (self, h) = (Ok o, (self', h')) ∧ keeps self self')
  ∧ (∃ o self' h',
       evaluate_model fsqrt data (self, h) = (Ok o, (self', h'))
       ∧ keeps self self').
Proof.
  split.
  - destruct (predict fsqrt data (self, h)) as [[o|e] [self' h']] eqn:E.
    + exists o, self', h'. split; [reflexivity|].
      apply (predict_stable fsqrt data _ _ _ E).
    + exfalso. unfold predict, try_except in E.
      match type of E with
      | (let (_, _) := ?m in _) = _ => destruct m as [[o|e'] s1]
      end; discriminate.
  - destruct (evaluate_model fsqrt data (self, h)) as [[o|e] [self' h']] eqn:E.
    + exists o, self', h'. split; [reflexivity|].
      apply (evaluate_model_stable fsqrt data _ _ _ E).
    + exfalso. unfold evaluate_model, try_except in E.
      match type of E with
      | (let (_, _) := ?m in _) = _ => destruct m as [[o|e'] s1]
      end; discriminate.
Qed.

(** X19.  A predictor that holds no model: [predict] answers [None]
    before touching anything, frame included; [get_feature_importance]
    answers [None]; and [evaluate_model] answers [None] on every frame,
    whatever scikit-learn does. *)
Theorem untrained_predictor_answers_none `{SklearnProba} (fsqrt : F64 → F64)
  (data : loc) (self : MLPredictor) (h : heap) :
  model self = None →
  predict fsqrt data (self, h) = (Ok None, (self, h))
  ∧ get_feature_importance (self, h) = (Ok None, (self, h))
  ∧ ∃ s', evaluate_model fsqrt data (self, h) = (Ok None, s').
Proof.
  intros Hm. split; [|split].
  - unfold predict, try_except, mbind, M_bind, get_self. cbn [fst].
    rewrite Hm. reflexivity.
  - unfold get_feature_importance, mbind, M_bind, get_self. cbn [fst].
    rewrite Hm. reflexivity.
  - unfold evaluate_model, try_except. unfold mbind at 1, M_bind at 1.
    destruct (clean_training_data fsqrt data (self, h))
      as [[clean|e] [self1 h1]] eqn:E; [|eexists; reflexivity].
    pose proof (clean_training_data_stable fsqrt data _ _ _ E)
      as (Hm1 & _). cbn [fst] in Hm1. rewrite Hm in Hm1.
    unfold mbind at 1, M_bind at 1, get_self. cbn [fst].
    destruct (decide _); [eexists; reflexivity|].
    unfold score_clean. cbv zeta.
    unfold scaler_apply, model_predict, mbind, M_bind, get_self, ext, raise.
    destruct (String.eqb _ _); cbn [fst]; rewrite ?Hm1;
      [|eexists; reflexivity].
    destruct (scaler self1) as [sc|]; [|eexists; reflexivity].
    destruct (scaler_transform sc _); cbn [fst]; rewrite ?Hm1;
      eexists; reflexivity.
Qed.

Lemma untrained_predictor_answers_none_witness :
  predict fsqrt_dec 1
    (MLPredictor_init "RandomForest",
     store_of (rising_prices 60) (flat_volume 60))
  = (Ok None, (MLPredictor_init "RandomForest",
               store_of (rising_prices 60) (flat_volume 60))).
Proof.
  apply (untrained_predictor_answers_none fsqrt_dec 1
           (MLPredictor_init "RandomForest")
           (store_of (rising_prices 60) (flat_volume 60))).
  reflexivity.
Defined.

(** *** The ranking of the features *)

Lemma importance_ge_total : Total importance_ge.
Proof.
  intros [fa a] [fb b]. unfold importance_ge. cbn [snd].
  destruct a as [p| | |], b as [q| | |]; cbn [isna flt]; auto.
  destruct (Qcompare_spec p q), (Qcompare_spec q p); auto;
    exfalso; lra.
Qed.

Lemma importance_ge_trans : Transitive importance_ge.
Proof.
  intros [fa a] [fb b] [fc c]. unfold importance_ge. cbn [snd].
  intros [Hb|[Ha Hab]] [Hc|[Hb' Hbc]]; auto; [congruence|].
  right. split; [exact Ha|].
  destruct a as [p| | |], b as [q| | |], c as [r| | |];
    cbn [isna flt] in *; try discriminate; try reflexivity.
  destruct (Qcompare_spec p q), (Qcompare_spec q r), (Qcompare_spec p r);
    try discriminate; try reflexivity; exfalso; lra.
Qed.

(** X22.  [get_feature_importance] on a fitted model.  A logistic
    regression has no importances and the answer is [None].  For a tree
    or a forest whose importances are as many as the features, the answer
    pairs each feature with its importance, every pair once, ordered so
    that no row has a smaller importance than a later one, nulls last;
    the predictor is not changed. *)
Theorem feature_importance_ranked `{SklearnProba} (self : MLPredictor)
  (h : heap) (k : model_kind) (m : fitted_model) :
  model self = Some (Fitted k m) →
  (k = LogisticRegression →
   get_feature_importance (self, h) = (Ok None, (self, h)))
  ∧ (k ≠ LogisticRegression →
     length (feature_columns self) = length (tree_importances m) →
     ∃ ranking,
       get_feature_importance (self, h) = (Ok (Some ranking), (self, h))
       ∧ ranking ≡ₚ zip (feature_columns self) (tree_importances m)
       ∧ StronglySorted importance_ge ranking).
Proof.
  intros Hm. split.
  - intros ->. unfold get_feature_importance, mbind, M_bind, get_self.
    cbn [fst]. rewrite Hm. reflexivity.
  - intros Hk Hlen.
    exists (merge_sort importance_ge
              (zip (feature_columns self) (tree_importances m))).
    split; [|split].
    + assert (E : importances_of (Fitted k m) = Some (tree_importances m))
        by (destruct k; [reflexivity|congruence|reflexivity]).
      unfold get_feature_importance, mbind, M_bind, get_self.
      cbn [fst]. rewrite Hm. cbn [option_bind]. rewrite E.
      destruct (decide _) as [_|Hn]; [reflexivity|contradiction].
    + apply merge_sort_Permutation.
    + apply (StronglySorted_merge_sort importance_ge
               (Transitive0 := importance_ge_trans)
               (Total0 := importance_ge_total)).
Qed.

Lemma feature_importance_ranked_witness :
  ∃ ranking,
    get_feature_importance (forest_predictor, ∅)
    = (Ok (Some ranking), (forest_predictor, ∅))
    ∧ StronglySorted importance_ge ranking.
Proof.
  destruct (feature_importance_ranked forest_predictor ∅ RandomForest
              (RandomForest, [F 1; F 0]) eq_refl) as [_ Hr].
  destruct Hr as (ranking & Hrun & _ & Hs); [discriminate|reflexivity|].
  exists ranking. split; [exact Hrun | exact Hs].
Defined.

(** *** Training *)

Lemma bind_Ok_inv {St A B} (m : M St A) (f : A → M St B) (s s' : St) (b : B) :
  (m ≫= f) s = (Ok b, s') → ∃ a s1, m s = (Ok a, s1) ∧ f a s1 = (Ok b, s').
Proof.
  unfold mbind, M_bind. destruct (m s) as [[a|e] s1]; [eauto|discriminate].
Qed.

Lemma lift_heap_self {Self A} (m : M heap A) (s s' : Self * heap)
  (r : result A) :
  lift_heap m s = (r, s') → s'.1 = s.1.
Proof.
  unfold lift_heap. destruct (m s.2) as [r' h']. intros E.
  injection E as <- <-. reflexivity.
Qed.

Section TrainingSuccess.

Context `{Sklearn}.
Variable fsqrt : F64 → F64.

Lemma prepare_features_ok (data d : loc) (s s' : MLPredictor * heap) :
  prepare_features fsqrt data s = (Ok d, s') →
  s'.1 = set_feature_columns trained_features s.1.
Proof.
  unfold prepare_features. intros E.
  repeat match type of E with
  | (lift_heap _ ≫= _) _ = _ =>
      let Hs := fresh "Hs" in
      apply bind_Ok_inv in E as (? & ? & Hs & E);
      apply lift_heap_self in Hs
  end.
  apply bind_Ok_inv in E as (? & ? & Hset & E).
  unfold set_self in Hset. inversion Hset; subst. clear Hset.
  inversion E; subst. cbn [fst]. unfold trained_features. congruence.
Qed.

Lemma clean_training_data_ok (data : loc) (clean : table)
  (s s' : MLPredictor * heap) :
  clean_training_data fsqrt data s = (Ok clean, s') →
  s'.1 = set_feature_columns trained_features s.1.
Proof.
  unfold clean_training_data. intros E.
  apply bind_Ok_inv in E as (d & s1 & Hp & E).
  apply prepare_features_ok in Hp.
  apply bind_Ok_inv in E as (self1 & s2 & Hg & E).
  injection Hg as <- <-.
  apply bind_Ok_inv in E as (cols & s3 & Hs3 & E).
  apply lift_heap_self in Hs3.
  apply bind_Ok_inv in E as (idx & s4 & Hs4 & E).
  apply lift_heap_self in Hs4.
  injection E as <- <-. congruence.
Qed.

Lemma ext_Ok_inv {St A} (r : result A) (s s' : St) (a : A) :
  ext r s = (Ok a, s') → r = Ok a ∧ s' = s.
Proof. unfold ext. intros E. injection E as -> <-. auto. Qed.

Lemma model_fit_predict_ok (X Xt : table) (y y_pred : list F64)
  (s2 s3 : MLPredictor * heap) :
  (model_fit X y ;; model_predict Xt) s2 = (Ok y_pred, s3) →
  ∃ e m, model s2.1 = Some e
         ∧ s3 = (set_model (Some (Fitted (kind_of e) m)) s2.1, s2.2).
Proof.
  intros E. apply bind_Ok_inv in E as ([] & s & Hfit & Hpred).
  unfold model_fit in Hfit.
  apply bind_Ok_inv in Hfit as (self & s0 & Hg & Hfit).
  injection Hg as <- <-.
  destruct (model s2.1) as [e|] eqn:He; [|discriminate].
  apply bind_Ok_inv in Hfit as (m & s0 & Hm & Hset).
  apply ext_Ok_inv in Hm as [_ ->].
  unfold set_self in Hset. injection Hset as <-.
  unfold model_predict in Hpred.
  apply bind_Ok_inv in Hpred as (self & s0 & Hg & Hpred).
  injection Hg as <- <-. cbn [fst model set_model] in Hpred.
  apply ext_Ok_inv in Hpred as [_ ->].
  exists e, m. split; reflexivity.
Qed.

Lemma fit_and_score_ok (self1 : MLPredictor) (clean : table) (h1 : heap)
  (s' : MLPredictor * heap) :
  fit_and_score self1 clean (self1, h1) = (Ok true, s') →
  (∃ k m, model s'.1 = Some (Fitted k m)
     ∧ (model_type self1 = "DecisionTree" → k = DecisionTree)
     ∧ (model_type self1 = "LogisticRegression" → k = LogisticRegression)
     ∧ (model_type self1 = "RandomForest" → k = RandomForest))
  ∧ is_Some (scaler s'.1)
  ∧ feature_columns s'.1 = feature_columns self1
  ∧ model_type s'.1 = model_type self1.
Proof.
  unfold fit_and_score. intros E.
  apply bind_Ok_inv in E as ([[[X_train X_test] y_train] y_test] & s & Hx & E).
  apply ext_Ok_inv in Hx as [_ ->].
  apply bind_Ok_inv in E as (sc & s & Hx & E).
  apply ext_Ok_inv in Hx as [_ ->].
  apply bind_Ok_inv in E as ([] & s & Hx & E).
  unfold set_self in Hx. injection Hx as <-. cbn [fst snd] in E.
  apply bind_Ok_inv in E as (Xs_train & s & Hx & E).
  apply ext_Ok_inv in Hx as [_ ->].
  apply bind_Ok_inv in E as (Xs_test & s & Hx & E).
  apply ext_Ok_inv in Hx as [_ ->].
  apply bind_Ok_inv in E as ([] & s2 & Hkind & E).
  apply bind_Ok_inv in E as (y_pred & s3 & Hfit & E).
  apply bind_Ok_inv in E as (acc & s & Hx & E).
  apply ext_Ok_inv in Hx as [_ ->].
  apply bind_Ok_inv in E as ([] & s & Hx & E).
  unfold set_self in Hx. injection Hx as <-.
  apply bind_Ok_inv in E as ([] & s & Hx & E).
  apply ext_Ok_inv in Hx as [_ ->].
  injection E as <-. cbn [fst snd].
  assert (Hfit' : ∃ e m, model s2.1 = Some e
            ∧ s3 = (set_model (Some (Fitted (kind_of e) m)) s2.1, s2.2)).
  { destruct (String.eqb (model_type self1) "LogisticRegression");
      eapply model_fit_predict_ok, Hfit. }
  destruct Hfit' as (e & m & He & ->). clear Hfit.
  cbn [fst snd model scaler feature_columns model_type set_accuracy set_model].
  unfold set_self, mret, M_ret in Hkind. cbn [fst snd] in Hkind.
  destruct (String.eqb (model_type self1) "DecisionTree") eqn:E1;
    [|destruct (String.eqb (model_type self1) "LogisticRegression") eqn:E2;
      [|destruct (String.eqb (model_type self1) "RandomForest") eqn:E3]];
    injection Hkind as <-;
    cbn [fst model scaler feature_columns model_type set_model set_scaler]
      in *;
    rewrite ?String.eqb_eq, ?String.eqb_neq in *.
  all: split; [|split; [eexists; reflexivity | split; reflexivity]].
  all: exists (kind_of e), m; split; [reflexivity|].
  all: try (injection He as <-; cbn [kind_of]).
  all: repeat split; intros Hk; first [reflexivity | congruence].
Qed.

End TrainingSuccess.

(** X21.  What a successful training leaves.  When [train_model] answers
    [True], the predictor holds a fitted classifier of the kind named by
    [model_type], a fitted scaler and the seven trained features, and the
    frame had at least 50 clean rows. *)
Theorem successful_training_installs_model `{Sklearn} (fsqrt : F64 → F64)
  (data : loc) (self : MLPredictor) (h : heap) (self' : MLPredictor)
  (h' : heap) :
  train_model fsqrt data (self, h) = (Ok true, (self', h')) →
  (∃ k m, model self' = Some (Fitted k m)
     ∧ (model_type self = "DecisionTree" → k = DecisionTree)
     ∧ (model_type self = "LogisticRegression" → k = LogisticRegression)
     ∧ (model_type self = "RandomForest" → k = RandomForest))
  ∧ is_Some (scaler self')
  ∧ feature_columns self' = trained_features
  ∧ model_type self' = model_type self
  ∧ ∃ clean s1, clean_training_data fsqrt data (self, h) = (Ok clean, s1)
                ∧ (50 ≤ length clean)%nat.
Proof.
  intros E. unfold train_model, try_except in E.
  match type of E with
  | (let (_, _) := ?m in _) = _ => destruct m as [[b|e] s2] eqn:Eb
  end; [|discriminate].
  injection E as -> ->.
  apply bind_Ok_inv in Eb as (clean & [self1 h1] & Hclean & Eb).
  pose proof (clean_training_data_ok _ _ _ _ _ Hclean) as Hself1.
  cbn [fst] in Hself1.
  apply bind_Ok_inv in Eb as (self1' & s & Hg & Eb).
  injection Hg as <- <-.
  destruct (decide (length clean < 50)%nat) as [Hlt|Hge]; [discriminate|].
  apply fit_and_score_ok in Eb as (Hmodel & Hsc & Hfc & Hmt).
  cbn [fst] in *. subst self1.
  cbn [feature_columns model_type set_feature_columns] in *.
  split; [exact Hmodel|]. split; [exact Hsc|]. split; [exact Hfc|].
  split; [exact Hmt|].
  eexists _, _. split; [exact Hclean | lia].
Qed.

Lemma successful_training_installs_model_witness :
  ∃ self' h' m,
    train_model fsqrt_dec 1
      (MLPredictor_init "DecisionTree",
       store_of (falling_prices 99) (flat_volume 99))
    = (Ok true, (self', h'))
    ∧ model self' = Some (Fitted DecisionTree m).
Proof.
  pose proof (train_model_run fsqrt_dec (MLPredictor_init "DecisionTree")
                (store_of (falling_prices 99) (flat_volume 99)) 1
                (raw_frame (falling_prices 99) (flat_volume 99))
                (falling_prices 99) (flat_volume 99)
                eq_refl eq_refl eq_refl) as Hrun.
  cbv zeta in Hrun.
  destruct falling_99_clean_rows as [Hlen _].
  set (clean := dropna _ _) in *. clearbody clean.
  rewrite Hlen in Hrun.
  destruct (decide (50 < 50)%nat) as [Hn|_]; [exfalso; lia|].
  unfold try_except, fit_and_score in Hrun.
  unfold mbind, M_bind, mret, M_ret, ext, set_self, model_fit, model_predict,
    get_self in Hrun.
  cbn [train_test_split scaler_fit scaler_transform clf_fit clf_predict
       accuracy_score classification_report sklearn_small
       fst snd model_type MLPredictor_init set_feature_columns set_scaler
       set_model model kind_of String.eqb Ascii.eqb Bool.eqb] in Hrun.
  unfold mbind, M_bind, ext, set_self in Hrun. cbn [fst snd model] in Hrun.
  destruct (successful_training_installs_model fsqrt_dec 1 _ _ _ _ Hrun)
    as ((k & m & Hm & Hk & _) & _).
  eexists _, _, m. split; [exact Hrun|].
  rewrite Hm, (Hk eq_refl). reflexivity.
Defined.

(** ** A frame shared by the strategy and the predictor *)

Lemma prepared_not_pipeline (fsqrt : F64 → F64) (close volume : column)
  (df : DataFrame) (k : string) :
  k ∉ pipeline_columns →
  df_cols (prepared fsqrt close volume df) !! k
  = df_cols (with_indicators fsqrt close df) !! k.
Proof.
  intros Hp. unfold prepared. cbn [df_cols set_column].
  unfold pipeline_columns in Hp. rewrite !not_elem_of_cons in Hp.
  destruct Hp as (? & ? & ? & ? & ? & _).
  rewrite !lookup_insert_ne by congruence. reflexivity.
Qed.

Lemma prepared_pipeline_values (fsqrt : F64 → F64) (close volume : column)
  (df df' : DataFrame) (k : string) :
  k ∈ pipeline_columns →
  df_cols (prepared fsqrt close volume df) !! k
  = df_cols (prepared fsqrt close volume df') !! k.
Proof.
  intros Hk. unfold prepared. cbn [df_cols set_column].
  unfold pipeline_columns in Hk.
  repeat (apply elem_of_cons in Hk as [-> | Hk]; [by simplify_map_eq|]).
  inversion Hk.
Qed.

Lemma prepared_raw (fsqrt : F64 → F64) (close volume : column)
  (df : DataFrame) :
  df_cols df !! "Close" = Some close →
  df_cols df !! "Volume" = Some volume →
  df_cols (prepared fsqrt close volume df) !! "Close" = Some close
  ∧ df_cols (prepared fsqrt close volume df) !! "Volume" = Some volume.
Proof.
  intros Hc Hv.
  rewrite !prepared_other; [auto| | | |];
    first [apply not_indicator; repeat split; discriminate
          | unfold pipeline_columns; rewrite !not_elem_of_cons;
            repeat split; try discriminate; apply not_elem_of_nil].
Qed.

Lemma prepared_idem (fsqrt : F64 → F64) (close volume : column)
  (df : DataFrame) :
  prepared fsqrt close volume (prepared fsqrt close volume df)
  = prepared fsqrt close volume df.
Proof.
  apply DataFrame_eq.
  - rewrite !prepared_index. reflexivity.
  - apply map_eq. intros k.
    destruct (decide (k ∈ pipeline_columns)) as [Hp|Hp].
    + apply prepared_pipeline_values, Hp.
    + destruct (decide (k ∈ indicator_columns)) as [Hk|Hk].
      * rewrite !prepared_not_pipeline by exact Hp.
        apply with_indicators_assigned_values, Hk.
      * rewrite prepared_other by assumption. reflexivity.
Qed.

Lemma with_indicators_prepared (fsqrt : F64 → F64) (close volume : column)
  (df : DataFrame) :
  with_indicators fsqrt close (prepared fsqrt close volume df)
  = prepared fsqrt close volume df.
Proof.
  apply DataFrame_eq.
  - rewrite with_indicators_index. reflexivity.
  - apply map_eq. intros k.
    destruct (decide (k ∈ indicator_columns)) as [Hk|Hk].
    + destruct (decide (k ∈ pipeline_columns)) as [Hp|Hp].
      * exfalso. unfold indicator_columns in Hk. unfold pipeline_columns in Hp.
        repeat (apply elem_of_cons in Hk as [-> | Hk];
                [repeat (apply elem_of_cons in Hp as [Hp | Hp];
                         [discriminate|]); inversion Hp|]).
        inversion Hk.
      * rewrite prepared_not_pipeline by exact Hp.
        apply with_indicators_assigned_values, Hk.
    + rewrite with_indicators_other by exact Hk. reflexivity.
Qed.

(** X24.  [prepare_features] is idempotent: run again on the frame it has
    just filled, it leaves that frame, the store and the predictor as
    they are. *)
Theorem prepare_features_idempotent `{Sklearn} (fsqrt : F64 → F64)
  (self : MLPredictor) (h : heap) (data : loc) (df : DataFrame)
  (close volume : column) :
  h !! data = Some df →
  df_cols df !! "Close" = Some close →
  df_cols df !! "Volume" = Some volume →
  ∃ s1, prepare_features fsqrt data (self, h) = (Ok data, s1)
        ∧ prepare_features fsqrt data s1 = (Ok data, s1).
Proof.
  intros Hh Hc Hv. eexists. split.
  - apply (prepare_features_run fsqrt self h data df close volume Hh Hc Hv).
  - destruct (prepared_raw fsqrt close volume df Hc Hv) as [Hc' Hv'].
    rewrite (prepare_features_run fsqrt _ _ data
               (prepared fsqrt close volume df) close volume
               (lookup_insert_eq _ _ _) Hc' Hv').
    rewrite prepared_idem, insert_insert_eq. reflexivity.
Qed.

Lemma prepare_features_idempotent_witness :
  ∃ s1,
    prepare_features fsqrt_dec 1
      (trained_predictor, store_of (rising_prices 20) (flat_volume 20))
    = (Ok 1%positive, s1)
    ∧ prepare_features fsqrt_dec 1 s1 = (Ok 1%positive, s1).
Proof.
  apply (prepare_features_idempotent fsqrt_dec trained_predictor _ 1
           (raw_frame (rising_prices 20) (flat_volume 20))
           (rising_prices 20) (flat_volume 20)); reflexivity.
Defined.

(** X25.  The strategy and the predictor can share a frame.  The signals
    generated on a frame that [prepare_features] has filled are those
    generated on the raw frame, and generating them leaves the prepared
    frame as it is. *)
Theorem signals_unaffected_by_preparation `{Sklearn} (fsqrt : F64 → F64)
  (predictor : MLPredictor) (strategy : TradingStrategy) (h : heap)
  (data : loc) (df : DataFrame) (close volume : column) :
  h !! data = Some df →
  df_cols df !! "Close" = Some close →
  df_cols df !! "Volume" = Some volume →
  ∃ predictor1 h1 signals h2,
    prepare_features fsqrt data (predictor, h) = (Ok data, (predictor1, h1))
    ∧ generate_signals fsqrt data (strategy, h) = (Ok signals, (strategy, h2))
    ∧ generate_signals fsqrt data (strategy, h1)
      = (Ok signals, (strategy, h1)).
Proof.
  intros Hh Hc Hv. eexists _, _, _, _. split; [|split].
  - apply (prepare_features_run fsqrt predictor h data df close volume
             Hh Hc Hv).
  - apply (generate_signals_run fsqrt strategy h data df close Hh Hc).
  - destruct (prepared_raw fsqrt close volume df Hc Hv) as [Hc' _].
    rewrite (generate_signals_run fsqrt strategy _ data
               (prepared fsqrt close volume df) close
               (lookup_insert_eq _ _ _) Hc').
    rewrite prepared_index, with_indicators_prepared, insert_insert_eq.
    reflexivity.
Qed.

Lemma signals_unaffected_by_preparation_witness :
  ∃ predictor1 h1 signals h2,
    prepare_features fsqrt_dec 1
      (trained_predictor, store_of (rising_prices 20) (flat_volume 20))
    = (Ok 1%positive, (predictor1, h1))
    ∧ generate_signals fsqrt_dec 1
        (TradingStrategy_init, store_of (rising_prices 20) (flat_volume 20))
      = (Ok signals, (TradingStrategy_init, h2))
    ∧ generate_signals fsqrt_dec 1 (TradingStrategy_init, h1)
      = (Ok signals, (TradingStrategy_init, h1)).
Proof.
  apply (signals_unaffected_by_preparation fsqrt_dec trained_predictor
           TradingStrategy_init _ 1
           (raw_frame (rising_prices 20) (flat_volume 20))
           (rising_prices 20) (flat_volume 20)); reflexivity.
Defined.

(** ** The rows training uses *)

Lemma row_training_columns (close volume : column) (i : nat) :
  row (training_columns close volume) i
  = [iloc (rsi_series 14 close) i;
     iloc (macd_series 12 26 9 close).1.1 i;
     iloc (volume_ratio_series volume) i;
     iloc (rolling_mean 20 close) i;
     iloc (rolling_mean 50 close) i;
     iloc (pct_change close) i;
     iloc (macd_series 12 26 9 close).2 i;
     iloc (target_series close) i].
Proof.
  unfold training_columns, moving_averages_series.
  destruct (macd_series 12 26 9 close) as [[macd signal_line] histogram].
  reflexivity.
Qed.

Lemma iloc_Forall (P : F64 → Prop) (c : column) (i : nat) :
  Forall P c → (i < length c)%nat → P (iloc c i).
Proof.
  intros Hc Hi. destruct (lookup_lt_is_Some_2 c i Hi) as [x Hx].
  rewrite (iloc_lookup c i x Hx). eapply Forall_lookup_1; eassumption.
Qed.

Lemma nonzero_finite (c : column) :
  Forall (fin_with (λ q, ¬ q == 0)) c → Forall (λ x, is_finite x = true) c.
Proof.
  intros Hc. eapply Forall_impl; [exact Hc|].
  intros x (q & -> & _). reflexivity.
Qed.

Lemma volume_ratio_not_null (volume : column) (i : nat) :
  (i < length volume)%nat → isna (iloc (volume_ratio_series volume) i) = false.
Proof.
  intros Hi. unfold volume_ratio_series, fillna, zipF, iloc.
  rewrite list_lookup_fmap, lookup_zip_with.
  destruct (lookup_lt_is_Some_2 volume i Hi) as [x ->].
  rewrite rolling_mean_lookup by exact Hi. simpl.
  destruct (isna (x / rolling_mean_at 20 volume i)%F) eqn:E;
    [reflexivity | exact E].
Qed.

Lemma price_change_not_null (close : column) (i : nat) :
  Forall (fin_with (λ q, ¬ q == 0)) close →
  (1 ≤ i < length close)%nat → isna (iloc (pct_change close) i) = false.
Proof.
  intros Hc [H1 Hi]. destruct i as [|j]; [lia|].
  destruct (lookup_lt_is_Some_2 close (S j) Hi) as [x Hx].
  destruct (lookup_lt_is_Some_2 close j) as [y Hy]; [lia|].
  unfold iloc at 1. rewrite (pct_change_lookup close (S j) x Hx).
  rewrite (iloc_lookup close j y Hy).
  destruct (Forall_lookup_1 _ _ _ _ Hc Hx) as (q & -> & _).
  destruct (Forall_lookup_1 _ _ _ _ Hc Hy) as (p & -> & Hp).
  simpl. rewrite (Qeq_bool_false p Hp). reflexivity.
Qed.

Lemma rsi_null_iff_flat (close : column) (i : nat) :
  Forall (λ x, is_finite x = true) close →
  (13 ≤ i < length close)%nat →
  isna (iloc (rsi_series 14 close) i) = flat_window 14 close i.
Proof.
  intros Hc [H13 Hi]. unfold iloc.
  rewrite rsi_series_lookup by exact Hi. simpl.
  apply rsi_nan_iff_flat; [lia|].
  apply window_Forall, diff_delta_like, Hc.
Qed.

Lemma moving_average_null_iff (w : nat) (close : column) (i : nat) :
  (0 < w)%nat → Forall (λ x, is_finite x = true) close →
  (i < length close)%nat →
  isna (iloc (rolling_mean w close) i) = true ↔ (S i < w)%nat.
Proof.
  intros Hw Hc Hi. unfold iloc.
  rewrite rolling_mean_lookup by exact Hi. simpl.
  apply rolling_mean_at_nan_iff; assumption.
Qed.

(** X26.  The rows [train_model] and [evaluate_model] keep.  On prices on
    the binary grid (where the sums of a window are exact in double
    precision) that are not 0, with a volume for every bar, the row of bar
    [i] survives [dropna] exactly when [i] is at least 49 (the 50-bar
    average exists) and the 14 price changes ending at [i] are not all
    zero (the RSI exists). *)
Theorem clean_rows_characterised (close volume : column) (i : nat) :
  Forall on_grid close →
  Forall (fin_with (λ q, ¬ q == 0)) close →
  length volume = length close →
  (∃ r, (i, r) ∈ dropna (length close) (training_columns close volume))
  ↔ (49 ≤ i < length close)%nat ∧ flat_window 14 close i = false.
Proof.
  intros _ Hnz Hvol. pose proof (nonzero_finite close Hnz) as Hfin.
  destruct (macd_series_lengths 12 26 9 close) as (L1 & _ & L3).
  destruct (macd_series_finite close Hfin) as (F1 & _ & F3).
  cbv zeta in *. split.
  - intros (r & Hr). apply dropna_spec in Hr as (Hi & -> & Hall).
    rewrite row_training_columns in Hall.
    apply Forall_cons in Hall as [Hrsi Hall].
    do 3 apply Forall_cons in Hall as [_ Hall].
    apply Forall_cons in Hall as [Hma _].
    assert (H49 : (49 ≤ i)%nat).
    { destruct (decide (49 ≤ i)%nat) as [|Hlt]; [assumption|exfalso].
      rewrite (iloc_rolling_mean_early 50 close i) in Hma by lia.
      discriminate. }
    split; [lia|].
    rewrite <- (rsi_null_iff_flat close i Hfin) by lia. exact Hrsi.
  - intros [[H49 Hi] Hflat].
    exists (row (training_columns close volume) i).
    apply dropna_spec. split; [exact Hi|]. split; [reflexivity|].
    rewrite row_training_columns. repeat apply Forall_cons_2.
    + rewrite (rsi_null_iff_flat close i Hfin) by lia. exact Hflat.
    + assert (Hx : is_finite (iloc (macd_series 12 26 9 close).1.1 i) = true)
        by (apply (iloc_Forall _ _ _ F1); lia).
      destruct (iloc _ i); try discriminate. reflexivity.
    + apply volume_ratio_not_null. lia.
    + destruct (isna (iloc (rolling_mean 20 close) i)) eqn:E; [|reflexivity].
      apply (moving_average_null_iff 20 close i) in E; [lia|lia|auto|auto].
    + destruct (isna (iloc (rolling_mean 50 close) i)) eqn:E; [|reflexivity].
      apply (moving_average_null_iff 50 close i) in E; [lia|lia|auto|auto].
    + apply price_change_not_null; [assumption|lia].
    + assert (Hx : is_finite (iloc (macd_series 12 26 9 close).2 i) = true)
        by (apply (iloc_Forall _ _ _ F3); lia).
      destruct (iloc _ i); try discriminate. reflexivity.
    + apply (iloc_Forall _ _ _ (target_never_null close)).
      unfold target_series, gt0_astype_int.
      rewrite length_fmap, length_shift_back, length_pct_change. exact Hi.
    + constructor.
Qed.

Lemma zigzag_prices_nonzero (n : nat) :
  Forall (fin_with (λ q, ¬ q == 0)) (zigzag_prices n).
Proof.
  unfold zigzag_prices. apply Forall_fmap, Forall_forall. intros i _.
  eexists. split; [reflexivity|]. unfold Qeq. simpl. lia.
Qed.

Lemma zigzag_prices_on_grid (n : nat) :
  (Z.of_nat n ≤ 2 ^ 29)%Z → Forall on_grid (zigzag_prices n).
Proof.
  intros Hn. unfold zigzag_prices. apply Forall_fmap, Forall_forall.
  intros i Hi. apply elem_of_seq in Hi. apply on_grid_F.
  change (2 ^ 29)%Z with 536870912%Z in Hn.
  change (2 ^ 30)%Z with 1073741824%Z.
  pose proof (Nat.mod_upper_bound i 2). lia.
Qed.

Lemma clean_rows_characterised_witness :
  ∃ r, (55%nat, r) ∈ dropna (length (zigzag_prices 60))
                      (training_columns (zigzag_prices 60) (flat_volume 60)).
Proof.
  apply (clean_rows_characterised (zigzag_prices 60) (flat_volume 60) 55
           (zigzag_prices_on_grid 60 ltac:(vm_compute; discriminate))
           (zigzag_prices_nonzero 60) eq_refl).
  split; [vm_compute; lia | vm_compute; reflexivity].
Defined.

(** ** Capital *)

(** X28.  One round trip never loses more than the capital.  A BUY
    accepted with a capital [c] that is not negative, at a positive price
    [e] with [c / e] below 2^50 (where the floor division is the exact
    floor), followed by a SELL at a price [x] that is not negative, closes
    exactly one trade: its quantity is floor(c / e), its pnl is a number
    not below [-c], and the capital left is a number that is not negative.
    (The capital and the exit price are taken of moderate size, so that
    neither the pnl nor the capital overflows.) *)
Theorem round_trip_stays_solvent (ticker : string) (st : bt_state)
  (buy sell : Signal) (c e x : Q) :
  current_position st = None → portfolio_value st = Fin c →
  sig_signal buy = BUY → sig_price buy = Fin e →
  sig_signal sell = SELL → sig_price sell = Fin x →
  0 <= c → c <= inject_Z (2 ^ 500) → 0 < e → (Qfloor (c / e) < 2 ^ 50)%Z →
  0 <= x → x <= inject_Z (2 ^ 500) →
  let st' := backtest_loop ticker [buy; sell] st in
  current_position st' = None
  ∧ (∃ t, trades st' = trades st ++ [t]
          ∧ tr_quantity t = Fin (inject_Z (Qfloor (c / e)))
          ∧ fin_with (λ q, - c <= q) (tr_pnl t))
  ∧ fin_with (λ c', 0 <= c') (portfolio_value st').
Proof.
  intros Hpos Hcap Hb Hbe Hs Hsx Hc0 _ He Hk Hx0 _ st'. subst st'.
  assert (Hq : 0 <= c / e) by (apply Qle_shift_div_l; lra).
  pose proof (Qfloor_nonneg _ Hq) as Hk0.
  assert (Hk0' : 0 <= inject_Z (Qfloor (c / e))).
  { change 0 with (inject_Z 0). rewrite <- Zle_Qle. exact Hk0. }
  assert (Hke : inject_Z (Qfloor (c / e)) * e <= c).
  { pose proof (Qfloor_le (c / e)) as Hf.
    assert (E : c == c / e * e) by (field; lra).
    rewrite E at 2. apply Qmult_le_compat_r; lra. }
  assert (E1 : backtest_step ticker st buy
               = {| current_position := Some
                      {| pos_entry_date := sig_date buy;
                         pos_entry_price := Fin e;
                         pos_ticker := ticker;
                         pos_quantity := Fin (inject_Z (Qfloor (c / e))) |};
                    trades := trades st;
                    portfolio_value := Fin c |}).
  { unfold backtest_step, is_buy, is_sell. rewrite Hpos, Hb, Hcap, Hbe.
    unfold ffloordiv. rewrite Qeq_bool_false by lra.
    rewrite Qfloor_small by lia. reflexivity. }
  unfold backtest_loop. cbn [fold_left]. rewrite E1.
  unfold backtest_step, is_buy, is_sell. rewrite Hs, Hsx.
  cbn [current_position trades portfolio_value pos_entry_price pos_quantity
       pos_entry_date fsub fneg fadd fmul].
  assert (Hxk : 0 <= x * inject_Z (Qfloor (c / e)))
    by (apply Qmult_le_0_compat; assumption).
  split; [reflexivity|]. split.
  - eexists. split; [reflexivity|]. cbn [tr_quantity tr_pnl].
    split; [reflexivity|]. eexists. split; [reflexivity|]. lra.
  - eexists. split; [reflexivity|]. lra.
Qed.

Lemma round_trip_stays_solvent_witness :
  fin_with (λ c', 0 <= c')
    (portfolio_value
       (backtest_loop "TCS.NS" [mk_signal 1 BUY (F 3); mk_signal 2 SELL (F 1)]
          (bt_init (F 100000)))).
Proof.
  apply (round_trip_stays_solvent "TCS.NS" (bt_init (F 100000))
           (mk_signal 1 BUY (F 3)) (mk_signal 2 SELL (F 1))
           (inject_Z 100000) (inject_Z 3) (inject_Z 1));
    try reflexivity; vm_compute; discriminate.
Defined.

(** *** A flat market *)

Lemma flat_diff (c : Q) (close : column) :
  Forall (λ x, x ≈ Fin c) close →
  Forall (λ d, isna d || feqb d (F 0) = true) (diff close).
Proof.
  intros Hc. apply Forall_lookup. intros i d Hd.
  unfold diff in Hd. rewrite list_lookup_imap in Hd.
  destruct (close !! i) as [x|] eqn:Hx; simpl in Hd; [|discriminate].
  injection Hd as <-. destruct i as [|j]; [reflexivity|].
  destruct (lookup_lt_is_Some_2 close j) as [y Hy].
  { apply lookup_lt_Some in Hx. lia. }
  pose proof (Forall_lookup_1 _ _ _ _ Hc Hx) as Hfx.
  pose proof (Forall_lookup_1 _ _ _ _ Hc Hy) as Hfy.
  unfold iloc. rewrite Hy. cbn [default]. cbv beta in Hfx, Hfy.
  destruct x as [q| | |], y as [p| | |]; try contradiction.
  cbn [feq] in Hfx, Hfy.
  cbn [fsub fadd fneg isna orb feqb]. unfold F.
  apply Qeq_bool_true. rewrite Hfx, Hfy. ring.
Qed.

Lemma flat_finite (c : Q) (close : column) :
  Forall (λ x, x ≈ Fin c) close → Forall (λ x, is_finite x = true) close.
Proof.
  intros Hc. eapply Forall_impl; [exact Hc|].
  intros [q| | |] Hx; simpl in Hx; try contradiction. reflexivity.
Qed.

Lemma flat_rsi_null (c : Q) (close : column) (i : nat) :
  Forall (λ x, x ≈ Fin c) close → iloc (rsi_series 14 close) i = NaN.
Proof.
  intros Hc. destruct (decide (i < 13)%nat) as [Hlt|Hge].
  { apply iloc_rsi_early, Hlt. }
  destruct (decide (i < length close)%nat) as [Hi|Hi].
  - apply isna_true.
    rewrite (rsi_null_iff_flat close i (flat_finite c close Hc)) by lia.
    unfold flat_window. apply forallb_forall. intros d Hd.
    apply list_elem_of_In in Hd.
    pose proof (window_Forall _ 14 i _ (flat_diff c close Hc)) as HW.
    rewrite Forall_forall in HW. apply HW, Hd.
  - unfold iloc. rewrite lookup_ge_None_2; [reflexivity|].
    rewrite length_rsi_series. lia.
Qed.

(** X29.  A flat market trades nothing.  When every price is the same
    number the RSI is null at every bar, no signal is generated, the
    ledger of the backtest is empty and the capital is the one held
    before. *)
Theorem flat_market_no_trades (fsqrt : F64 → F64) (self : TradingStrategy)
  (h : heap) (data : loc) (df : DataFrame) (close : column)
  (ticker : string) (c : Q) :
  h !! data = Some df → df_cols df !! "Close" = Some close →
  Forall (λ x, x ≈ Fin c) close →
  ∃ h',
    generate_signals fsqrt data (self, h) = (Ok [], (self, h'))
    ∧ backtest fsqrt data ticker (self, h) = (Ok ([], []), (self, h')).
Proof.
  intros Hh Hc Hflat.
  assert (E : omap (signal_at (rsi_oversold self) (df_index df) close
                      (rsi_series 14 close) (rolling_mean 20 close)
                      (rolling_mean 50 close))
                   (seq 1 (length (df_index df) - 1)) = []).
  { apply omap_all_None, Forall_forall. intros i _.
    unfold signal_at. rewrite (flat_rsi_null c close i Hflat). reflexivity. }
  eexists. split.
  - rewrite (generate_signals_run fsqrt self h data df close Hh Hc), E.
    reflexivity.
  - rewrite (backtest_run fsqrt self h data df close ticker Hh Hc), E.
    cbn [backtest_loop fold_left bt_init trades portfolio_value].
    destruct self. reflexivity.
Qed.

Lemma flat_market_no_trades_witness :
  ∃ h',
    generate_signals fsqrt_dec 1
      (TradingStrategy_init, store_of (constant_prices 60) (flat_volume 60))
    = (Ok [], (TradingStrategy_init, h'))
    ∧ backtest fsqrt_dec 1 "T"
        (TradingStrategy_init, store_of (constant_prices 60) (flat_volume 60))
      = (Ok ([], []), (TradingStrategy_init, h')).
Proof.
  apply (flat_market_no_trades fsqrt_dec TradingStrategy_init
           (store_of (constant_prices 60) (flat_volume 60)) 1
           (raw_frame (constant_prices 60) (flat_volume 60))
           (constant_prices 60) "T" (inject_Z 100) eq_refl eq_refl).
  unfold constant_prices. apply Forall_replicate. reflexivity.
Defined.

(** ** What an answer of the predictor implies *)

Lemma flt_below_max (r x y : F64) :
  flt r y = false → flt x y = true → flt r x = false.
Proof.
  destruct r as [a| | |], x as [b| | |], y as [c| | |]; cbn [flt];
    try discriminate; try reflexivity.
  destruct (Qcompare_spec a c), (Qcompare_spec b c), (Qcompare_spec a b);
    try discriminate; try reflexivity; intros; exfalso; lra.
Qed.

Lemma flt_chain (r b z : F64) :
  isna b = false → flt r b = false → flt b z = false → flt r z = false.
Proof.
  destruct r as [a| | |], b as [c| | |], z as [d| | |]; cbn [flt isna];
    try discriminate; try reflexivity.
  intros _.
  destruct (Qcompare_spec a c), (Qcompare_spec c d), (Qcompare_spec a d);
    try discriminate; try reflexivity; intros; exfalso; lra.
Qed.

Lemma py_max_nan (l : list F64) : py_max NaN l = NaN.
Proof.
  induction l as [|y l IH]; [reflexivity|].
  unfold py_max in *. cbn [fold_left].
  replace (fgt y NaN) with false by (destruct y; reflexivity). exact IH.
Qed.

Lemma py_max_ge_init (l : list F64) : ∀ x, flt (py_max x l) x = false.
Proof.
  induction l as [|y l IH]; intros x; [apply flt_irrefl|].
  unfold py_max in *. cbn [fold_left].
  destruct (fgt y x) eqn:E; [|apply IH].
  eapply flt_below_max; [apply IH | exact E].
Qed.

Lemma py_max_ge_elem (l : list F64) : ∀ x y,
  y ∈ l → flt (py_max x l) y = false.
Proof.
  induction l as [|z l IH]; intros x y Hy; [inversion Hy|].
  apply elem_of_cons in Hy as [->|Hy].
  - change (py_max x (z :: l))
      with (py_max (if fgt z x then z else x) l).
    destruct (fgt z x) eqn:E; [apply py_max_ge_init|].
    destruct (isna x) eqn:Hx.
    + apply isna_true in Hx. subst x. rewrite py_max_nan. reflexivity.
    + eapply flt_chain; [exact Hx | apply py_max_ge_init | exact E].
  - change (py_max x (z :: l))
      with (py_max (if fgt z x then z else x) l).
    apply IH, Hy.
Qed.

Section AnswerFacts.

Context `{SklearnProba}.
Variable fsqrt : F64 → F64.

Lemma model_predict_ok (X : table) (s s' : MLPredictor * heap)
  (y : list F64) :
  model_predict X s = (Ok y, s') →
  s' = s ∧ ∃ k m, model s.1 = Some (Fitted k m) ∧ clf_predict m X = Ok y.
Proof.
  unfold model_predict. intros E.
  apply bind_Ok_inv in E as (self & s0 & Hg & E). injection Hg as <- <-.
  destruct (model s.1) as [[k|k m]|]; try discriminate.
  apply ext_Ok_inv in E as [E ->]. eauto.
Qed.

Lemma model_predict_proba_ok (X : table) (s s' : MLPredictor * heap)
  (y : list (list F64)) :
  model_predict_proba X s = (Ok y, s') → s' = s.
Proof.
  unfold model_predict_proba. intros E.
  apply bind_Ok_inv in E as (self & s0 & Hg & E). injection Hg as <- <-.
  destruct (model s.1) as [[k|k m]|]; try discriminate.
  apply ext_Ok_inv in E as [_ ->]. reflexivity.
Qed.

Lemma scaler_apply_ok (X Xs : table) (s s' : MLPredictor * heap) :
  scaler_apply X s = (Ok Xs, s') → s' = s ∧ is_Some (scaler s.1).
Proof.
  unfold scaler_apply. intros E.
  apply bind_Ok_inv in E as (self & s0 & Hg & E). injection Hg as <- <-.
  destruct (scaler s.1) as [sc|]; [|discriminate].
  apply ext_Ok_inv in E as [_ ->]. eauto.
Qed.

Lemma index_or_raise_ok {A} (l : list A) (i : nat) (x : A)
  (s s' : MLPredictor * heap) :
  index_or_raise l i s = (Ok x, s') → l !! i = Some x ∧ s' = s.
Proof.
  unfold index_or_raise. destruct (l !! i); [|discriminate].
  intros E. injection E as -> ->. auto.
Qed.

Lemma predict_latest_ok (self1 : MLPredictor) (latest_data : table)
  (s s' : MLPredictor * heap) (p : Prediction) :
  predict_latest self1 latest_data s = (Ok (Some p), s') →
  (∃ k m, model s.1 = Some (Fitted k m))
  ∧ (model_type self1 = "LogisticRegression" → is_Some (scaler s.1))
  ∧ flt (confidence p) (probability_down p) = false
  ∧ flt (confidence p) (probability_up p) = false.
Proof.
  unfold predict_latest. intros E.
  apply bind_Ok_inv in E as (latest & s1 & Hlatest & E).
  assert (Hs1 : s1 = s ∧ (model_type self1 = "LogisticRegression" →
                          is_Some (scaler s.1))).
  { destruct (String.eqb (model_type self1) "LogisticRegression") eqn:Et.
    - apply scaler_apply_ok in Hlatest as [-> Hsc]. auto.
    - injection Hlatest as _ <-. split; [reflexivity|].
      intros Heq. apply String.eqb_neq in Et. contradiction. }
  destruct Hs1 as [-> Hsc]. clear Hlatest.
  apply bind_Ok_inv in E as (predictions & s1 & Hp & E).
  apply model_predict_ok in Hp as [-> (k & m & Hm & _)].
  apply bind_Ok_inv in E as (prediction & s1 & Hi & E).
  apply index_or_raise_ok in Hi as [_ ->].
  apply bind_Ok_inv in E as (probabilities & s1 & Hpp & E).
  apply model_predict_proba_ok in Hpp as ->.
  apply bind_Ok_inv in E as (probability & s1 & Hi & E).
  apply index_or_raise_ok in Hi as [_ ->].
  apply bind_Ok_inv in E as (p0 & s1 & Hq0 & E).
  apply index_or_raise_ok in Hq0 as [Hq0 ->].
  apply bind_Ok_inv in E as (p1 & s1 & Hq1 & E).
  apply index_or_raise_ok in Hq1 as [Hq1 ->].
  injection E as <- _. cbn [confidence probability_down probability_up].
  split; [eauto|]. split; [exact Hsc|].
  destruct probability as [|q0 [|q1 rest]]; try discriminate.
  injection Hq0 as ->. injection Hq1 as ->. cbn [tail].
  split; [apply py_max_ge_init | apply py_max_ge_elem; left].
Qed.

Lemma score_clean_ok (self1 : MLPredictor) (clean : table)
  (s s' : MLPredictor * heap) (ev : Evaluation) :
  score_clean self1 clean s = (Ok (Some ev), s') →
  (∃ k m, model s.1 = Some (Fitted k m))
  ∧ total_predictions ev = length clean
  ∧ (correct_predictions ev ≤ total_predictions ev)%nat.
Proof.
  unfold score_clean. cbv zeta. intros E.
  apply bind_Ok_inv in E as (predictions & s1 & Hp & E).
  assert (Hm : ∃ k m, model s.1 = Some (Fitted k m)).
  { destruct (String.eqb (model_type self1) "LogisticRegression").
    - apply bind_Ok_inv in Hp as (Xs & s0 & Hx & Hp).
      apply scaler_apply_ok in Hx as [-> _].
      apply model_predict_ok in Hp as [_ (k & m & Hm & _)]. eauto.
    - apply model_predict_ok in Hp as [_ (k & m & Hm & _)]. eauto. }
  apply bind_Ok_inv in E as (acc & s2 & _ & E).
  destruct (decide (length predictions = length (target_of clean)))
    as [Hlen|]; [|discriminate].
  injection E as <- _. cbn [total_predictions correct_predictions].
  split; [exact Hm|]. split.
  - rewrite Hlen. unfold target_of. apply length_fmap.
  - etrans; [apply length_filter|]. rewrite length_zip. lia.
Qed.

Lemma predict_run (self : MLPredictor) (h : heap) (data : loc)
  (df : DataFrame) (close volume : column) :
  h !! data = Some df →
  df_cols df !! "Close" = Some close →
  df_cols df !! "Volume" = Some volume →
  is_Some (model self) →
  let self1 := set_feature_columns trained_features self in
  let s1 := (self1, <[data := prepared fsqrt close volume df]> h) in
  let latest_data :=
    dropna_rows (last_row (length (df_index df)))
      (take 7 (training_columns close volume)) in
  predict fsqrt data (self, h)
  = if decide (length latest_data = 0)%nat then (Ok None, s1)
    else try_except (predict_latest self1 latest_data) (λ _, mret None) s1.
Proof.
  intros Hh Hc Hv [e He] self1 s1 latest_data.
  unfold predict, try_except. unfold mbind at 1, M_bind at 1, get_self.
  cbn [fst]. rewrite He.
  unfold mbind at 1, M_bind at 1.
  rewrite (prepare_features_run fsqrt self h data df close volume Hh Hc Hv).
  unfold mbind at 1, M_bind at 1. cbn [fst].
  unfold mbind at 1, M_bind at 1, lift_heap at 1.
  cbn [fst snd feature_columns set_feature_columns].
  rewrite select_features_run; [|exact self].
  unfold mbind at 1, M_bind at 1, lift_heap, get_index.
  cbn [fst snd]. rewrite lookup_insert_eq. rewrite prepared_index.
  fold latest_data. fold self1. fold s1.
  destruct (decide (length latest_data = 0)%nat); reflexivity.
Qed.

Lemma evaluate_model_run_full (self : MLPredictor) (h : heap) (data : loc)
  (df : DataFrame) (close volume : column) :
  h !! data = Some df →
  df_cols df !! "Close" = Some close →
  df_cols df !! "Volume" = Some volume →
  let clean := dropna (length (df_index df)) (training_columns close volume) in
  let self1 := set_feature_columns trained_features self in
  let s1 := (self1, <[data := prepared fsqrt close volume df]> h) in
  evaluate_model fsqrt data (self, h)
  = if decide (length clean < 30)%nat then (Ok None, s1)
    else try_except (score_clean self1 clean) (λ _, mret None) s1.
Proof.
  intros Hh Hc Hv clean self1 s1.
  unfold evaluate_model, try_except. unfold mbind at 1, M_bind at 1.
  rewrite (clean_training_data_run fsqrt self h data df close volume Hh Hc Hv).
  fold clean self1 s1. unfold mbind, M_bind, get_self.
  destruct (decide (length clean < 30)%nat); reflexivity.
Qed.

End AnswerFacts.

(** X23.  What a prediction implies.  When [predict] answers with a
    prediction, the predictor held a fitted model (and, for a logistic
    regression, a fitted scaler), and the confidence reported is below
    neither of the two probabilities reported. *)
Theorem prediction_comes_from_fitted_model `{SklearnProba}
  (fsqrt : F64 → F64) (data : loc) (self : MLPredictor) (h : heap)
  (p : Prediction) (s' : MLPredictor * heap) :
  predict fsqrt data (self, h) = (Ok (Some p), s') →
  (∃ k m, model self = Some (Fitted k m))
  ∧ (model_type self = "LogisticRegression" → is_Some (scaler self))
  ∧ flt (confidence p) (probability_down p) = false
  ∧ flt (confidence p) (probability_up p) = false.
Proof.
  intros E. unfold predict, try_except in E.
  match type of E with
  | (let (_, _) := ?m in _) = _ => destruct m as [[o|e] s2] eqn:Eb
  end; [|discriminate].
  injection E as -> ->.
  apply bind_Ok_inv in Eb as (self0 & s0 & Hg & Eb). injection Hg as <- <-.
  cbn [fst] in Eb.
  destruct (model self) as [e|] eqn:Hm; [|discriminate].
  apply bind_Ok_inv in Eb as (d & sp & Hprep & Eb).
  pose proof (prepare_features_stable fsqrt data _ _ _ Hprep)
    as (Hkm & _ & Hks).
  pose proof (prepare_features_ok fsqrt _ _ _ _ Hprep) as Hsp.
  cbn [fst] in Hkm, Hks, Hsp.
  apply bind_Ok_inv in Eb as (self1 & s1 & Hg & Eb). injection Hg as <- <-.
  apply bind_Ok_inv in Eb as (cols & s2 & Hl2 & Eb).
  apply lift_heap_self in Hl2.
  apply bind_Ok_inv in Eb as (index & s3 & Hl3 & Eb).
  apply lift_heap_self in Hl3. cbv zeta in Eb.
  destruct (decide _) as [|_]; [discriminate|].
  apply predict_latest_ok in Eb as (Hfit & Hsc & Hc0 & Hc1).
  rewrite Hl3, Hl2 in Hfit, Hsc. rewrite Hkm, Hm in Hfit.
  rewrite Hks in Hsc. rewrite Hsp in Hsc.
  cbn [model_type set_feature_columns] in Hsc.
  split; [|split; [exact Hsc|split; assumption]].
  destruct Hfit as (k & m & Hfit). exists k, m. exact Hfit.
Qed.

(** X27.  What an evaluation implies.  When [evaluate_model] answers with
    a score, the predictor held a fitted model, the predictions scored are
    as many as the clean rows, at least 30, and the correct ones are not
    more than all of them. *)
Theorem evaluation_counts `{SklearnProba} (fsqrt : F64 → F64) (data : loc)
  (self : MLPredictor) (h : heap) (ev : Evaluation)
  (s' : MLPredictor * heap) :
  evaluate_model fsqrt data (self, h) = (Ok (Some ev), s') →
  (∃ k m, model self = Some (Fitted k m))
  ∧ (30 ≤ total_predictions ev)%nat
  ∧ (correct_predictions ev ≤ total_predictions ev)%nat
  ∧ ∃ clean s1, clean_training_data fsqrt data (self, h) = (Ok clean, s1)
                ∧ total_predictions ev = length clean.
Proof.
  intros E. unfold evaluate_model, try_except in E.
  match type of E with
  | (let (_, _) := ?m in _) = _ => destruct m as [[o|e] s2] eqn:Eb
  end; [|discriminate].
  injection E as -> ->.
  apply bind_Ok_inv in Eb as (clean & sc & Hclean & Eb).
  pose proof (clean_training_data_stable fsqrt data _ _ _ Hclean)
    as (Hkm & _). cbn [fst] in Hkm.
  apply bind_Ok_inv in Eb as (self1 & s1 & Hg & Eb). injection Hg as <- <-.
  destruct (decide (length clean < 30)%nat) as [|Hge]; [discriminate|].
  apply score_clean_ok in Eb as (Hfit & Htot & Hcor).
  rewrite Hkm in Hfit.
  split; [exact Hfit|]. split; [lia|]. split; [exact Hcor|].
  exists clean, sc. split; [exact Hclean | exact Htot].
Qed.

Lemma predict_latest_small (i : nat) (r : list F64) (h1 : heap) :
  try_except
    (predict_latest (set_feature_columns trained_features trained_predictor)
       [(i, r)])
    (λ _, mret None)
    (set_feature_columns trained_features trained_predictor, h1)
  = (Ok (Some {| prediction := F 0; probability_down := F 1;
                 probability_up := F 0; confidence := F 1 |}),
     (set_feature_columns trained_features trained_predictor, h1)).
Proof. reflexivity. Qed.

Lemma zigzag_60_latest_row :
  dropna_rows (last_row (length (df_index (raw_frame (zigzag_prices 60)
                                             (flat_volume 60)))))
    (take 7 (training_columns (zigzag_prices 60) (flat_volume 60)))
  = [(59%nat,
      row (take 7 (training_columns (zigzag_prices 60) (flat_volume 60))) 59)].
Proof.
  assert (E : forallb (λ x, negb (isna x))
                (row (take 7 (training_columns (zigzag_prices 60)
                                (flat_volume 60))) 59) = true)
    by (lazy; reflexivity).
  change (last_row _) with [59%nat].
  unfold dropna_rows. cbn [omap list_omap]. cbv zeta. rewrite E. reflexivity.
Qed.

Lemma prediction_comes_from_fitted_model_witness :
  ∃ p s',
    predict fsqrt_dec 1
      (trained_predictor, store_of (zigzag_prices 60) (flat_volume 60))
    = (Ok (Some p), s')
    ∧ flt (confidence p) (probability_down p) = false
    ∧ flt (confidence p) (probability_up p) = false.
Proof.
  pose proof (predict_run fsqrt_dec trained_predictor
                (store_of (zigzag_prices 60) (flat_volume 60)) 1
                (raw_frame (zigzag_prices 60) (flat_volume 60))
                (zigzag_prices 60) (flat_volume 60)
                eq_refl eq_refl eq_refl (mk_is_Some _ _ eq_refl)) as Hrun.
  cbv zeta in Hrun. rewrite zigzag_60_latest_row in Hrun.
  destruct (decide (length [_] = 0)%nat) as [Hn|_]; [discriminate Hn|].
  rewrite predict_latest_small in Hrun.
  eexists _, _. split; [exact Hrun|].
  destruct (prediction_comes_from_fitted_model fsqrt_dec 1 _ _ _ _ Hrun)
    as (_ & _ & Hd & Hu).
  split; [exact Hd | exact Hu].
Defined.

Lemma score_clean_small (clean : table) (h1 : heap) :
  ∃ ev,
    try_except
      (score_clean (set_feature_columns trained_features trained_predictor)
         clean)
      (λ _, mret None)
      (set_feature_columns trained_features trained_predictor, h1)
    = (Ok (Some ev),
       (set_feature_columns trained_features trained_predictor, h1)).
Proof.
  unfold try_except, score_clean. cbv zeta.
  unfold mbind, M_bind, scaler_apply, model_predict, get_self, ext.
  cbn [model_type set_feature_columns trained_predictor String.eqb Ascii.eqb
       Bool.eqb fst snd scaler model scaler_transform clf_predict
       accuracy_score sklearn_small].
  unfold mbind, M_bind, ext. cbn [fst snd scaler model]. cbn.
  destruct (decide _) as [_|Hn]; [eexists; reflexivity|].
  exfalso. apply Hn. unfold target_of, features_of.
  rewrite !length_fmap. reflexivity.
Qed.

Lemma evaluation_counts_witness :
  ∃ ev s',
    evaluate_model fsqrt_dec 1
      (trained_predictor, store_of (falling_prices 99) (flat_volume 99))
    = (Ok (Some ev), s')
    ∧ (30 ≤ total_predictions ev)%nat
    ∧ (correct_predictions ev ≤ total_predictions ev)%nat.
Proof.
  pose proof (evaluate_model_run_full fsqrt_dec trained_predictor
                (store_of (falling_prices 99) (flat_volume 99)) 1
                (raw_frame (falling_prices 99) (flat_volume 99))
                (falling_prices 99) (flat_volume 99)
                eq_refl eq_refl eq_refl) as Hrun.
  cbv zeta in Hrun.
  destruct falling_99_clean_rows as [Hlen _].
  set (clean := dropna _ _) in *. clearbody clean.
  rewrite Hlen in Hrun.
  destruct (decide (50 < 30)%nat) as [Hn|_]; [exfalso; lia|].
  destruct (score_clean_small clean
              (<[1%positive := prepared fsqrt_dec (falling_prices 99)
                                 (flat_volume 99)
                                 (raw_frame (falling_prices 99)
                                    (flat_volume 99))]>
                 (store_of (falling_prices 99) (flat_volume 99))))
    as [ev Hev].
  rewrite Hev in Hrun.
  exists ev. eexists. split; [exact Hrun|].
  destruct (evaluation_counts fsqrt_dec 1 _ _ _ _ Hrun)
    as (_ & H30 & Hcor & _).
  split; [exact H30 | exact Hcor].
Defined.
